(** * keda-persistent-kafka-lag-scaler: a shallow embedding of the scaler core

    The development follows the Go packages of the repository:
    - [lag]     : [LagSample], [SlidingWindow], [EvaluatePersistence] and
                  [hasPersistentLag];
    - [config]  : [ParseFromMetadata], [getMetadataOrEnv];
    - [kafka]   : [FetchLag];
    - [server]  : [IsActive], [GetMetricSpec], [GetMetrics].

    Go's [int64] and [time.Duration] are integers of [Z] with the
    two's-complement wrap-around written out ([Int64.wrap]); a [time.Time] is an
    instant on one time line, counted in nanoseconds; Go maps are [gmap]s whose
    iteration order is left open; slices are views on backing arrays that live
    in a heap. *)

From Stdlib Require Import ZArith Lia Ascii String Sorting.Sorted.
From stdpp Require Import gmap strings list fin_maps.

Local Open Scope Z_scope.

(** ** Machine integers *)

Module Int64.

Definition min : Z := - 2 ^ 63.
Definition max : Z := 2 ^ 63 - 1.

Definition in_range (z : Z) : Prop := min ≤ z ≤ max.

(** Two's-complement reduction of a mathematical integer to an [int64]. *)
Definition wrap (z : Z) : Z := (z + 2 ^ 63) mod 2 ^ 64 - 2 ^ 63.

Definition add (a b : Z) : Z := wrap (a + b).
Definition sub (a b : Z) : Z := wrap (a - b).
Definition mul (a b : Z) : Z := wrap (a * b).

(** Saturation, as [time.Time.Sub] does it. *)
Definition clamp (z : Z) : Z := Z.max min (Z.min max z).

End Int64.

(** ** Package time *)

Module time.

(** An instant, in nanoseconds on a single time line. *)
Definition Time := Z.
(** [time.Duration] is an [int64] count of nanoseconds. *)
Definition Duration := Z.

Definition zeroTime : Time := 0.
Definition Second : Duration := 1000000000.

Definition Before (t u : Time) : bool := t <? u.
Definition After (t u : Time) : bool := u <? t.
Definition Add (t : Time) (d : Duration) : Time := t + d.
(** [t.Sub(u)]: the duration [t - u], the maximum (or minimum) duration when
    the difference does not fit. *)
Definition Sub (t u : Time) : Duration := Int64.clamp (t - u).

End time.

(** ** Package lag: samples *)

Record LagSample := mkLagSample {
  Timestamp : time.Time;
  Topic     : string;
  Partition : Z;
  Lag       : Z;
  Offset    : Z;
  EndOffset : Z
}.

(** The zero value of the struct, what [make] fills a fresh array with. *)
Definition zeroLagSample : LagSample :=
  mkLagSample time.zeroTime EmptyString 0 0 0 0.

Record EvaluationResult := mkEvaluationResult {
  Persistent      : bool;
  TotalCurrentLag : Z
}.

#[global] Instance LagSample_eq_dec : EqDecision LagSample.
Proof. solve_decision. Defined.

#[global] Instance EvaluationResult_eq_dec : EqDecision EvaluationResult.
Proof. solve_decision. Defined.

(** ** sort.Slice

    [sort.Slice(x, less)] reorders [x] in place so that no element is [less]
    than one before it; it is not stable.  The evaluator calls it with
    [less i j := x[i].Timestamp.Before(x[j].Timestamp)].  The interface keeps
    the contract and leaves the algorithm open. *)

Definition TimestampLe (a b : LagSample) : Prop := Timestamp a ≤ Timestamp b.

Class SliceSorter := {
  sortSlice : list LagSample → list LagSample;
  sortSlice_perm : ∀ l, sortSlice l ≡ₚ l;
  sortSlice_sorted : ∀ l, StronglySorted TimestampLe (sortSlice l)
}.

(** Insertion sort, which the Go runtime uses for slices of at most twelve
    elements. *)
Fixpoint insertByTimestamp (s : LagSample) (l : list LagSample) : list LagSample :=
  match l with
  | [] => [s]
  | x :: rest =>
      if time.Before (Timestamp s) (Timestamp x) then s :: x :: rest
      else x :: insertByTimestamp s rest
  end.

Definition insertionSort (l : list LagSample) : list LagSample :=
  fold_left (λ acc s, insertByTimestamp s acc) l [].

(** ** Package lag: the evaluator *)

(** The loop of [hasPersistentLag], with its two locals. *)
Fixpoint hasPersistentLag_loop (samples : list LagSample) (threshold : Z)
    (sustainDuration : time.Duration) (stretchStart : time.Time)
    (inStretch : bool) : bool :=
  match samples with
  | [] => false
  | s :: rest =>
      if threshold <=? Lag s then
        let stretchStart' := if inStretch then stretchStart else Timestamp s in
        if sustainDuration <=? time.Sub (Timestamp s) stretchStart' then true
        else hasPersistentLag_loop rest threshold sustainDuration stretchStart' true
      else hasPersistentLag_loop rest threshold sustainDuration stretchStart false
  end.

Definition hasPersistentLag (samples : list LagSample) (threshold : Z)
    (sustainDuration : time.Duration) : bool :=
  match samples with
  | [] => false
  | _ => hasPersistentLag_loop samples threshold sustainDuration time.zeroTime false
  end.

(** One iteration of the grouping loop: append to the partition's slice, and
    replace the tracked latest sample when there is none or when this one is
    strictly after it. *)
Definition groupStep (acc : gmap Z (list LagSample) * gmap Z LagSample)
    (s : LagSample) : gmap Z (list LagSample) * gmap Z LagSample :=
  let byPartition := acc.1 in
  let latestByPartition := acc.2 in
  (<[Partition s := default [] (byPartition !! Partition s) ++ [s]]> byPartition,
   match latestByPartition !! Partition s with
   | Some existing =>
       if time.After (Timestamp s) (Timestamp existing)
       then <[Partition s := s]> latestByPartition
       else latestByPartition
   | None => <[Partition s := s]> latestByPartition
   end).

Definition groupSamples (samples : list LagSample)
    : gmap Z (list LagSample) * gmap Z LagSample :=
  fold_left groupStep samples (∅, ∅).

(** [for _, s := range latestByPartition { totalCurrentLag += s.Lag }], along
    one iteration order. *)
Definition sumLatest (order : list LagSample) : Z :=
  fold_left (λ total s, Int64.add total (Lag s)) order 0.

Section Evaluator.
Context `{SliceSorter}.

(** The loop over [byPartition] with its [break], along one iteration
    order. *)
Fixpoint checkPartitions (order : list (list LagSample)) (threshold : Z)
    (sustainDuration : time.Duration) : bool :=
  match order with
  | [] => false
  | partSamples :: rest =>
      if hasPersistentLag (sortSlice partSamples) threshold sustainDuration
      then true
      else checkPartitions rest threshold sustainDuration
  end.

(** Go leaves the iteration order of a map open: a run of
    [EvaluatePersistence] picks one order for each of its two map loops. *)
Inductive EvaluatePersistence_run (samples : list LagSample) (threshold : Z)
    (sustainDuration : time.Duration) : EvaluationResult → Prop :=
| run_empty :
    samples = [] →
    EvaluatePersistence_run samples threshold sustainDuration
      (mkEvaluationResult false 0)
| run_loops (latestOrder : list LagSample) (groupOrder : list (list LagSample)) :
    samples ≠ [] →
    latestOrder ≡ₚ (map_to_list (groupSamples samples).2).*2 →
    groupOrder ≡ₚ (map_to_list (groupSamples samples).1).*2 →
    EvaluatePersistence_run samples threshold sustainDuration
      (mkEvaluationResult
         (checkPartitions groupOrder threshold sustainDuration)
         (sumLatest latestOrder)).

(** The run that walks both maps in the order of [map_to_list]. *)
Definition EvaluatePersistence (samples : list LagSample) (threshold : Z)
    (sustainDuration : time.Duration) : EvaluationResult :=
  match samples with
  | [] => mkEvaluationResult false 0
  | _ =>
      let grouped := groupSamples samples in
      mkEvaluationResult
        (checkPartitions (map_to_list grouped.1).*2 threshold sustainDuration)
        (sumLatest (map_to_list grouped.2).*2)
  end.

End Evaluator.

(** ** Slices and backing arrays

    A Go slice is a view (array, offset, length, capacity) on a backing array.
    The heap is the list of the arrays allocated so far, addressed by
    position; nothing is freed.  Two slices alias when they name the same
    array. *)

Abbreviation heap := (list (list LagSample)).

Record slice := mkSlice {
  s_array : nat;
  s_off   : nat;
  s_len   : nat;
  s_cap   : nat
}.

(** The nil slice: no elements and no room. *)
Definition nilSlice : slice := mkSlice 0 0 0 0.

Definition backing (h : heap) (s : slice) : list LagSample :=
  default [] (h !! s_array s).

(** The elements a slice shows. *)
Definition slice_elems (h : heap) (s : slice) : list LagSample :=
  take (s_len s) (drop (s_off s) (backing h s)).

(** A slice is well formed in a heap when its capacity lies inside its
    array. *)
Definition slice_wf (h : heap) (s : slice) : Prop :=
  (s_len s ≤ s_cap s ∧ s_off s + s_cap s ≤ length (backing h s))%nat.

(** Overwrite [arr] from position [pos] on with [vals]. *)
Definition array_write (arr : list LagSample) (pos : nat) (vals : list LagSample)
    : list LagSample :=
  take pos arr ++ vals ++ drop (pos + length vals) arr.

(** [make([]LagSample, n)]: a fresh array of [n] zero values. *)
Definition make (n : nat) (h : heap) : slice * heap :=
  (mkSlice (length h) 0 n n, h ++ [replicate n zeroLagSample]).

(** [copy(dst, src)]: copies [min(len(dst), len(src))] elements. *)
Definition copy (dst src : slice) (h : heap) : nat * heap :=
  let vals := take (Nat.min (s_len dst) (s_len src)) (slice_elems h src) in
  (length vals, alter (λ arr, array_write arr (s_off dst) vals) (s_array dst) h).

(** [s[i] = v]; out of range it panics ([None]). *)
Definition slice_set (s : slice) (i : nat) (v : LagSample) (h : heap) : option heap :=
  if decide (i < s_len s)%nat
  then Some (alter (λ arr, <[(s_off s + i)%nat := v]> arr) (s_array s) h)
  else None.

(** A sequence of element assignments through one slice. *)
Fixpoint slice_sets (s : slice) (writes : list (nat * LagSample)) (h : heap)
    : option heap :=
  match writes with
  | [] => Some h
  | (i, v) :: rest =>
      match slice_set s i v h with
      | Some h' => slice_sets s rest h'
      | None => None
      end
  end.

(** [s[i:]] for [i ≤ len(s)]. *)
Definition slice_from (s : slice) (i : nat) : slice :=
  mkSlice (s_array s) (s_off s + i) (s_len s - i) (s_cap s - i).

Section Append.
(** How much room beyond the needed length the runtime adds when [append]
    has to reallocate (from the old capacity and the needed length); the
    growth policy belongs to the Go runtime. *)
Variable growslack : nat → nat → nat.

(** [append(s, vals...)]: in place when the capacity suffices, otherwise
    into a fresh array. *)
Definition append (s : slice) (vals : list LagSample) (h : heap) : slice * heap :=
  let n := (s_len s + length vals)%nat in
  if decide (n ≤ s_cap s)%nat then
    (mkSlice (s_array s) (s_off s) n (s_cap s),
     alter (λ arr, array_write arr (s_off s + s_len s) vals) (s_array s) h)
  else
    let newcap := (n + growslack (s_cap s) n)%nat in
    (mkSlice (length h) 0 n newcap,
     h ++ [slice_elems h s ++ vals ++ replicate (newcap - n) zeroLagSample]).
End Append.

(** ** Package lag: the sliding window

    The mutex is not modelled: every operation is taken as one atomic step on
    the pair of the window and the heap. *)

Record SlidingWindow := mkSlidingWindow {
  samples        : slice;
  windowDuration : time.Duration
}.

Definition NewSlidingWindow (windowSize : Z) (samplingInterval : time.Duration)
    : SlidingWindow :=
  mkSlidingWindow nilSlice (Int64.mul windowSize samplingInterval).

(** The scan of [evict]: the index of the first sample that is not before
    the cutoff, counting from [i]. *)
Fixpoint evict_scan (cutoff : time.Time) (elems : list LagSample) (i : nat) : nat :=
  match elems with
  | [] => i
  | s :: rest =>
      if time.Before (Timestamp s) cutoff then evict_scan cutoff rest (S i) else i
  end.

(** [evict], with the reading [now] of the clock it takes. *)
Definition evict (now : time.Time) (w : SlidingWindow) (h : heap) : SlidingWindow :=
  let cutoff := time.Add now (Int64.wrap (- windowDuration w)) in
  let i := evict_scan cutoff (slice_elems h (samples w)) 0 in
  if decide (0 < i)%nat
  then mkSlidingWindow (slice_from (samples w) i) (windowDuration w)
  else w.

Section Window.
Variable growslack : nat → nat → nat.

Definition Add (now : time.Time) (batch : list LagSample) (w : SlidingWindow)
    (h : heap) : SlidingWindow * heap :=
  let '(appended, h') := append growslack (samples w) batch h in
  (evict now (mkSlidingWindow appended (windowDuration w)) h', h').

(** A sequence of [Add] calls, each with the reading of the clock it takes
    and its batch. *)
Fixpoint Adds (calls : list (time.Time * list LagSample)) (w : SlidingWindow)
    (h : heap) : SlidingWindow * heap :=
  match calls with
  | [] => (w, h)
  | (now, batch) :: rest =>
      let '(w', h') := Add now batch w h in
      Adds rest w' h'
  end.
End Window.

Definition Snapshot (w : SlidingWindow) (h : heap) : slice * heap :=
  let '(out, h1) := make (s_len (samples w)) h in
  let '(_, h2) := copy out (samples w) h1 in
  (out, h2).

Definition Len (w : SlidingWindow) : nat := s_len (samples w).

(** ** Package strconv (Go standard library), base 10 and 64 bits

    Written after the library's [ParseUint], [ParseInt] and [Atoi]: an
    optional sign, then one or more decimal digits read left to right; the
    value must fit. *)

Module strconv.

Inductive ErrKind := ErrSyntax | ErrRange.

Record NumError := mkNumError {
  Func : string;
  Num  : string;
  Err  : ErrKind
}.

Definition maxUint64 : Z := 2 ^ 64 - 1.

Definition digitVal (c : ascii) : option Z :=
  let n := Z.of_N (N_of_ascii c) in
  if (48 <=? n) && (n <=? 57) then Some (n - 48) else None.

(** The digit loop of [ParseUint]. *)
Fixpoint ParseUint_loop (cs : list ascii) (n : Z) : ErrKind + Z :=
  match cs with
  | [] => inr n
  | c :: rest =>
      match digitVal c with
      | None => inl ErrSyntax
      | Some d =>
          if maxUint64 / 10 + 1 <=? n then inl ErrRange
          else
            let n1 := n * 10 + d in
            if maxUint64 <? n1 then inl ErrRange
            else ParseUint_loop rest n1
      end
  end.

Definition ParseUint (cs : list ascii) : ErrKind + Z :=
  match cs with
  | [] => inl ErrSyntax
  | _ => ParseUint_loop cs 0
  end.

Definition isPlus (c : ascii) : bool := bool_decide (c = "+"%char).
Definition isMinus (c : ascii) : bool := bool_decide (c = "-"%char).

(** [ParseInt(s, 10, 64)] *)
Definition ParseInt (s : string) : NumError + Z :=
  match list_ascii_of_string s with
  | [] => inl (mkNumError "ParseInt" s ErrSyntax)
  | c :: rest =>
      let neg := isMinus c in
      let body := if isPlus c || isMinus c then rest else c :: rest in
      match ParseUint body with
      | inl ErrSyntax => inl (mkNumError "ParseInt" s ErrSyntax)
      | r =>
          let un := match r with inr n => n | inl _ => maxUint64 end in
          let cutoff := 2 ^ 63 in
          if negb neg && (cutoff <=? un) then inl (mkNumError "ParseInt" s ErrRange)
          else if neg && (cutoff <? un) then inl (mkNumError "ParseInt" s ErrRange)
          else inr (if neg then - un else un)
      end
  end.

(** [Atoi(s)], with a 64-bit [int]: the value of [ParseInt(s, 10, 0)], its
    error renamed. *)
Definition Atoi (s : string) : NumError + Z :=
  match ParseInt s with
  | inl e => inl (mkNumError "Atoi" (Num e) (Err e))
  | inr n => inr n
  end.

End strconv.

(** ** Package config *)

Module config.

Record ScalerConfig := mkScalerConfig {
  BootstrapServers : string;
  Topic            : string;
  ConsumerGroup    : string;
  LagThreshold     : Z;
  SustainDuration  : time.Duration;
  SamplingInterval : time.Duration;
  WindowSize       : Z
}.

(** [fmt.Errorf] values: a plain message, or a message wrapping ([%w]) the
    error of the number parser. *)
Inductive error :=
| errorString (msg : string)
| wrapError (msg : string) (cause : strconv.NumError).

(** The request metadata, a [map[string]string] that may be nil. *)
Definition Metadata := option (gmap string string).

(** [v, ok := metadata[key]]; a nil map has no key. *)
Definition lookupMetadata (metadata : Metadata) (key : string) : option string :=
  match metadata with
  | Some m => m !! key
  | None => None
  end.

(** The process environment; [os.Getenv] gives the empty string for an
    unset variable. *)
Definition Getenv (env : gmap string string) (key : string) : string :=
  default EmptyString (env !! key).

Definition getMetadataOrEnv (metadata : Metadata) (env : gmap string string)
    (key envKey defaultVal : string) : string :=
  let fromEnv :=
    if bool_decide (Getenv env envKey ≠ EmptyString)
    then Getenv env envKey else defaultVal in
  match metadata with
  | Some m =>
      match m !! key with
      | Some v => if bool_decide (v ≠ EmptyString) then v else fromEnv
      | None => fromEnv
      end
  | None => fromEnv
  end.

(** Assignments to one field of the config. *)
Definition withBootstrapServers (v : string) (c : ScalerConfig) : ScalerConfig :=
  mkScalerConfig v (Topic c) (ConsumerGroup c) (LagThreshold c)
    (SustainDuration c) (SamplingInterval c) (WindowSize c).
Definition withTopic (v : string) (c : ScalerConfig) : ScalerConfig :=
  mkScalerConfig (BootstrapServers c) v (ConsumerGroup c) (LagThreshold c)
    (SustainDuration c) (SamplingInterval c) (WindowSize c).
Definition withConsumerGroup (v : string) (c : ScalerConfig) : ScalerConfig :=
  mkScalerConfig (BootstrapServers c) (Topic c) v (LagThreshold c)
    (SustainDuration c) (SamplingInterval c) (WindowSize c).
Definition withLagThreshold (n : Z) (c : ScalerConfig) : ScalerConfig :=
  mkScalerConfig (BootstrapServers c) (Topic c) (ConsumerGroup c) n
    (SustainDuration c) (SamplingInterval c) (WindowSize c).
Definition withSustainDuration (d : time.Duration) (c : ScalerConfig) : ScalerConfig :=
  mkScalerConfig (BootstrapServers c) (Topic c) (ConsumerGroup c) (LagThreshold c)
    d (SamplingInterval c) (WindowSize c).
Definition withSamplingInterval (d : time.Duration) (c : ScalerConfig) : ScalerConfig :=
  mkScalerConfig (BootstrapServers c) (Topic c) (ConsumerGroup c) (LagThreshold c)
    (SustainDuration c) d (WindowSize c).
Definition withWindowSize (n : Z) (c : ScalerConfig) : ScalerConfig :=
  mkScalerConfig (BootstrapServers c) (Topic c) (ConsumerGroup c) (LagThreshold c)
    (SustainDuration c) (SamplingInterval c) n.

(** Sequencing of steps that may return an error. *)
Definition bind {A B : Type} (r : error + A) (k : A → error + B) : error + B :=
  match r with
  | inl e => inl e
  | inr a => k a
  end.

Notation "x ←! r ; k" := (bind r (λ x, k))
  (at level 100, r at next level, right associativity, only parsing).

Definition ParseFromMetadata (metadata : Metadata) (env : gmap string string)
    : error + ScalerConfig :=
  let cfg :=
    mkScalerConfig "" "" "" 500 (120 * time.Second) (10 * time.Second) 30 in
  let cfg :=
    withBootstrapServers
      (getMetadataOrEnv metadata env "bootstrapServers" "KAFKA_BROKERS" "localhost:9092")
      cfg in
  let cfg := withTopic (getMetadataOrEnv metadata env "topic" "KAFKA_TOPIC" "") cfg in
  let cfg :=
    withConsumerGroup
      (getMetadataOrEnv metadata env "consumerGroup" "KAFKA_GROUP_ID" "") cfg in
  if bool_decide (Topic cfg = EmptyString)
  then inl (errorString "topic is required")
  else if bool_decide (ConsumerGroup cfg = EmptyString)
  then inl (errorString "consumerGroup is required")
  else
    cfg ←! match lookupMetadata metadata "lagThreshold" with
           | Some v =>
               match strconv.ParseInt v with
               | inl err => inl (wrapError "invalid lagThreshold: " err)
               | inr n => inr (withLagThreshold n cfg)
               end
           | None =>
               let v := Getenv env "LAG_THRESHOLD" in
               if bool_decide (v ≠ EmptyString) then
                 match strconv.ParseInt v with
                 | inl err => inl (wrapError "invalid LAG_THRESHOLD: " err)
                 | inr n => inr (withLagThreshold n cfg)
                 end
               else inr cfg
           end;
    cfg ←! match lookupMetadata metadata "sustainSeconds" with
           | Some v =>
               match strconv.ParseInt v with
               | inl err => inl (wrapError "invalid sustainSeconds: " err)
               | inr n => inr (withSustainDuration (Int64.mul n time.Second) cfg)
               end
           | None =>
               let v := Getenv env "SUSTAIN_SECONDS" in
               if bool_decide (v ≠ EmptyString) then
                 match strconv.ParseInt v with
                 | inl err => inl (wrapError "invalid SUSTAIN_SECONDS: " err)
                 | inr n => inr (withSustainDuration (Int64.mul n time.Second) cfg)
                 end
               else inr cfg
           end;
    cfg ←! match lookupMetadata metadata "samplingInterval" with
           | Some v =>
               match strconv.ParseInt v with
               | inl err => inl (wrapError "invalid samplingInterval: " err)
               | inr n => inr (withSamplingInterval (Int64.mul n time.Second) cfg)
               end
           | None =>
               let v := Getenv env "SAMPLING_INTERVAL" in
               if bool_decide (v ≠ EmptyString) then
                 match strconv.ParseInt v with
                 | inl err => inl (wrapError "invalid SAMPLING_INTERVAL: " err)
                 | inr n => inr (withSamplingInterval (Int64.mul n time.Second) cfg)
                 end
               else inr cfg
           end;
    cfg ←! match lookupMetadata metadata "windowSize" with
           | Some v =>
               match strconv.Atoi v with
               | inl err => inl (wrapError "invalid windowSize: " err)
               | inr n => inr (withWindowSize n cfg)
               end
           | None =>
               let v := Getenv env "WINDOW_SIZE" in
               if bool_decide (v ≠ EmptyString) then
                 match strconv.Atoi v with
                 | inl err => inl (wrapError "invalid WINDOW_SIZE: " err)
                 | inr n => inr (withWindowSize n cfg)
                 end
               else inr cfg
           end;
    inr cfg.

Definition ParseFromEnv (env : gmap string string) : error + ScalerConfig :=
  ParseFromMetadata None env.

End config.

(** ** Package kafka: the lag fetcher

    The broker is reached through [kafka-go]'s client; its three calls are
    taken as functions from the request to the response or the error the call
    returns. *)

Module kafka.

(** Errors the broker or the transport reports. *)
Definition brokerError := string.

Inductive Address :=
| TCP (address : string)
| TCPHostPort (host : string) (port : Z).

Record Broker := mkBroker { Host : string; Port : Z }.

Record PartitionMeta := mkPartitionMeta { ID : Z }.

Record TopicMeta := mkTopicMeta {
  Name       : string;
  TopicError : option brokerError;
  Partitions : list PartitionMeta
}.

Record MetadataRequest := mkMetadataRequest {
  mr_Addr   : Address;
  mr_Topics : list string
}.

Record MetadataResponse := mkMetadataResponse {
  Topics  : list TopicMeta;
  Brokers : list Broker
}.

Record OffsetRequest := mkOffsetRequest {
  or_Partition : Z;
  or_Timestamp : Z
}.

Record ListOffsetsRequest := mkListOffsetsRequest {
  lr_Addr   : Address;
  lr_Topics : gmap string (list OffsetRequest)
}.

Record PartitionOffsets := mkPartitionOffsets {
  po_Partition  : Z;
  po_LastOffset : Z;
  po_Error      : option brokerError
}.

Record ListOffsetsResponse := mkListOffsetsResponse {
  lo_Topics : gmap string (list PartitionOffsets)
}.

Record OffsetFetchRequest := mkOffsetFetchRequest {
  fr_Addr    : Address;
  fr_GroupID : string;
  fr_Topics  : gmap string (list Z)
}.

Record OffsetFetchPartition := mkOffsetFetchPartition {
  fp_Partition       : Z;
  fp_CommittedOffset : Z;
  fp_Error           : option brokerError
}.

Record OffsetFetchResponse := mkOffsetFetchResponse {
  of_Topics : gmap string (list OffsetFetchPartition)
}.

Record Client := mkClient {
  Addr        : Address;
  Metadata    : MetadataRequest → brokerError + MetadataResponse;
  ListOffsets : ListOffsetsRequest → brokerError + ListOffsetsResponse;
  OffsetFetch : OffsetFetchRequest → brokerError + OffsetFetchResponse
}.

Record LagFetcher := mkLagFetcher {
  client        : Client;
  topic         : string;
  consumerGroup : string
}.

Definition NewLagFetcher (c : Client) (topic consumerGroup : string) : LagFetcher :=
  mkLagFetcher c topic consumerGroup.

(** The errors of [FetchLag], one constructor per [fmt.Errorf]. *)
Inductive error :=
| MetadataRequestFailed (cause : brokerError)
| TopicNotFound (topic : string)
| TopicMetadataError (cause : brokerError)
| ListOffsetsFailed (cause : brokerError)
| OffsetErrorForPartition (partition : Z) (cause : brokerError)
| CoordinatorLookupFailed (cause : brokerError)
| OffsetFetchFailed (cause : brokerError)
| CommittedOffsetErrorForPartition (partition : Z) (cause : brokerError).

(** The loop that fills [endOffsets]. *)
Fixpoint collectEndOffsets (pos : list PartitionOffsets) (endOffsets : gmap Z Z)
    : error + gmap Z Z :=
  match pos with
  | [] => inr endOffsets
  | po :: rest =>
      match po_Error po with
      | Some e => inl (OffsetErrorForPartition (po_Partition po) e)
      | None =>
          collectEndOffsets rest (<[po_Partition po := po_LastOffset po]> endOffsets)
      end
  end.

(** The loop that fills [committedOffsets]; a negative committed offset
    stands for "none committed" and counts as 0. *)
Fixpoint collectCommittedOffsets (pos : list OffsetFetchPartition)
    (committedOffsets : gmap Z Z) : error + gmap Z Z :=
  match pos with
  | [] => inr committedOffsets
  | po :: rest =>
      match fp_Error po with
      | Some e => inl (CommittedOffsetErrorForPartition (fp_Partition po) e)
      | None =>
          let committed := fp_CommittedOffset po in
          let committed := if committed <? 0 then 0 else committed in
          collectCommittedOffsets rest (<[fp_Partition po := committed]> committedOffsets)
      end
  end.

(** The sample of one partition; a partition without an entry reads 0 from
    either map. *)
Definition sampleOf (now : time.Time) (topic : string)
    (endOffsets committedOffsets : gmap Z Z) (p : PartitionMeta) : LagSample :=
  let endOffset := default 0 (endOffsets !! ID p) in
  let committed := default 0 (committedOffsets !! ID p) in
  let lagValue := Int64.sub endOffset committed in
  let lagValue := if lagValue <? 0 then 0 else lagValue in
  mkLagSample now topic (ID p) lagValue committed endOffset.

(** [FetchLag], with the reading [now] of the clock it takes first. *)
Definition FetchLag (f : LagFetcher) (now : time.Time) : error + list LagSample :=
  match Metadata (client f) (mkMetadataRequest (Addr (client f)) [topic f]) with
  | inl err => inl (MetadataRequestFailed err)
  | inr metaResp =>
  match Topics metaResp with
  | [] => inl (TopicNotFound (topic f))
  | topicMeta :: _ =>
  match TopicError topicMeta with
  | Some err => inl (TopicMetadataError err)
  | None =>
  let partitions := Partitions topicMeta in
  let offsetRequests :=
    fold_left (λ (m : gmap string (list OffsetRequest)) p,
                 <[topic f := default [] (m !! topic f)
                              ++ [mkOffsetRequest (ID p) (-1)]]> m)
              partitions ∅ in
  match ListOffsets (client f) (mkListOffsetsRequest (Addr (client f)) offsetRequests) with
  | inl err => inl (ListOffsetsFailed err)
  | inr listResp =>
  match collectEndOffsets (default [] (lo_Topics listResp !! topic f)) ∅ with
  | inl err => inl err
  | inr endOffsets =>
  match Metadata (client f) (mkMetadataRequest (Addr (client f)) []) with
  | inl err => inl (CoordinatorLookupFailed err)
  | inr coordinator =>
  let coordinatorAddr :=
    match Brokers coordinator with
    | b :: _ => TCPHostPort (Host b) (Port b)
    | [] => Addr (client f)
    end in
  let topicPartitions :=
    fold_left (λ (m : gmap string (list Z)) p,
                 <[topic f := default [] (m !! topic f) ++ [ID p]]> m)
              partitions ∅ in
  match OffsetFetch (client f)
          (mkOffsetFetchRequest coordinatorAddr (consumerGroup f) topicPartitions) with
  | inl err => inl (OffsetFetchFailed err)
  | inr fetchResp =>
  match collectCommittedOffsets (default [] (of_Topics fetchResp !! topic f)) ∅ with
  | inl err => inl err
  | inr committedOffsets =>
      inr (map (sampleOf now (topic f) endOffsets committedOffsets) partitions)
  end end end end end end end end.

End kafka.

(** ** Package server: the external-scaler RPCs

    The server holds the window and the config; an RPC runs on the window and
    the heap as they are when it is served.  Logging is left out. *)

Module server.

Record ExternalScalerServer := mkServer {
  window : SlidingWindow;
  config : config.ScalerConfig
}.

Record IsActiveResponse := mkIsActiveResponse { Result : bool }.

Record MetricSpec := mkMetricSpec {
  ms_MetricName : string;
  TargetSize    : Z
}.

Record MetricValue := mkMetricValue {
  MetricName   : string;
  MetricValue_ : Z
}.

Record GetMetricSpecResponse := mkGetMetricSpecResponse {
  MetricSpecs : list MetricSpec
}.

Record GetMetricsResponse := mkGetMetricsResponse {
  MetricValues : list MetricValue
}.

(** The error half of a Go result pair; [None] is [nil]. *)
Definition error := option string.

Section Handlers.
Context `{SliceSorter}.

Definition evaluate (s : ExternalScalerServer) (h : heap)
    : EvaluationResult * heap :=
  let '(snap, h') := Snapshot (window s) h in
  (EvaluatePersistence (slice_elems h' snap)
     (config.LagThreshold (config s)) (config.SustainDuration (config s)),
   h').

Definition IsActive (s : ExternalScalerServer) (h : heap)
    : (IsActiveResponse * error) * heap :=
  let '(result, h') := evaluate s h in
  ((mkIsActiveResponse (Persistent result), None), h').

Definition GetMetricSpec (s : ExternalScalerServer)
    : GetMetricSpecResponse * error :=
  (mkGetMetricSpecResponse
     [mkMetricSpec "persistent_kafka_lag" (config.LagThreshold (config s))],
   None).

Definition GetMetrics (s : ExternalScalerServer) (h : heap)
    : (GetMetricsResponse * error) * heap :=
  let '(result, h') := evaluate s h in
  let metricValue := if Persistent result then TotalCurrentLag result else 0 in
  ((mkGetMetricsResponse [mkMetricValue "persistent_kafka_lag" metricValue], None),
   h').
End Handlers.

(** What a long-running handler has come to on a finite stretch of events:
    still in its loop, returned, or stopped by a panic. *)
Inductive Outcome :=
| Running
| Returned (err : error)
| Panicked.

(** What the [select] of [StreamIsActive] receives: the stream's context is
    done, or the ticker fires; at a tick the window and the heap are as the
    scraper has left them, and [Send] succeeds or fails. *)
Inductive StreamEvent :=
| StreamDone
| StreamTick (w : SlidingWindow) (h : heap) (sendError : option string).

Section Stream.
Context `{SliceSorter}.

(** The loop of [StreamIsActive]; the responses are those [Send] accepted. *)
Fixpoint StreamIsActive_loop (s : ExternalScalerServer) (events : list StreamEvent)
    : list IsActiveResponse * Outcome :=
  match events with
  | [] => ([], Running)
  | StreamDone :: _ => ([], Returned None)
  | StreamTick w h sendError :: rest =>
      let result := (evaluate (mkServer w (config s)) h).1 in
      let resp := mkIsActiveResponse (Persistent result) in
      match sendError with
      | Some err => ([], Returned (Some ("error sending stream: " ++ err)%string))
      | None =>
          let '(sent, outcome) := StreamIsActive_loop s rest in
          (resp :: sent, outcome)
      end
  end.

(** [time.NewTicker] panics on a non-positive interval. *)
Definition StreamIsActive (s : ExternalScalerServer) (events : list StreamEvent)
    : list IsActiveResponse * Outcome :=
  if config.SamplingInterval (config s) <=? 0 then ([], Panicked)
  else StreamIsActive_loop s events.
End Stream.

End server.

(** ** Package scraper

    The scraper holds the fetcher and a pointer to the window; the window and
    the heap are the state its calls pass on.  What the broker answers
    changes from one fetch to the next, so each fetch comes with the client
    behaviour of its moment and with the two readings of the clock it causes:
    the one [FetchLag] takes first and the one [evict] takes inside [Add]. *)

Module scraper.

Record MetricsScraper := mkMetricsScraper {
  fetcher  : kafka.LagFetcher;
  interval : time.Duration
}.

Definition New (fetcher : kafka.LagFetcher) (interval : time.Duration)
    : MetricsScraper :=
  mkMetricsScraper fetcher interval.

Record FetchCall := mkFetchCall {
  broker   : kafka.Client;
  fetchNow : time.Time;
  addNow   : time.Time
}.

(** What the [select] of [Run] receives. *)
Inductive Event :=
| Done
| Tick (call : FetchCall).

Inductive Outcome :=
| Running
| Returned
| Panicked.

Section Scraper.
Variable growslack : nat → nat → nat.

(** [fetch]: on an error the tick is skipped, otherwise the samples are added
    in one batch. *)
Definition fetch (s : MetricsScraper) (call : FetchCall) (w : SlidingWindow)
    (h : heap) : SlidingWindow * heap :=
  match kafka.FetchLag
          (kafka.mkLagFetcher (broker call) (kafka.topic (fetcher s))
             (kafka.consumerGroup (fetcher s)))
          (fetchNow call) with
  | inl err => (w, h)
  | inr samples => Add growslack (addNow call) samples w h
  end.

Fixpoint Run_loop (s : MetricsScraper) (events : list Event) (w : SlidingWindow)
    (h : heap) : Outcome * (SlidingWindow * heap) :=
  match events with
  | [] => (Running, (w, h))
  | Done :: _ => (Returned, (w, h))
  | Tick call :: rest =>
      let '(w', h') := fetch s call w h in
      Run_loop s rest w' h'
  end.

(** [Run]: the ticker first ([time.NewTicker] panics on a non-positive
    interval), then one fetch at once, then the loop. *)
Definition Run (s : MetricsScraper) (first : FetchCall) (events : list Event)
    (w : SlidingWindow) (h : heap) : Outcome * (SlidingWindow * heap) :=
  if interval s <=? 0 then (Panicked, (w, h))
  else
    let '(w', h') := fetch s first w h in
    Run_loop s events w' h'.
End Scraper.

End scraper.

(** ** Package main: how the parts are wired

    [main] reads the config from the environment, builds the fetcher, the
    window, the scraper and the server from it, starts the scraper and
    serves.  Signals, the listener and the gRPC server are left out. *)

Module main.

Record Process := mkProcess {
  cfg     : config.ScalerConfig;
  fetcher : kafka.LagFetcher;
  window  : SlidingWindow;
  scr     : scraper.MetricsScraper;
  srv     : server.ExternalScalerServer;
  port    : string
}.

(** The wiring of [main], on the environment and on what the brokers at the
    configured address answer; an error is what [log.Fatalf] ends the process
    with. *)
Definition wire (env : gmap string string)
    (metadata : kafka.MetadataRequest → kafka.brokerError + kafka.MetadataResponse)
    (listOffsets : kafka.ListOffsetsRequest → kafka.brokerError + kafka.ListOffsetsResponse)
    (offsetFetch : kafka.OffsetFetchRequest → kafka.brokerError + kafka.OffsetFetchResponse)
    : config.error + Process :=
  match config.ParseFromEnv env with
  | inl err => inl err
  | inr cfg =>
      let fetcher :=
        kafka.NewLagFetcher
          (kafka.mkClient (kafka.TCP (config.BootstrapServers cfg))
             metadata listOffsets offsetFetch)
          (config.Topic cfg) (config.ConsumerGroup cfg) in
      let window :=
        NewSlidingWindow (config.WindowSize cfg) (config.SamplingInterval cfg) in
      let scr := scraper.New fetcher (config.SamplingInterval cfg) in
      let port := config.Getenv env "GRPC_PORT" in
      let port := if bool_decide (port = EmptyString) then "50051"%string else port in
      inr (mkProcess cfg fetcher window scr (server.mkServer window cfg) port)
  end.

End main.

(** ** What the spec says, in its own words *)

(** The samples of partition [p], in input order. *)
Definition samplesOf (p : Z) (samples : list LagSample) : list LagSample :=
  filter (λ s, Partition s = p) samples.

(** [l] contains a consecutive run [first :: more] in which every sample has
    lag at least [t] and whose last timestamp minus its first is at least
    [d]. *)
Definition persistentRun (l : list LagSample) (t d : Z) : Prop :=
  ∃ before first more after,
    l = before ++ (first :: more) ++ after
    ∧ Forall (λ s, t ≤ Lag s) (first :: more)
    ∧ d ≤ Timestamp (List.last more first) - Timestamp first.

(** A run that is already open since [start] and goes on at the head of [l]:
    the state of the walk inside a stretch. *)
Definition openRun (start : time.Time) (l : list LagSample) (t d : Z) : Prop :=
  ∃ first more after,
    l = (first :: more) ++ after
    ∧ Forall (λ s, t ≤ Lag s) (first :: more)
    ∧ d ≤ Timestamp (List.last more first) - start.

(** The first sample of a group, in its order, that no sample of the group
    is later than. *)
Definition firstMax (g : list LagSample) : option LagSample :=
  head (filter (λ s, Forall (λ x, Timestamp x ≤ Timestamp s) g) g).

(** The largest-timestamp sample of partition [p]; of several, the first in
    input order. *)
Definition latestSample (p : Z) (samples : list LagSample) : option LagSample :=
  firstMax (samplesOf p samples).

(** The distinct partition ids of the input. *)
Definition partitionsOf (samples : list LagSample) : list Z :=
  remove_dups (Partition <$> samples).

Definition Zsum (l : list Z) : Z := foldr Z.add 0 l.

(** The sum over the partitions of the lag of the latest sample. *)
Definition sumOfLatestLags (samples : list LagSample) : Z :=
  Zsum ((λ p, from_option Lag 0 (latestSample p samples)) <$> partitionsOf samples).

(** ** Vocabulary of the proofs *)

(** Everything allocated in [h] is still there, unchanged, in [h']. *)
Definition heap_frame (h h' : heap) : Prop :=
  ∀ i, (i < length h)%nat → h' !! i = h !! i.

(** What the scan of [evict] keeps of a list. *)
Definition retained (cutoff : time.Time) (l : list LagSample) : list LagSample :=
  drop (evict_scan cutoff l 0) l.

Definition committedOf (po : kafka.OffsetFetchPartition) : Z :=
  if kafka.fp_CommittedOffset po <? 0 then 0 else kafka.fp_CommittedOffset po.

(** The shape the four numeric blocks of [ParseFromMetadata] share: the
    metadata entry when present (even empty), else the environment variable
    when non-empty, else the config as it is. *)
Definition parseOption (metadata : config.Metadata) (env : gmap string string)
    (key envKey : string) (parse : string → strconv.NumError + Z)
    (set : Z → config.ScalerConfig → config.ScalerConfig) (cfg : config.ScalerConfig)
    : config.error + config.ScalerConfig :=
  match config.lookupMetadata metadata key with
  | Some v =>
      match parse v with
      | inl err => inl (config.wrapError ("invalid " ++ key ++ ": ") err)
      | inr n => inr (set n cfg)
      end
  | None =>
      let v := config.Getenv env envKey in
      if bool_decide (v ≠ EmptyString) then
        match parse v with
        | inl err => inl (config.wrapError ("invalid " ++ envKey ++ ": ") err)
        | inr n => inr (set n cfg)
        end
      else inr cfg
  end.

(** The string a numeric option resolves to: the metadata entry when there
    is one, else the environment variable when it is not empty. *)
Definition resolved (metadata : config.Metadata) (env : gmap string string)
    (key envKey : string) : option string :=
  match config.lookupMetadata metadata key with
  | Some v => Some v
  | None =>
      if bool_decide (config.Getenv env envKey ≠ EmptyString)
      then Some (config.Getenv env envKey) else None
  end.

(** A resolved numeric option, if any, parses. *)
Definition parses (parse : string → strconv.NumError + Z) (o : option string) : Prop :=
  ∀ v, o = Some v → ∃ n, parse v = inr n.

(** A required option is unresolved: no non-empty metadata entry and no
    non-empty environment variable. *)
Definition unresolved (metadata : config.Metadata) (env : gmap string string)
    (key envKey : string) : Prop :=
  (config.lookupMetadata metadata key = None
   ∨ config.lookupMetadata metadata key = Some EmptyString)
  ∧ config.Getenv env envKey = EmptyString.

(** The config before the numeric options are read. *)
Definition baseConfig (metadata : config.Metadata) (env : gmap string string)
    : config.ScalerConfig :=
  config.mkScalerConfig
    (config.getMetadataOrEnv metadata env "bootstrapServers" "KAFKA_BROKERS" "localhost:9092")
    (config.getMetadataOrEnv metadata env "topic" "KAFKA_TOPIC" "")
    (config.getMetadataOrEnv metadata env "consumerGroup" "KAFKA_GROUP_ID" "")
    500 (120 * time.Second) (10 * time.Second) 30.

(** The four numeric steps of [ParseFromMetadata], from a given config. *)
Definition numericSteps (metadata : config.Metadata) (env : gmap string string)
    (cfg : config.ScalerConfig) : config.error + config.ScalerConfig :=
  config.bind
    (parseOption metadata env "lagThreshold" "LAG_THRESHOLD"
       strconv.ParseInt config.withLagThreshold cfg) (λ cfg,
  config.bind
    (parseOption metadata env "sustainSeconds" "SUSTAIN_SECONDS"
       strconv.ParseInt (λ n, config.withSustainDuration (Int64.mul n time.Second)) cfg) (λ cfg,
  config.bind
    (parseOption metadata env "samplingInterval" "SAMPLING_INTERVAL"
       strconv.ParseInt (λ n, config.withSamplingInterval (Int64.mul n time.Second)) cfg) (λ cfg,
  config.bind
    (parseOption metadata env "windowSize" "WINDOW_SIZE"
       strconv.Atoi config.withWindowSize cfg) (λ cfg, inr cfg)))).

(** The duration a resolved option of seconds gives, [dflt] when there is
    none; no sign is looked at. *)
Definition secondsOf (o : option string) (dflt : time.Duration) : time.Duration :=
  match o with
  | Some v =>
      match strconv.ParseInt v with
      | inr n => Int64.mul n time.Second
      | inl _ => dflt
      end
  | None => dflt
  end.



(** The fetcher a scraper uses at one call. *)
Definition fetcherAt (s : scraper.MetricsScraper) (call : scraper.FetchCall)
    : kafka.LagFetcher :=
  kafka.mkLagFetcher (scraper.broker call) (kafka.topic (scraper.fetcher s))
    (kafka.consumerGroup (scraper.fetcher s)).



(** The requests [FetchLag] builds for a list of partitions: the latest
    offset (timestamp -1) of each, and the committed offset of each. *)
Definition offsetRequestsFor (topic : string) (partitions : list kafka.PartitionMeta)
    : gmap string (list kafka.OffsetRequest) :=
  match partitions with
  | [] => ∅
  | _ => {[ topic := (λ p, kafka.mkOffsetRequest (kafka.ID p) (-1)) <$> partitions ]}
  end.

Definition topicPartitionsFor (topic : string) (partitions : list kafka.PartitionMeta)
    : gmap string (list Z) :=
  match partitions with
  | [] => ∅
  | _ => {[ topic := kafka.ID <$> partitions ]}
  end.

(** The address the committed offsets are asked of: the first broker of the
    cluster metadata, the client's own address when it lists none. *)
Definition coordinatorOf (c : kafka.Client) (coordinator : kafka.MetadataResponse)
    : kafka.Address :=
  match kafka.Brokers coordinator with
  | b :: _ => kafka.TCPHostPort (kafka.Host b) (kafka.Port b)
  | [] => kafka.Addr c
  end.

(** The entry of a response that counts for partition [p]: the last one. *)
Definition lastEndOffset (p : Z) (entries : list kafka.PartitionOffsets)
    : option kafka.PartitionOffsets :=
  last (filter (λ po, kafka.po_Partition po = p) entries).

Definition lastCommitted (p : Z) (entries : list kafka.OffsetFetchPartition)
    : option kafka.OffsetFetchPartition :=
  last (filter (λ po, kafka.fp_Partition po = p) entries).

(** The options of [ParseFromMetadata] with their environment variables:
    the three read by [getMetadataOrEnv] and the four numeric ones. *)
Definition stringOptions : list (string * string) :=
  [("bootstrapServers", "KAFKA_BROKERS"); ("topic", "KAFKA_TOPIC");
   ("consumerGroup", "KAFKA_GROUP_ID")]%string.

Definition numericOptions : list (string * string) :=
  [("lagThreshold", "LAG_THRESHOLD"); ("sustainSeconds", "SUSTAIN_SECONDS");
   ("samplingInterval", "SAMPLING_INTERVAL"); ("windowSize", "WINDOW_SIZE")]%string.

(** The metadata entry of a string option that counts: a non-empty one. *)
Definition stringEntry (metadata : config.Metadata) (key : string) : option string :=
  match config.lookupMetadata metadata key with
  | Some v => if bool_decide (v ≠ EmptyString) then Some v else None
  | None => None
  end.

(** The number a resolved option gives, [dflt] when there is none. *)
Definition numberOf (parse : string → strconv.NumError + Z) (o : option string)
    (dflt : Z) : Z :=
  match o with
  | Some v =>
      match parse v with
      | inr n => n
      | inl _ => dflt
      end
  | None => dflt
  end.

(** The calls of a [FetchLag] that got past all four of them: the metadata
    of the topic, whose first entry [topicMeta] carries no error, the latest
    offsets of its partitions, the cluster metadata, and the committed
    offsets of its partitions asked of the coordinator. *)
Definition exchange (f : kafka.LagFetcher) (topicMeta : kafka.TopicMeta)
    (listResp : kafka.ListOffsetsResponse) (fetchResp : kafka.OffsetFetchResponse)
    : Prop :=
  ∃ metaResp others coordinator,
    kafka.Metadata (kafka.client f)
      (kafka.mkMetadataRequest (kafka.Addr (kafka.client f)) [kafka.topic f])
    = inr metaResp
    ∧ kafka.Topics metaResp = topicMeta :: others
    ∧ kafka.TopicError topicMeta = None
    ∧ kafka.ListOffsets (kafka.client f)
        (kafka.mkListOffsetsRequest (kafka.Addr (kafka.client f))
           (offsetRequestsFor (kafka.topic f) (kafka.Partitions topicMeta)))
      = inr listResp
    ∧ kafka.Metadata (kafka.client f)
        (kafka.mkMetadataRequest (kafka.Addr (kafka.client f)) [])
      = inr coordinator
    ∧ kafka.OffsetFetch (kafka.client f)
        (kafka.mkOffsetFetchRequest (coordinatorOf (kafka.client f) coordinator)
           (kafka.consumerGroup f)
           (topicPartitionsFor (kafka.topic f) (kafka.Partitions topicMeta)))
      = inr fetchResp.

(** ** Data of the tests *)

(** [makeSamples] of the evaluator's tests: [n] samples of one partition,
    [interval] apart, with a constant lag. *)
Fixpoint makeSamples (partition : Z) (start : time.Time) (interval : time.Duration)
    (n : nat) (lag : Z) : list LagSample :=
  match n with
  | O => []
  | S n' =>
      mkLagSample start "" partition lag 0 0
      :: makeSamples partition (time.Add start interval) interval n' lag
  end.

Definition twoMinutes : time.Duration := 120 * time.Second.
Definition tenSeconds : time.Duration := 10 * time.Second.

Definition latestSamples : list LagSample :=
  [ mkLagSample 0 "" 0 500 0 0;
    mkLagSample tenSeconds "" 0 200 0 0;
    mkLagSample 0 "" 1 300 0 0;
    mkLagSample tenSeconds "" 1 400 0 0 ].

(** Three samples of partition 0, one minute apart, all at the threshold. *)
Definition atThreshold : list LagSample :=
  makeSamples 0 0 (60 * time.Second) 3 500.

(** Two partitions whose latest lags add up to [2^63]. *)
Definition hugeLags : list LagSample :=
  [ mkLagSample 0 "" 0 (2 ^ 62) 0 (2 ^ 62);
    mkLagSample 0 "" 1 (2 ^ 62) 0 (2 ^ 62) ].

(** Two samples of one partition with the same, largest timestamp: the first
    in input order is the one tracked. *)
Definition tiedSamples : list LagSample :=
  [ mkLagSample 0 "" 0 100 0 0;
    mkLagSample tenSeconds "" 0 700 0 0;
    mkLagSample tenSeconds "" 0 900 0 0 ].

(** The window tests run with a runtime that adds no slack when [append]
    reallocates. *)
Definition noSlack (oldcap needed : nat) : nat := 0%nat.

Definition fiveSecondWindow : SlidingWindow := NewSlidingWindow 5 time.Second.

(** The clock reads 100 s. *)
Definition clock : time.Time := 100 * time.Second.

Definition sampleAt (t : time.Time) (lag : Z) : LagSample :=
  mkLagSample t "" 0 lag 0 0.

Definition contentsAfter (r : SlidingWindow * heap) : list LagSample :=
  slice_elems r.2 (samples r.1).

(** A fresh sample followed by one that is ten seconds old ... *)
Definition outOfOrderBatch : list LagSample :=
  [sampleAt clock 300; sampleAt (clock - 10 * time.Second) 100].

(** ... and a sample whose age is the window duration exactly. *)
Definition boundaryBatch : list LagSample :=
  [sampleAt (clock - 5 * time.Second) 100].

Definition orderedBatch : list LagSample :=
  [sampleAt (clock - 10 * time.Second) 100;
   sampleAt (clock - 5 * time.Second) 200;
   sampleAt clock 300].

(** One earlier call, twenty seconds before, with one sample; then the
    ordered batch: the window reallocates and evicts two samples. *)
Definition earlierCalls : list (time.Time * list LagSample) :=
  [(clock - 20 * time.Second, [sampleAt (clock - 20 * time.Second) 50])].

Definition windowBefore : SlidingWindow :=
  mkSlidingWindow (mkSlice 0 0 1 1) (5 * time.Second).

Definition heapBefore : heap := [[sampleAt (clock - 20 * time.Second) 50]].

Definition windowAfterOrdered : SlidingWindow :=
  mkSlidingWindow (mkSlice 1 2 2 2) (5 * time.Second).

Definition heapAfterOrdered : heap :=
  [[sampleAt (clock - 20 * time.Second) 50];
   sampleAt (clock - 20 * time.Second) 50 :: orderedBatch].

(** TestSlidingWindow_SnapshotIsACopy: one sample with lag 100 in the window;
    the test overwrites the lag in the snapshot with 999. *)
Definition oneSampleWindow : SlidingWindow :=
  mkSlidingWindow (mkSlice 0 0 1 1) (10 * time.Second).

Definition oneSampleHeap : heap := [[sampleAt clock 100]].

(** A broker with two partitions of topic [orders]: partition 0 has end
    offset 100 and committed offset 40, partition 1 has end offset 50 and no
    committed offset (the broker says -1). *)
Definition ordersBroker : kafka.Client :=
  kafka.mkClient (kafka.TCP "localhost:9092")
    (λ _, inr (kafka.mkMetadataResponse
                 [kafka.mkTopicMeta "orders" None
                    [kafka.mkPartitionMeta 0; kafka.mkPartitionMeta 1]]
                 [kafka.mkBroker "localhost" 9092]))
    (λ _, inr (kafka.mkListOffsetsResponse
                 {[ "orders"%string :=
                      [kafka.mkPartitionOffsets 0 100 None;
                       kafka.mkPartitionOffsets 1 50 None] ]}))
    (λ _, inr (kafka.mkOffsetFetchResponse
                 {[ "orders"%string :=
                      [kafka.mkOffsetFetchPartition 0 40 None;
                       kafka.mkOffsetFetchPartition 1 (-1) None] ]})).

Definition ordersFetcher : kafka.LagFetcher :=
  kafka.NewLagFetcher ordersBroker "orders" "workers".

Definition ordersSamples : list LagSample :=
  [ mkLagSample clock "orders" 0 60 40 100;
    mkLagSample clock "orders" 1 50 0 50 ].

(** The same topic on a broker whose answer on the latest offsets carries,
    after a good entry, an error for a partition the topic does not have. *)
Definition staleBroker : kafka.Client :=
  kafka.mkClient (kafka.TCP "localhost:9092")
    (kafka.Metadata ordersBroker)
    (λ _, inr (kafka.mkListOffsetsResponse
                 {[ "orders"%string :=
                      [kafka.mkPartitionOffsets 0 100 None;
                       kafka.mkPartitionOffsets 7 0 (Some "not leader"%string);
                       kafka.mkPartitionOffsets 1 50 None] ]}))
    (kafka.OffsetFetch ordersBroker).

Definition staleFetcher : kafka.LagFetcher :=
  kafka.NewLagFetcher staleBroker "orders" "workers".

(** An environment with the sampling interval set to zero seconds. *)
Definition zeroIntervalEnv : gmap string string :=
  <["KAFKA_TOPIC" := "orders"]> (<["KAFKA_GROUP_ID" := "workers"]>
    (<["SAMPLING_INTERVAL" := "0"]> ∅)).

(** Metadata with an empty [topic] and a key the scaler does not know, over
    an environment with a variable behind a metadata entry and an empty one;
    and the same options given without the noise. *)
Definition noisyMetadata : config.Metadata :=
  Some (<["topic" := ""]> (<["consumerGroup" := "workers"]>
    (<["lagThreshold" := "250"]> (<["pollInterval" := "5"]> ∅)))).

Definition noisyEnv : gmap string string :=
  <["KAFKA_TOPIC" := "orders"]> (<["KAFKA_GROUP_ID" := "others"]>
    (<["LAG_THRESHOLD" := "oops"]> (<["WINDOW_SIZE" := ""]> ∅))).

Definition noisyConfig : config.ScalerConfig :=
  config.mkScalerConfig "localhost:9092" "orders" "workers"
    250 (120 * time.Second) (10 * time.Second) 30.

Definition plainMetadata : config.Metadata :=
  Some (<["consumerGroup" := "workers"]> (<["lagThreshold" := "250"]> ∅)).

Definition plainEnv : gmap string string :=
  <["KAFKA_TOPIC" := "orders"]> ∅.

(** The config tests. *)
Definition requiredOnly : gmap string string :=
  <["topic" := "my-topic"]> (<["consumerGroup" := "my-group"]> ∅).

Definition defaultConfig : config.ScalerConfig :=
  config.mkScalerConfig "localhost:9092" "my-topic" "my-group"
    500 (120 * time.Second) (10 * time.Second) 30.

(** The scenarios of the server tests, on a window of thirty 10 s ticks. *)
Definition testServer (contents : list LagSample) : server.ExternalScalerServer * heap :=
  (server.mkServer
     (mkSlidingWindow (mkSlice 0 0 (length contents) (length contents))
        (300 * time.Second))
     (config.mkScalerConfig "localhost:9092" "test-topic" "test-group"
        500 (120 * time.Second) (10 * time.Second) 30),
   [contents]).

Definition metricOf (r : server.GetMetricsResponse * server.error * heap) : list Z :=
  server.MetricValue_ <$> server.MetricValues r.1.1.

(** [ticks] ticks, 10 s apart, of three partitions with the given lags. *)
Fixpoint threePartitions (start : time.Time) (ticks : nat) (lag0 lag1 lag2 : Z)
    : list LagSample :=
  match ticks with
  | O => []
  | S n =>
      [mkLagSample start "test-topic" 0 lag0 0 0;
       mkLagSample start "test-topic" 1 lag1 0 0;
       mkLagSample start "test-topic" 2 lag2 0 0]
      ++ threePartitions (time.Add start tenSeconds) n lag0 lag1 lag2
  end.

(** Two samples of one partition, ten seconds apart, far above the
    threshold. *)
Definition shortBurst : list LagSample :=
  [ mkLagSample 0 "" 0 1000 0 0;
    mkLagSample tenSeconds "" 0 1000 0 0 ].

(** A server whose window holds thirteen ticks at the threshold, and one
    whose window holds the short burst. *)
Definition busyServer : server.ExternalScalerServer :=
  (testServer (threePartitions 0 13 500 500 500)).1.
Definition busyHeap : heap := (testServer (threePartitions 0 13 500 500 500)).2.

Definition burstServer : server.ExternalScalerServer := (testServer shortBurst).1.
Definition burstHeap : heap := (testServer shortBurst).2.

(** Two later calls of [Add] on the one-sample window. *)
Definition laterCalls : list (time.Time * list LagSample) :=
  [(clock + 5 * time.Second, [sampleAt (clock + 5 * time.Second) 7]);
   (clock + 20 * time.Second, [sampleAt (clock + 20 * time.Second) 9])].

(** A scraper on topic [orders], and three fetches ten seconds apart; at the
    second the broker answers with an error for a partition. *)
Definition ordersScraper : scraper.MetricsScraper :=
  scraper.New ordersFetcher tenSeconds.

Definition firstCall : scraper.FetchCall :=
  scraper.mkFetchCall ordersBroker clock (clock + 1).



(** The process [main] wires from [zeroIntervalEnv] on the brokers of
    [ordersBroker]. *)
Definition zeroIntervalProcess : main.Process :=
  let cfg :=
    config.mkScalerConfig "localhost:9092" "orders" "workers"
      500 (120 * time.Second) 0 30 in
  let fetcher :=
    kafka.NewLagFetcher
      (kafka.mkClient (kafka.TCP "localhost:9092") (kafka.Metadata ordersBroker)
         (kafka.ListOffsets ordersBroker) (kafka.OffsetFetch ordersBroker))
      "orders" "workers" in
  let window := NewSlidingWindow 30 0 in
  main.mkProcess cfg fetcher window (scraper.New fetcher 0)
    (server.mkServer window cfg) "50051".


(** * Proofs *)

(** ** int64 arithmetic *)

Lemma Int64_wrap_in_range z : Int64.in_range z → Int64.wrap z = z.
Proof.
  unfold Int64.in_range, Int64.wrap, Int64.min, Int64.max. intros Hz.
  rewrite Z.mod_small; lia.
Qed.

Lemma Int64_wrap_add_l a b : Int64.wrap (Int64.wrap a + b) = Int64.wrap (a + b).
Proof.
  unfold Int64.wrap.
  replace ((a + 2 ^ 63) mod 2 ^ 64 - 2 ^ 63 + b + 2 ^ 63)
    with ((a + 2 ^ 63) mod 2 ^ 64 + b) by lia.
  rewrite Zplus_mod_idemp_l. f_equal. f_equal. lia.
Qed.

Lemma Int64_clamp_ge d x :
  d ≤ Int64.max → 0 ≤ x → (d ≤ Int64.clamp x ↔ d ≤ x).
Proof. unfold Int64.clamp, Int64.max, Int64.min. lia. Qed.

(** ** Sums *)

Lemma Zsum_perm l1 l2 : l1 ≡ₚ l2 → Zsum l1 = Zsum l2.
Proof. unfold Zsum. induction 1; simpl; lia. Qed.

Lemma sumLatest_from (order : list LagSample) (acc : Z) :
  fold_left (λ total s, Int64.add total (Lag s)) order (Int64.wrap acc)
  = Int64.wrap (acc + Zsum (Lag <$> order)).
Proof.
  revert acc. induction order as [|s order IH]; intros acc; simpl.
  - f_equal. unfold Zsum. simpl. lia.
  - unfold Int64.add at 2. rewrite Int64_wrap_add_l, IH. f_equal.
    rewrite <- Z.add_assoc. reflexivity.
Qed.

Lemma sumLatest_wrap (order : list LagSample) :
  sumLatest order = Int64.wrap (Zsum (Lag <$> order)).
Proof.
  unfold sumLatest. change 0 with (Int64.wrap 0) at 1.
  rewrite sumLatest_from. f_equal.
Qed.

Lemma sumLatest_perm (l1 l2 : list LagSample) :
  l1 ≡ₚ l2 → sumLatest l1 = sumLatest l2.
Proof.
  intros Hp. rewrite !sumLatest_wrap. f_equal. apply Zsum_perm.
  by apply fmap_Permutation.
Qed.

(** ** Insertion sort meets the contract of sort.Slice *)

Lemma insertByTimestamp_perm s l : insertByTimestamp s l ≡ₚ s :: l.
Proof.
  induction l as [|x l IH]; simpl; [done|].
  destruct (time.Before (Timestamp s) (Timestamp x)); [done|].
  rewrite IH. apply Permutation_swap.
Qed.

Lemma insertByTimestamp_sorted s l :
  StronglySorted TimestampLe l → StronglySorted TimestampLe (insertByTimestamp s l).
Proof.
  induction 1 as [|x l Hl IH Hx]; simpl.
  - repeat constructor.
  - unfold time.Before. destruct (Z.ltb_spec (Timestamp s) (Timestamp x)) as [Hlt|Hge].
    + constructor; [by constructor|].
      constructor; [unfold TimestampLe; lia|].
      eapply Forall_impl; [exact Hx|]. unfold TimestampLe. intros; simpl in *; lia.
    + constructor; [exact IH|].
      rewrite insertByTimestamp_perm. constructor; [exact Hge|exact Hx].
Qed.

Lemma insertionSort_from_perm l acc :
  fold_left (λ acc s, insertByTimestamp s acc) l acc ≡ₚ acc ++ l.
Proof.
  revert acc. induction l as [|s l IH]; intros acc; simpl.
  - by rewrite app_nil_r.
  - rewrite IH, insertByTimestamp_perm. simpl. apply Permutation_middle.
Qed.

Lemma insertionSort_from_sorted l acc :
  StronglySorted TimestampLe acc →
  StronglySorted TimestampLe (fold_left (λ acc s, insertByTimestamp s acc) l acc).
Proof.
  revert acc. induction l as [|s l IH]; intros acc Hacc; simpl; [done|].
  apply IH. by apply insertByTimestamp_sorted.
Qed.

#[global] Program Instance insertionSorter : SliceSorter :=
  {| sortSlice := insertionSort |}.
Next Obligation. intros l. unfold insertionSort. by rewrite insertionSort_from_perm. Qed.
Next Obligation. intros l. apply insertionSort_from_sorted. constructor. Qed.

(** ** The walk of hasPersistentLag *)

Lemma last_cons_cons (m first : LagSample) more :
  List.last (m :: more) first = List.last more m.
Proof.
  revert m first. induction more as [|x more IH]; intros m first; [done|].
  change (List.last (m :: x :: more) first) with (List.last (x :: more) first).
  rewrite IH. symmetry. apply IH.
Qed.

Lemma openRun_cons start s l t d :
  openRun start (s :: l) t d ↔ t ≤ Lag s ∧ (d ≤ Timestamp s - start ∨ openRun start l t d).
Proof.
  split.
  - intros (first & more & after & Heq & Hall & Hspan).
    simpl in Heq. injection Heq as -> ->.
    apply Forall_cons in Hall as [Hs Hmore]. split; [exact Hs|].
    destruct more as [|m more]; [by left|].
    right. rewrite last_cons_cons in Hspan. by exists m, more, after.
  - intros [Hs [Hspan | (first & more & after & -> & Hall & Hspan)]].
    + exists s, [], l. repeat split; [by constructor|exact Hspan].
    + exists s, (first :: more), after. rewrite last_cons_cons.
      repeat split; [by constructor|exact Hspan].
Qed.

Lemma persistentRun_cons s l t d :
  persistentRun (s :: l) t d ↔ openRun (Timestamp s) (s :: l) t d ∨ persistentRun l t d.
Proof.
  split.
  - intros (before & first & more & after & Heq & Hall & Hspan).
    destruct before as [|b before]; simpl in Heq.
    + left. injection Heq as -> ->. by exists first, more, after.
    + right. injection Heq as _ ->. by exists before, first, more, after.
  - intros [(first & more & after & Heq & Hall & Hspan)
           | (before & first & more & after & -> & Hall & Hspan)].
    + simpl in Heq. injection Heq as -> ->.
      by exists [], first, more, after.
    + by exists (s :: before), first, more, after.
Qed.

Lemma persistentRun_nil t d : ¬ persistentRun [] t d.
Proof. intros (before & first & more & after & Heq & _). by destruct before. Qed.

Lemma openRun_nil start t d : ¬ openRun start [] t d.
Proof. by intros (first & more & after & Heq & _). Qed.

Lemma openRun_earlier start start' l t d :
  start ≤ start' → openRun start' l t d → openRun start l t d.
Proof.
  intros Hle (first & more & after & Heq & Hall & Hspan).
  exists first, more, after. repeat split; [done..|lia].
Qed.

Lemma hasPersistentLag_loop_spec l t d start inStretch :
  d ≤ Int64.max →
  StronglySorted TimestampLe l →
  (inStretch = true → Forall (λ s, start ≤ Timestamp s) l) →
  hasPersistentLag_loop l t d start inStretch = true
  ↔ (inStretch = true ∧ openRun start l t d) ∨ persistentRun l t d.
Proof.
  intros Hd. revert start inStretch.
  induction l as [|s rest IH]; intros start inStretch Hsorted Hstart; simpl.
  - split; [done|]. intros [[_ Ho] | Hp].
    + by apply openRun_nil in Ho.
    + by apply persistentRun_nil in Hp.
  - apply StronglySorted_inv in Hsorted as [Hrest Hs].
    rewrite persistentRun_cons, !openRun_cons.
    destruct (Z.leb_spec t (Lag s)) as [Hlag|Hlag].
    + set (start' := if inStretch then _ else _).
      assert (Hle : start' ≤ Timestamp s).
      { subst start'. destruct inStretch; [|lia].
        specialize (Hstart eq_refl). by apply Forall_cons in Hstart as [? _]. }
      assert (Hrest' : Forall (λ x, start' ≤ Timestamp x) rest).
      { eapply Forall_impl; [exact Hs|]. unfold TimestampLe. intros; simpl in *; lia. }
      unfold time.Sub.
      destruct (Z.leb_spec d (Int64.clamp (Timestamp s - start'))) as [Hspan|Hspan];
        cbv beta iota.
      * apply (Int64_clamp_ge d (Timestamp s - start') Hd) in Hspan; [|lia].
        split; [intros _|done]. subst start'. destruct inStretch.
        -- left. auto.
        -- right. left. auto.
      * assert (Hshort : Timestamp s - start' < d).
        { destruct (Z.le_gt_cases d (Timestamp s - start')) as [Hc|Hc]; [|lia].
          apply (Int64_clamp_ge d (Timestamp s - start') Hd) in Hc; lia. }
        rewrite (IH start' true Hrest (λ _, Hrest')).
        subst start'. destruct inStretch.
        -- split.
           ++ intros [[_ Ho] | Hp]; [left|right; right]; auto.
           ++ intros [[_ [_ [Hc | Ho]]] | [[_ [Hc | Ho]] | Hp]]; try lia; auto.
              left. split; [done|]. by apply (openRun_earlier _ (Timestamp s)).
        -- split.
           ++ intros [[_ Ho] | Hp]; right; [left|right]; auto.
           ++ intros [[Hc _] | [[_ [Hc | Ho]] | Hp]]; try done; try lia; auto.
    + rewrite (IH start false Hrest); [|done].
      split.
      * intros [[Hc _] | Hp]; [done|auto].
      * intros [[_ [Hc _]] | [[Hc _] | Hp]]; try lia. auto.
Qed.

Lemma hasPersistentLag_spec l t d :
  d ≤ Int64.max →
  StronglySorted TimestampLe l →
  hasPersistentLag l t d = true ↔ persistentRun l t d.
Proof.
  intros Hd Hsorted. unfold hasPersistentLag. destruct l as [|s rest].
  - split; [done|]. intros Hp. by apply persistentRun_nil in Hp.
  - rewrite hasPersistentLag_loop_spec by done.
    split; [intros [[Hc _] | Hp]; done | auto].
Qed.

(** ** The grouping loop *)

Lemma groupSamples_snoc l s :
  groupSamples (l ++ [s]) = groupStep (groupSamples l) s.
Proof. unfold groupSamples. by rewrite fold_left_app. Qed.

Lemma samplesOf_snoc p l s :
  samplesOf p (l ++ [s]) = samplesOf p l ++ (if decide (Partition s = p) then [s] else []).
Proof.
  unfold samplesOf. rewrite filter_app. f_equal.
Qed.

Lemma byPartition_lookup samples p :
  (groupSamples samples).1 !! p
  = match samplesOf p samples with [] => None | g => Some g end.
Proof.
  induction samples as [|s l IH] using rev_ind; [done|].
  rewrite groupSamples_snoc, samplesOf_snoc. unfold groupStep; simpl.
  destruct (decide (Partition s = p)) as [->|Hne].
  - rewrite lookup_insert_eq, IH.
    destruct (samplesOf p l) as [|x g]; [done|].
    simpl. by destruct (g ++ [s]).
  - rewrite lookup_insert_ne by done. by rewrite IH, app_nil_r.
Qed.

Lemma filter_ext_elem {A} (P Q : A → Prop) `{∀ x, Decision (P x)} `{∀ x, Decision (Q x)}
    (l : list A) :
  (∀ x, x ∈ l → (P x ↔ Q x)) → filter P l = filter Q l.
Proof.
  induction l as [|a l IH]; intros Hext; [done|].
  rewrite !filter_cons.
  assert (Ha : P a ↔ Q a) by (apply Hext; left).
  rewrite IH by (intros x Hx; apply Hext; by right).
  destruct (decide (P a)), (decide (Q a)); tauto.
Qed.

Lemma filter_none {A} (P : A → Prop) `{∀ x, Decision (P x)} (l : list A) :
  (∀ x, x ∈ l → ¬ P x) → filter P l = [].
Proof.
  intros Hnone. destruct (filter P l) as [|x k] eqn:Hf; [done|].
  assert (Hx : x ∈ filter P l) by (rewrite Hf; left).
  apply list_elem_of_filter in Hx as [HP Hx]. by apply Hnone in Hx.
Qed.

Lemma latestSample_firstMax p samples :
  latestSample p samples = firstMax (samplesOf p samples).
Proof. reflexivity. Qed.

Lemma firstMax_Some g e :
  firstMax g = Some e → e ∈ g ∧ Forall (λ x, Timestamp x ≤ Timestamp e) g.
Proof.
  unfold firstMax. intros He. apply head_Some_elem_of in He.
  apply list_elem_of_filter in He. tauto.
Qed.

Lemma exists_max g :
  g ≠ [] → ∃ e, e ∈ g ∧ Forall (λ x, Timestamp x ≤ Timestamp e) g.
Proof.
  induction g as [|a g IH]; [done|]. intros _.
  destruct g as [|b g].
  - exists a. split; [left|]. by repeat constructor.
  - destruct IH as (e & He & Hmax); [done|].
    destruct (Z.le_gt_cases (Timestamp a) (Timestamp e)) as [Hle|Hgt].
    + exists e. split; [by right|]. by constructor.
    + exists a. split; [left|]. constructor; [lia|].
      eapply Forall_impl; [exact Hmax|]. intros; simpl in *; lia.
Qed.

Lemma firstMax_None g : firstMax g = None → g = [].
Proof.
  intros Hnone. destruct (decide (g = [])) as [|Hne]; [done|].
  destruct (exists_max g Hne) as (e & He & Hmax).
  unfold firstMax in Hnone. apply head_None in Hnone.
  assert (Hin : e ∈ filter (λ s, Forall (λ x, Timestamp x ≤ Timestamp s) g) g)
    by (by apply list_elem_of_filter).
  rewrite Hnone in Hin. by apply not_elem_of_nil in Hin.
Qed.

Lemma firstMax_snoc g s :
  firstMax (g ++ [s])
  = match firstMax g with
    | Some e => if time.After (Timestamp s) (Timestamp e) then Some s else Some e
    | None => Some s
    end.
Proof.
  destruct (firstMax g) as [e|] eqn:Hg.
  - pose proof (firstMax_Some _ _ Hg) as [He Hmax].
    unfold firstMax. rewrite filter_app. unfold time.After.
    destruct (Z.ltb_spec (Timestamp e) (Timestamp s)) as [Hlt|Hge].
    + rewrite filter_none.
      * rewrite filter_cons_True; [done|].
        apply Forall_app. split; [|by repeat constructor].
        eapply Forall_impl; [exact Hmax|]. intros; simpl in *; lia.
      * intros x Hx Hall. apply Forall_app in Hall as [_ Hs].
        apply Forall_cons in Hs as [Hs _].
        rewrite Forall_forall in Hmax. specialize (Hmax x Hx). simpl in *. lia.
    + rewrite (filter_ext_elem _ (λ s0, Forall (λ x, Timestamp x ≤ Timestamp s0) g)).
      * unfold firstMax in Hg.
        destruct (filter _ g) as [|y k]; [done|]. exact Hg.
      * intros x Hx. rewrite Forall_app. split; [tauto|].
        intros Hall. split; [done|]. repeat constructor.
        rewrite Forall_forall in Hall. specialize (Hall e He). simpl in *. lia.
  - apply firstMax_None in Hg. subst g. unfold firstMax. simpl.
    rewrite filter_cons_True; [done|]. by repeat constructor.
Qed.

Lemma latestByPartition_lookup samples p :
  (groupSamples samples).2 !! p = latestSample p samples.
Proof.
  induction samples as [|s l IH] using rev_ind; [done|].
  rewrite groupSamples_snoc, !latestSample_firstMax, samplesOf_snoc.
  rewrite latestSample_firstMax in IH.
  unfold groupStep; simpl.
  destruct (decide (Partition s = p)) as [<-|Hne].
  - rewrite firstMax_snoc, <- IH.
    destruct ((groupSamples l).2 !! Partition s) as [e|] eqn:He;
      [|by rewrite lookup_insert_eq].
    destruct (time.After (Timestamp s) (Timestamp e)); [by rewrite lookup_insert_eq|done].
  - rewrite app_nil_r, <- IH.
    destruct ((groupSamples l).2 !! Partition s) as [e|];
      [|by rewrite lookup_insert_ne].
    destruct (time.After (Timestamp s) (Timestamp e)); [by rewrite lookup_insert_ne|done].
Qed.

Lemma head_filter_Some {A} (P : A → Prop) `{∀ x, Decision (P x)} (l : list A) (s : A) :
  head (filter P l) = Some s
  ↔ ∃ pre post, l = pre ++ s :: post ∧ Forall (λ x, ¬ P x) pre ∧ P s.
Proof.
  induction l as [|a l IH].
  - split; [done|]. intros (pre & post & Heq & _). by destruct pre.
  - rewrite filter_cons. destruct (decide (P a)) as [Ha|Ha].
    + simpl. split.
      * intros [= ->]. by exists [], l.
      * intros (pre & post & Heq & Hpre & Hs). destruct pre as [|b pre].
        -- by injection Heq as -> _.
        -- injection Heq as -> _. by apply Forall_cons in Hpre as [? _].
    + rewrite IH. split.
      * intros (pre & post & -> & Hpre & Hs). exists (a :: pre), post.
        split; [done|]. split; [by constructor|done].
      * intros (pre & post & Heq & Hpre & Hs). destruct pre as [|b pre].
        -- by injection Heq as -> _.
        -- injection Heq as -> ->. apply Forall_cons in Hpre as [_ Hpre].
           by exists pre, post.
Qed.

(** The tracked latest sample is the first one, in input order, with the
    largest timestamp. *)
Lemma firstMax_split g s :
  firstMax g = Some s
  ↔ ∃ pre post, g = pre ++ s :: post
      ∧ Forall (λ x, Timestamp x < Timestamp s) pre
      ∧ Forall (λ x, Timestamp x ≤ Timestamp s) post.
Proof.
  unfold firstMax. rewrite head_filter_Some. split.
  - intros (pre & post & Heq & Hpre & Hs). exists pre, post. split; [done|].
    assert (Hs' := Hs). rewrite Heq in Hs'.
    apply Forall_app in Hs' as [Hle_pre Hle_post].
    apply Forall_cons in Hle_post as [_ Hle_post]. split; [|done].
    rewrite Forall_forall in Hpre, Hle_pre. apply Forall_forall. intros x Hx.
    specialize (Hle_pre x Hx). simpl in Hle_pre.
    destruct (Z.lt_ge_cases (Timestamp x) (Timestamp s)) as [|Hge]; [done|].
    exfalso. apply (Hpre x Hx).
    eapply Forall_impl; [exact Hs|]. intros; simpl in *; lia.
  - intros (pre & post & Heq & Hpre & Hpost). exists pre, post. split; [done|].
    assert (Hs : Forall (λ x, Timestamp x ≤ Timestamp s) g).
    { rewrite Heq. apply Forall_app. split.
      - eapply Forall_impl; [exact Hpre|]. intros; simpl in *; lia.
      - constructor; [lia|done]. }
    split; [|done].
    rewrite Forall_forall in Hpre. apply Forall_forall. intros x Hx Hmax.
    specialize (Hpre x Hx). simpl in Hpre.
    rewrite Forall_forall in Hmax.
    assert (Hin : s ∈ g) by (rewrite Heq; set_solver).
    specialize (Hmax s Hin). simpl in Hmax. lia.
Qed.

Lemma samplesOf_nonempty p samples :
  samplesOf p samples ≠ [] ↔ p ∈ partitionsOf samples.
Proof.
  unfold partitionsOf, samplesOf.
  rewrite elem_of_remove_dups, list_elem_of_fmap. split.
  - intros Hne. destruct (filter _ samples) as [|s g] eqn:Hf; [done|].
    assert (Hs : s ∈ filter (λ s, Partition s = p) samples) by (rewrite Hf; left).
    apply list_elem_of_filter in Hs as [Hp Hs]. by exists s.
  - intros (s & -> & Hs) Hnil.
    assert (Hin : s ∈ filter (λ x, Partition x = Partition s) samples)
      by (by apply list_elem_of_filter).
    rewrite Hnil in Hin. by apply not_elem_of_nil in Hin.
Qed.

Lemma latestSample_is_Some p samples :
  is_Some (latestSample p samples) ↔ p ∈ partitionsOf samples.
Proof.
  rewrite <- samplesOf_nonempty, latestSample_firstMax. split.
  - intros [s Hs] Hnil. rewrite Hnil in Hs. done.
  - intros Hne. destruct (firstMax (samplesOf p samples)) eqn:Hf; [done|].
    by apply firstMax_None in Hf.
Qed.

(** The entries of [latestByPartition], up to order. *)
Lemma latestByPartition_entries samples :
  map_to_list (groupSamples samples).2
  ≡ₚ (λ p, (p, default zeroLagSample (latestSample p samples))) <$> partitionsOf samples.
Proof.
  apply NoDup_Permutation.
  - apply NoDup_map_to_list.
  - apply (NoDup_fmap_1 fst). rewrite <- list_fmap_compose.
    rewrite (list_fmap_ext _ id (partitionsOf samples)), list_fmap_id; [|done].
    apply NoDup_remove_dups.
  - intros [p s]. rewrite elem_of_map_to_list, latestByPartition_lookup.
    rewrite list_elem_of_fmap. split.
    + intros Hs. exists p. rewrite Hs. split; [done|].
      apply latestSample_is_Some. by exists s.
    + intros (q & [= -> ->] & Hq). apply latestSample_is_Some in Hq as [s Hs].
      by rewrite Hs.
Qed.

Lemma latestByPartition_lags samples :
  Lag <$> (map_to_list (groupSamples samples).2).*2
  ≡ₚ (λ p, from_option Lag 0 (latestSample p samples)) <$> partitionsOf samples.
Proof.
  rewrite latestByPartition_entries, <- !list_fmap_compose.
  erewrite list_fmap_ext; [reflexivity|].
  intros _ p _. simpl. by destruct (latestSample p samples).
Qed.

(** The groups of [byPartition], up to order. *)
Lemma byPartition_groups samples g :
  g ∈ (map_to_list (groupSamples samples).1).*2
  ↔ ∃ p, g = samplesOf p samples ∧ g ≠ [].
Proof.
  rewrite list_elem_of_fmap. split.
  - intros ([p g'] & -> & Hin). apply elem_of_map_to_list in Hin.
    rewrite byPartition_lookup in Hin. exists p. simpl.
    destruct (samplesOf p samples); [done|]. by injection Hin as <-.
  - intros (p & -> & Hne). exists (p, samplesOf p samples). split; [done|].
    apply elem_of_map_to_list. rewrite byPartition_lookup.
    by destruct (samplesOf p samples).
Qed.

(** ** EvaluatePersistence *)

Section EvaluatorProofs.
Context `{SliceSorter}.

Lemma sortSlice_nil : sortSlice [] = [].
Proof. apply Permutation_nil_r. apply sortSlice_perm. Qed.

Lemma checkPartitions_true order t d :
  checkPartitions order t d = true
  ↔ ∃ g, g ∈ order ∧ hasPersistentLag (sortSlice g) t d = true.
Proof.
  induction order as [|g order IH]; simpl.
  - split; [done|]. intros (g & Hg & _). by apply not_elem_of_nil in Hg.
  - destruct (hasPersistentLag (sortSlice g) t d) eqn:Hg.
    + split; [|done]. intros _. exists g. split; [left|done].
    + rewrite IH. split.
      * intros (g' & Hin & Hg'). exists g'. split; [by right|done].
      * intros (g' & Hin & Hg'). apply elem_of_cons in Hin as [->|Hin].
        -- congruence.
        -- by exists g'.
Qed.

Lemma checkPartitions_perm l1 l2 t d :
  l1 ≡ₚ l2 → checkPartitions l1 t d = checkPartitions l2 t d.
Proof.
  intros Hp.
  destruct (checkPartitions l1 t d) eqn:H1, (checkPartitions l2 t d) eqn:H2;
    try done.
  - apply checkPartitions_true in H1 as (g & Hg & Hpers).
    rewrite Hp in Hg.
    assert (checkPartitions l2 t d = true) by (apply checkPartitions_true; eauto).
    congruence.
  - apply checkPartitions_true in H2 as (g & Hg & Hpers).
    rewrite <- Hp in Hg.
    assert (checkPartitions l1 t d = true) by (apply checkPartitions_true; eauto).
    congruence.
Qed.

(** The function is one of the runs... *)
Lemma EvaluatePersistence_is_run samples t d :
  EvaluatePersistence_run samples t d (EvaluatePersistence samples t d).
Proof.
  destruct samples as [|s samples]; [by constructor|].
  by apply run_loops.
Qed.

(** ... and every run returns what the function returns. *)
Lemma EvaluatePersistence_run_unique samples t d res :
  EvaluatePersistence_run samples t d res → res = EvaluatePersistence samples t d.
Proof.
  intros [-> | latestOrder groupOrder Hne Hlatest Hgroup]; [done|].
  destruct samples as [|s samples]; [done|].
  unfold EvaluatePersistence. f_equal.
  - by apply checkPartitions_perm.
  - by apply sumLatest_perm.
Qed.

Lemma EvaluatePersistence_persistent samples t d :
  d ≤ Int64.max →
  Persistent (EvaluatePersistence samples t d) = true
  ↔ ∃ p, persistentRun (sortSlice (samplesOf p samples)) t d.
Proof.
  intros Hd. destruct samples as [|s samples].
  - simpl. split; [done|]. intros [p Hrun].
    unfold samplesOf in Hrun. rewrite filter_nil, sortSlice_nil in Hrun.
    by apply persistentRun_nil in Hrun.
  - unfold EvaluatePersistence, Persistent.
    rewrite checkPartitions_true. split.
    + intros (g & Hg & Hpers). apply byPartition_groups in Hg as (p & -> & _).
      exists p. apply hasPersistentLag_spec; [done|apply sortSlice_sorted|done].
    + intros [p Hrun]. exists (samplesOf p (s :: samples)). split.
      * apply byPartition_groups. exists p. split; [done|].
        intros Hnil. rewrite Hnil, sortSlice_nil in Hrun.
        by apply persistentRun_nil in Hrun.
      * apply hasPersistentLag_spec; [done|apply sortSlice_sorted|done].
Qed.

Lemma EvaluatePersistence_total samples t d :
  TotalCurrentLag (EvaluatePersistence samples t d)
  = Int64.wrap (sumOfLatestLags samples).
Proof.
  destruct samples as [|s samples]; [done|].
  unfold EvaluatePersistence, TotalCurrentLag.
  rewrite sumLatest_wrap. f_equal. unfold sumOfLatestLags.
  apply Zsum_perm, latestByPartition_lags.
Qed.

(** C1: for every list of samples, threshold [t] and sustain duration [d]
    (a [time.Duration], so within the int64 range), every run of
    [EvaluatePersistence] returns [Persistent = true] exactly when some
    partition's samples, as [sort.Slice] leaves them sorted by timestamp,
    contain a consecutive run in which every sample has lag at least [t]
    and whose last timestamp minus its first is at least [d]: a span of
    exactly [d] counts, and a sample with lag below [t] cannot be inside
    the run.  The empty list gives [Persistent = false]. *)
Theorem EvaluatePersistence_persistent_iff_run samples t d res :
  Int64.in_range d →
  EvaluatePersistence_run samples t d res →
  (Persistent res = true
   ↔ ∃ p, persistentRun (sortSlice (samplesOf p samples)) t d)
  ∧ (samples = [] → Persistent res = false).
Proof.
  intros [_ Hd] Hrun. apply EvaluatePersistence_run_unique in Hrun as ->.
  split; [by apply EvaluatePersistence_persistent|].
  by intros ->.
Qed.

(** C2, as amended: the [TotalCurrentLag] of every run of
    [EvaluatePersistence] is the sum, over the distinct partition ids of the
    input, of the lag of the partition's largest-timestamp sample, reduced
    to an int64 by two's-complement wrap-around; it is that sum itself
    whenever the sum lies within the int64 range, and 0 for the empty
    list.  The sample summed for a partition is a sample of the input, of
    that partition, that none of the partition is later than. *)
Theorem EvaluatePersistence_total_wraps samples t d res :
  EvaluatePersistence_run samples t d res →
  TotalCurrentLag res = Int64.wrap (sumOfLatestLags samples)
  ∧ (Int64.in_range (sumOfLatestLags samples) →
     TotalCurrentLag res = sumOfLatestLags samples)
  ∧ (samples = [] → TotalCurrentLag res = 0)
  ∧ (∀ p s, latestSample p samples = Some s →
       s ∈ samples ∧ Partition s = p
       ∧ ∀ x, x ∈ samples → Partition x = p → Timestamp x ≤ Timestamp s).
Proof.
  intros Hrun. apply EvaluatePersistence_run_unique in Hrun as ->.
  rewrite EvaluatePersistence_total. split; [done|]. split; [|split].
  - apply Int64_wrap_in_range.
  - by intros ->.
  - intros p s Hs. rewrite latestSample_firstMax in Hs.
    apply firstMax_Some in Hs as [Hin Hmax]. unfold samplesOf in *.
    apply list_elem_of_filter in Hin as [Hp Hin]. split; [done|]. split; [done|].
    intros x Hx Hxp. rewrite Forall_forall in Hmax. apply Hmax.
    by apply list_elem_of_filter.
Qed.

(** C9: in the grouping loop the tracked latest sample of a partition is
    replaced only by a sample with a strictly later timestamp, and the
    other partitions are left alone; so after the loop the tracked sample
    of a partition is the first one, in input order, among those with the
    largest timestamp, and it is its lag that enters [TotalCurrentLag]; and
    any two runs of [EvaluatePersistence] on the same input, whatever order
    the maps are walked in, return the same result. *)
Theorem latest_replaced_only_by_later samples t d :
  (∀ acc s existing,
     acc.2 !! Partition s = Some existing →
     (groupStep acc s).2 !! Partition s
     = Some (if Timestamp existing <? Timestamp s then s else existing))
  ∧ (∀ acc s p, p ≠ Partition s → (groupStep acc s).2 !! p = acc.2 !! p)
  ∧ (∀ p s,
       (groupSamples samples).2 !! p = Some s
       ↔ ∃ pre post, samplesOf p samples = pre ++ s :: post
           ∧ Forall (λ x, Timestamp x < Timestamp s) pre
           ∧ Forall (λ x, Timestamp x ≤ Timestamp s) post)
  ∧ (∀ res, EvaluatePersistence_run samples t d res →
       TotalCurrentLag res
       = Int64.wrap (Zsum ((λ p, from_option Lag 0 ((groupSamples samples).2 !! p))
                             <$> partitionsOf samples)))
  ∧ (∀ res1 res2,
       EvaluatePersistence_run samples t d res1 →
       EvaluatePersistence_run samples t d res2 →
       res1 = res2).
Proof.
  split; [|split; [|split; [|split]]].
  - intros acc s existing Hex. unfold groupStep; simpl. rewrite Hex.
    unfold time.After. destruct (Timestamp existing <? Timestamp s).
    + by rewrite lookup_insert_eq.
    + done.
  - intros acc s p Hne. unfold groupStep; simpl.
    destruct (acc.2 !! Partition s) as [e|]; [|by rewrite lookup_insert_ne].
    destruct (time.After (Timestamp s) (Timestamp e)); [|done].
    by rewrite lookup_insert_ne.
  - intros p s. rewrite latestByPartition_lookup, latestSample_firstMax.
    apply firstMax_split.
  - intros res Hrun. apply EvaluatePersistence_run_unique in Hrun as ->.
    rewrite EvaluatePersistence_total. unfold sumOfLatestLags. do 2 f_equal.
    apply list_fmap_ext. intros _ p _. by rewrite latestByPartition_lookup.
  - intros res1 res2 H1 H2.
    apply EvaluatePersistence_run_unique in H1, H2. congruence.
Qed.

End EvaluatorProofs.

(** ** Slices *)

Lemma backing_alter f (s : slice) (h : heap) :
  backing (alter f (s_array s) h) s = from_option f [] (h !! s_array s).
Proof.
  unfold backing. rewrite list_lookup_alter_eq. by destruct (h !! s_array s).
Qed.

Lemma backing_fresh (h : heap) (a : list LagSample) off len cap :
  backing (h ++ [a]) (mkSlice (length h) off len cap) = a.
Proof.
  unfold backing. simpl. rewrite lookup_app_r by lia. by rewrite Nat.sub_diag.
Qed.

Lemma slice_decompose h s :
  slice_wf h s →
  ∃ A R, backing h s = A ++ slice_elems h s ++ R
         ∧ length A = s_off s
         ∧ length (slice_elems h s) = s_len s
         ∧ (s_cap s - s_len s ≤ length R)%nat.
Proof.
  intros [Hlen Hcap]. unfold slice_elems.
  exists (take (s_off s) (backing h s)), (drop (s_len s) (drop (s_off s) (backing h s))).
  rewrite (take_drop (s_len s)), take_drop.
  split; [done|]. rewrite !length_take, !length_drop. lia.
Qed.

Lemma slice_elems_compose h (s : slice) (A E R : list LagSample) :
  backing h s = A ++ E ++ R → length A = s_off s → length E = s_len s →
  slice_elems h s = E.
Proof.
  intros Hb HA HE. unfold slice_elems. rewrite Hb.
  rewrite drop_app_length' by done. by rewrite take_app_length'.
Qed.

Lemma slice_elems_length h s :
  slice_wf h s → length (slice_elems h s) = s_len s.
Proof. intros Hwf. by destruct (slice_decompose h s Hwf) as (A & R & _ & _ & HE & _). Qed.

Lemma slice_frame h h' s :
  slice_wf h s → heap_frame h h' →
  slice_elems h' s = slice_elems h s ∧ slice_wf h' s.
Proof.
  intros Hwf Hframe.
  destruct (decide (s_array s < length h)%nat) as [Halloc|Hfree].
  - assert (Hb : backing h' s = backing h s).
    { unfold backing. by rewrite Hframe. }
    unfold slice_elems, slice_wf. by rewrite Hb.
  - destruct Hwf as [Hlen Hcap].
    assert (Hb : backing h s = []).
    { unfold backing. rewrite (lookup_ge_None_2 h) by lia. done. }
    rewrite Hb in Hcap. simpl in Hcap.
    assert (Hl : s_len s = 0%nat) by lia.
    unfold slice_elems, slice_wf. rewrite Hl. split; [done|]. lia.
Qed.

Section AppendProofs.
Variable growslack : nat → nat → nat.

Lemma append_spec s vals h s' h' :
  slice_wf h s →
  append growslack s vals h = (s', h') →
  slice_elems h' s' = slice_elems h s ++ vals
  ∧ slice_wf h' s'
  ∧ (length h ≤ length h')%nat.
Proof.
  intros Hwf. pose proof (slice_decompose h s Hwf) as (A & R & Hb & HA & HE & HR).
  unfold append.
  destruct (decide (s_len s + length vals ≤ s_cap s)%nat) as [Hfit|Hgrow];
    intros [= <- <-].
  - assert (Hb' : backing (alter (λ arr, array_write arr (s_off s + s_len s) vals)
                             (s_array s) h) s
                  = A ++ (slice_elems h s ++ vals) ++ drop (length vals) R).
    { rewrite backing_alter. fold (backing h s) in Hb. unfold backing in Hb.
      destruct (h !! s_array s) as [a|] eqn:Ha; simpl in *.
      - unfold array_write. rewrite Hb.
        rewrite (app_assoc A), take_app_length' by (rewrite length_app; lia).
        rewrite drop_app_add' by (rewrite length_app; lia).
        by rewrite <- !app_assoc.
      - symmetry in Hb. apply app_eq_nil in Hb as [-> Hb].
        apply app_eq_nil in Hb as [Hb ->]. rewrite Hb.
        rewrite Hb in HE. simpl in *.
        assert (length vals = 0%nat) as Hv by lia.
        apply nil_length_inv in Hv. by subst vals. }
    split; [|split].
    + eapply slice_elems_compose; [exact Hb'|done|].
      simpl. rewrite length_app. lia.
    + unfold slice_wf. simpl.
      change (backing _ {| s_array := s_array s; s_off := s_off s;
                           s_len := s_len s + length vals; s_cap := s_cap s |})
        with (backing (alter (λ arr, array_write arr (s_off s + s_len s) vals)
                         (s_array s) h) s).
      rewrite Hb', !length_app, length_drop. lia.
    + by rewrite length_alter.
  - set (n := (s_len s + length vals)%nat) in *.
    set (s' := mkSlice (length h) 0 n (n + growslack (s_cap s) n)).
    set (a := slice_elems h s ++ vals
              ++ replicate (n + growslack (s_cap s) n - n) zeroLagSample).
    assert (Hb' : backing (h ++ [a]) s' = a) by apply backing_fresh.
    split; [|split].
    + apply (slice_elems_compose _ _ [] _
               (replicate (n + growslack (s_cap s) n - n) zeroLagSample)).
      * rewrite Hb'. subst a. by rewrite <- app_assoc.
      * done.
      * rewrite length_app. simpl. lia.
    + unfold slice_wf. rewrite Hb'. subst a. simpl.
      rewrite !length_app, length_replicate. lia.
    + rewrite length_app. lia.
Qed.
End AppendProofs.

(** ** The sliding window *)

Lemma evict_scan_shift cutoff l i :
  evict_scan cutoff l i = (i + evict_scan cutoff l 0)%nat.
Proof.
  revert i. induction l as [|s l IH]; intros i; simpl; [lia|].
  destruct (time.Before (Timestamp s) cutoff); [|lia].
  rewrite (IH (S i)), (IH 1%nat). lia.
Qed.

Lemma evict_scan_le cutoff l : (evict_scan cutoff l 0 ≤ length l)%nat.
Proof.
  induction l as [|s l IH]; simpl; [lia|].
  destruct (time.Before (Timestamp s) cutoff); [|lia].
  rewrite evict_scan_shift. lia.
Qed.

Lemma retained_cons cutoff s l :
  retained cutoff (s :: l)
  = if time.Before (Timestamp s) cutoff then retained cutoff l else s :: l.
Proof.
  unfold retained. simpl. destruct (time.Before (Timestamp s) cutoff); [|done].
  by rewrite evict_scan_shift.
Qed.

(** The evicted samples are a prefix, each strictly before the cutoff. *)
Lemma retained_split cutoff l :
  ∃ evicted, l = evicted ++ retained cutoff l
             ∧ Forall (λ s, Timestamp s < cutoff) evicted.
Proof.
  induction l as [|s l (evicted & Heq & Hold)].
  - by exists [].
  - rewrite retained_cons. unfold time.Before.
    destruct (Z.ltb_spec (Timestamp s) cutoff) as [Hlt|Hge].
    + exists (s :: evicted). split; [by rewrite Heq at 1|by constructor].
    + by exists [].
Qed.

(** The first retained sample is not before the cutoff. *)
Lemma retained_head cutoff l s rest :
  retained cutoff l = s :: rest → cutoff ≤ Timestamp s.
Proof.
  induction l as [|x l IH]; [done|].
  rewrite retained_cons. unfold time.Before.
  destruct (Z.ltb_spec (Timestamp x) cutoff) as [Hlt|Hge]; [done|].
  by intros [= -> _].
Qed.

Lemma retained_sorted cutoff l :
  StronglySorted TimestampLe l →
  Forall (λ s, cutoff ≤ Timestamp s) (retained cutoff l).
Proof.
  induction 1 as [|x l Hl IH Hx]; [by constructor|].
  rewrite retained_cons. unfold time.Before.
  destruct (Z.ltb_spec (Timestamp x) cutoff) as [Hlt|Hge]; [done|].
  constructor; [done|].
  eapply Forall_impl; [exact Hx|]. unfold TimestampLe. intros; simpl in *; lia.
Qed.

Lemma slice_from_spec h s i :
  slice_wf h s → (i ≤ s_len s)%nat →
  slice_elems h (slice_from s i) = drop i (slice_elems h s)
  ∧ slice_wf h (slice_from s i).
Proof.
  intros Hwf Hi.
  pose proof (slice_decompose h s Hwf) as (A & R & Hb & HA & HE & HR).
  destruct Hwf as [Hlen Hcap].
  assert (Hb' : backing h (slice_from s i)
                = (A ++ take i (slice_elems h s)) ++ drop i (slice_elems h s) ++ R).
  { change (backing h (slice_from s i)) with (backing h s).
    rewrite Hb at 1. rewrite <- (take_drop i (slice_elems h s)) at 1.
    by rewrite <- !app_assoc. }
  split.
  - eapply slice_elems_compose; [exact Hb'|..]; simpl.
    + rewrite length_app, length_take. lia.
    + rewrite length_drop. lia.
  - unfold slice_wf. change (backing h (slice_from s i)) with (backing h s).
    simpl. lia.
Qed.

Lemma evict_spec now w h :
  slice_wf h (samples w) →
  slice_elems h (samples (evict now w h))
  = retained (time.Add now (Int64.wrap (- windowDuration w))) (slice_elems h (samples w))
  ∧ slice_wf h (samples (evict now w h))
  ∧ windowDuration (evict now w h) = windowDuration w.
Proof.
  intros Hwf. unfold evict, retained.
  set (cutoff := time.Add now (Int64.wrap (- windowDuration w))).
  set (i := evict_scan cutoff (slice_elems h (samples w)) 0).
  destruct (decide (0 < i)%nat) as [Hpos|Hzero]; simpl.
  - assert (Hi : (i ≤ s_len (samples w))%nat).
    { rewrite <- (slice_elems_length h) by done. apply evict_scan_le. }
    by destruct (slice_from_spec h (samples w) i Hwf Hi).
  - replace i with 0%nat by lia. by rewrite drop_0.
Qed.

Section WindowProofs.
Variable growslack : nat → nat → nat.

Lemma Add_spec now batch w h w' h' :
  slice_wf h (samples w) →
  Add growslack now batch w h = (w', h') →
  slice_elems h' (samples w')
  = retained (time.Add now (Int64.wrap (- windowDuration w)))
      (slice_elems h (samples w) ++ batch)
  ∧ slice_wf h' (samples w')
  ∧ windowDuration w' = windowDuration w.
Proof.
  intros Hwf. unfold Add.
  destruct (append growslack (samples w) batch h) as [appended h1] eqn:Happ.
  intros [= <- <-].
  destruct (append_spec growslack _ _ _ _ _ Hwf Happ) as (Helems & Hwf1 & _).
  pose proof (evict_spec now (mkSlidingWindow appended (windowDuration w)) h1 Hwf1)
    as (He & Hwf' & HW).
  simpl in *. by rewrite He, Helems.
Qed.

Lemma Adds_spec calls w0 h0 w h :
  slice_wf h0 (samples w0) →
  Adds growslack calls w0 h0 = (w, h) →
  slice_wf h (samples w) ∧ windowDuration w = windowDuration w0.
Proof.
  revert w0 h0. induction calls as [|[now batch] calls IH]; intros w0 h0 Hwf; simpl.
  - by intros [= <- <-].
  - destruct (Add growslack now batch w0 h0) as [w1 h1] eqn:Hadd.
    destruct (Add_spec _ _ _ _ _ _ Hwf Hadd) as (_ & Hwf1 & HW1).
    intros Hrest. destruct (IH _ _ Hwf1 Hrest) as [Hwf' HW']. split; [done|].
    congruence.
Qed.

(** C3, as amended: after any sequence of [Add] calls on a window of
    duration [W] (any duration but the least int64), an [Add] appends its
    batch and then drops the longest prefix of samples whose timestamp is
    strictly before [now - W], where [now] is read at the start of the
    eviction.  So when [Add] returns the first retained sample [s] satisfies
    [now - s.T ≤ W] (an age of exactly [W] is kept), and when the samples stand
    in the window in non-decreasing timestamp order every retained sample
    does. *)
Theorem Add_retains_window_prefix_eviction calls w0 h0 now batch w h w' h' :
  slice_wf h0 (samples w0) →
  Int64.min < windowDuration w0 ≤ Int64.max →
  Adds growslack calls w0 h0 = (w, h) →
  Add growslack now batch w h = (w', h') →
  (∃ evicted,
     slice_elems h (samples w) ++ batch = evicted ++ slice_elems h' (samples w')
     ∧ Forall (λ s, windowDuration w0 < now - Timestamp s) evicted)
  ∧ (∀ s rest, slice_elems h' (samples w') = s :: rest →
               now - Timestamp s ≤ windowDuration w0)
  ∧ (StronglySorted TimestampLe (slice_elems h (samples w) ++ batch) →
     Forall (λ s, now - Timestamp s ≤ windowDuration w0) (slice_elems h' (samples w')))
  ∧ windowDuration w' = windowDuration w0.
Proof.
  intros Hwf0 HW Hcalls Hadd.
  destruct (Adds_spec _ _ _ _ _ Hwf0 Hcalls) as [Hwf HWw].
  destruct (Add_spec _ _ _ _ _ _ Hwf Hadd) as (Helems & Hwf' & HW').
  rewrite HWw in *.
  assert (Hneg : Int64.wrap (- windowDuration w0) = - windowDuration w0).
  { apply Int64_wrap_in_range. unfold Int64.in_range, Int64.min, Int64.max in *. lia. }
  rewrite Helems. unfold time.Add. rewrite Hneg.
  split; [|split; [|split; [|done]]].
  - destruct (retained_split (now + - windowDuration w0)
                (slice_elems h (samples w) ++ batch)) as (evicted & Heq & Hold).
    exists evicted. split; [done|].
    eapply Forall_impl; [exact Hold|]. intros; simpl in *; lia.
  - intros s rest Hhead. apply retained_head in Hhead. lia.
  - intros Hsorted.
    eapply Forall_impl; [by apply retained_sorted|]. intros; simpl in *; lia.
Qed.
End WindowProofs.

(** ** Snapshot *)

Lemma heap_frame_alloc (h : heap) (a : list LagSample) : heap_frame h (h ++ [a]).
Proof. intros i Hi. by apply lookup_app_l. Qed.

Lemma Snapshot_spec w h snap h1 :
  slice_wf h (samples w) →
  Snapshot w h = (snap, h1) →
  slice_elems h1 snap = slice_elems h (samples w)
  ∧ snap = mkSlice (length h) 0 (Len w) (Len w)
  ∧ heap_frame h h1
  ∧ length h1 = S (length h).
Proof.
  intros Hwf. unfold Snapshot, make, copy, Len.
  set (n := s_len (samples w)).
  set (out := mkSlice (length h) 0 n n).
  set (h0 := h ++ [replicate n zeroLagSample]).
  intros [= <- <-].
  destruct (slice_frame h h0 (samples w) Hwf (heap_frame_alloc _ _)) as [Hsame _].
  rewrite Hsame.
  assert (Hvals : take (Nat.min n n) (slice_elems h (samples w))
                  = slice_elems h (samples w)).
  { apply take_ge. rewrite slice_elems_length by done. subst n. lia. }
  rewrite Hvals.
  split; [|split; [done|split]].
  - apply (slice_elems_compose _ _ [] _ []); [|done|by rewrite slice_elems_length].
    rewrite (backing_alter _ out h0). subst h0 out. simpl.
    rewrite lookup_app_r, Nat.sub_diag by lia. simpl.
    unfold array_write. rewrite take_0. simpl. f_equal.
    apply drop_ge. rewrite length_replicate, slice_elems_length by done. by subst n.
  - intros i Hi. subst out h0. simpl.
    rewrite list_lookup_alter_ne by lia. by apply lookup_app_l.
  - rewrite length_alter. subst h0. rewrite length_app. simpl. lia.
Qed.

Lemma slice_set_others s i v h h' :
  slice_set s i v h = Some h' →
  length h' = length h ∧ ∀ j, j ≠ s_array s → h' !! j = h !! j.
Proof.
  unfold slice_set. destruct (decide (i < s_len s)%nat); [|done].
  intros [= <-]. split; [apply length_alter|].
  intros j Hj. by apply list_lookup_alter_ne.
Qed.

Lemma slice_sets_others s writes h h' :
  slice_sets s writes h = Some h' →
  length h' = length h ∧ ∀ j, j ≠ s_array s → h' !! j = h !! j.
Proof.
  revert h. induction writes as [|[i v] writes IH]; intros h; simpl.
  - by intros [= <-].
  - destruct (slice_set s i v h) as [h0|] eqn:Hset; [|done].
    intros Hrest. apply slice_set_others in Hset as [Hlen Hsame].
    apply IH in Hrest as [Hlen' Hsame']. split; [congruence|].
    intros j Hj. rewrite Hsame' by done. by apply Hsame.
Qed.

(** C8: a snapshot shows the contents of the window and lives in an array
    of its own: [Snapshot] leaves the contents of the window as they were,
    and after any sequence of assignments to the elements of the returned
    slice the window still shows the same samples, a later [Snapshot] returns
    the same samples, and [Len] is the same. *)
Theorem Snapshot_is_independent_copy w h snap h1 writes h2 :
  slice_wf h (samples w) →
  Snapshot w h = (snap, h1) →
  slice_sets snap writes h1 = Some h2 →
  slice_elems h1 snap = slice_elems h (samples w)
  ∧ slice_elems h1 (samples w) = slice_elems h (samples w)
  ∧ slice_elems h2 (samples w) = slice_elems h (samples w)
  ∧ (∀ snap' h3, Snapshot w h2 = (snap', h3) →
       slice_elems h3 snap' = slice_elems h (samples w))
  ∧ Len w = length (slice_elems h2 (samples w)).
Proof.
  intros Hwf Hsnap Hwrites.
  destruct (Snapshot_spec _ _ _ _ Hwf Hsnap) as (Hcopy & Hout & Hframe & Hlen).
  destruct (slice_frame _ _ _ Hwf Hframe) as [Hsame1 Hwf1].
  apply slice_sets_others in Hwrites as [Hlen2 Hothers].
  assert (Hframe2 : heap_frame h h2).
  { intros i Hi. rewrite Hothers; [by apply Hframe|]. subst snap. simpl. lia. }
  destruct (slice_frame _ _ _ Hwf Hframe2) as [Hsame2 Hwf2].
  split; [done|]. split; [done|]. split; [done|]. split.
  - intros snap' h3 Hsnap'.
    destruct (Snapshot_spec _ _ _ _ Hwf2 Hsnap') as (Hcopy' & _).
    congruence.
  - rewrite Hsame2. symmetry. by apply slice_elems_length.
Qed.

(** ** The RPC handlers *)

Section ServerProofs.
Context `{SliceSorter}.

(** C6: on every window and heap, [GetMetrics] answers without error with
    exactly one metric value, named [persistent_kafka_lag], whose value is
    the evaluator's [TotalCurrentLag] on the snapshot when the evaluator
    reports [Persistent = true] and 0 otherwise; [IsActive] on the same
    window and heap answers without error with that [Persistent], so the
    metric is [TotalCurrentLag] exactly when [IsActive] answers true.  The
    snapshot shows the samples of the window. *)
Theorem GetMetrics_coupled_with_IsActive (s : server.ExternalScalerServer) (h : heap) :
  ∃ snap h' result,
    Snapshot (server.window s) h = (snap, h')
    ∧ (slice_wf h (samples (server.window s)) →
       slice_elems h' snap = slice_elems h (samples (server.window s)))
    ∧ result = EvaluatePersistence (slice_elems h' snap)
                 (config.LagThreshold (server.config s))
                 (config.SustainDuration (server.config s))
    ∧ server.IsActive s h
      = ((server.mkIsActiveResponse (Persistent result), None), h')
    ∧ server.GetMetrics s h
      = ((server.mkGetMetricsResponse
            [server.mkMetricValue "persistent_kafka_lag"
               (if Persistent result then TotalCurrentLag result else 0)],
          None), h')
    ∧ (∀ resp err h'', server.GetMetrics s h = ((resp, err), h'') →
         err = None
         ∧ ∃ mv, server.MetricValues resp = [mv]
                 ∧ server.MetricName mv = "persistent_kafka_lag"%string
                 ∧ server.MetricValue_ mv
                   = if server.Result (server.IsActive s h).1.1
                     then TotalCurrentLag result else 0).
Proof.
  unfold server.GetMetrics, server.IsActive, server.evaluate.
  destruct (Snapshot (server.window s) h) as [snap h'] eqn:Hsnap.
  exists snap, h', (EvaluatePersistence (slice_elems h' snap)
                     (config.LagThreshold (server.config s))
                     (config.SustainDuration (server.config s))).
  split; [done|]. split.
  { intros Hwf. by destruct (Snapshot_spec _ _ _ _ Hwf Hsnap) as [Hcopy _]. }
  split; [done|]. split; [done|]. split; [done|].
  intros resp err h'' [= <- <- <-]. split; [done|].
  eexists. by repeat split.
Qed.

End ServerProofs.

(** ** FetchLag *)





(** A successful [FetchLag] went through both offset calls and both
    collecting loops. *)
Lemma FetchLag_success f now samples :
  kafka.FetchLag f now = inr samples →
  ∃ topicMeta listReq listResp fetchReq fetchResp endOffsets committedOffsets,
    kafka.ListOffsets (kafka.client f) listReq = inr listResp
    ∧ kafka.OffsetFetch (kafka.client f) fetchReq = inr fetchResp
    ∧ kafka.fr_GroupID fetchReq = kafka.consumerGroup f
    ∧ kafka.collectEndOffsets
        (default [] (kafka.lo_Topics listResp !! kafka.topic f)) ∅ = inr endOffsets
    ∧ kafka.collectCommittedOffsets
        (default [] (kafka.of_Topics fetchResp !! kafka.topic f)) ∅ = inr committedOffsets
    ∧ samples = map (kafka.sampleOf now (kafka.topic f) endOffsets committedOffsets)
                  (kafka.Partitions topicMeta).
Proof.
  unfold kafka.FetchLag.
  destruct (kafka.Metadata _ _) as [?|metaResp]; [done|].
  destruct (kafka.Topics metaResp) as [|topicMeta ?]; [done|].
  destruct (kafka.TopicError topicMeta); [done|].
  destruct (kafka.ListOffsets _ _) as [?|listResp] eqn:Hlist; [done|].
  destruct (kafka.collectEndOffsets _ _) as [?|endOffsets] eqn:Hend; [done|].
  destruct (kafka.Metadata _ _) as [?|coordinator]; [done|].
  destruct (kafka.OffsetFetch _ _) as [?|fetchResp] eqn:Hfetch; [done|].
  destruct (kafka.collectCommittedOffsets _ _) as [?|committedOffsets] eqn:Hcom; [done|].
  intros [= <-]. by eexists topicMeta, _, listResp, _, fetchResp, endOffsets, committedOffsets.
Qed.


(** ** ParseFromMetadata *)

Lemma getMetadataOrEnv_empty metadata env key envKey :
  config.getMetadataOrEnv metadata env key envKey "" = EmptyString
  ↔ unresolved metadata env key envKey.
Proof.
  unfold config.getMetadataOrEnv, unresolved, config.lookupMetadata.
  assert (Henv : (if bool_decide (config.Getenv env envKey ≠ EmptyString)
                  then config.Getenv env envKey else EmptyString) = EmptyString
                 ↔ config.Getenv env envKey = EmptyString).
  { destruct (bool_decide_reflect (config.Getenv env envKey ≠ EmptyString)) as [Hne|He].
    - done.
    - apply dec_stable in He. by rewrite He. }
  destruct metadata as [m|]; [destruct (m !! key) as [v|]|].
  - destruct (bool_decide_reflect (v ≠ EmptyString)) as [Hne|He].
    + split; [done|]. intros [[?|[= ?]] _]; done.
    + apply dec_stable in He. subst v. rewrite Henv.
      split; [intros ?; split; [by right|done]|by intros [_ ?]].
  - rewrite Henv. split; [intros ?; split; [by left|done]|by intros [_ ?]].
  - rewrite Henv. split; [intros ?; split; [by left|done]|by intros [_ ?]].
Qed.

Lemma parseOption_ok metadata env key envKey parse set cfg cfg' :
  parseOption metadata env key envKey parse set cfg = inr cfg'
  ↔ (resolved metadata env key envKey = None ∧ cfg' = cfg)
    ∨ (∃ v n, resolved metadata env key envKey = Some v
              ∧ parse v = inr n ∧ cfg' = set n cfg).
Proof.
  assert (Hparse : ∀ v msg,
            match parse v with
            | inl err => inl (config.wrapError msg err)
            | inr n => inr (set n cfg)
            end = inr cfg'
            ↔ (Some v = None ∧ cfg' = cfg)
              ∨ (∃ v0 n, Some v = Some v0 ∧ parse v0 = inr n ∧ cfg' = set n cfg)).
  { intros v msg. destruct (parse v) as [e|n] eqn:Hp; split.
    - done.
    - intros [[? _] | (v0 & n0 & [= <-] & Hn & _)]; congruence.
    - intros [= <-]. right. by exists v, n.
    - intros [[? _] | (v0 & n0 & [= <-] & Hn & ->)]; congruence. }
  unfold parseOption, resolved.
  destruct (config.lookupMetadata metadata key) as [v|]; [apply Hparse|].
  destruct (bool_decide (config.Getenv env envKey ≠ EmptyString)); [apply Hparse|].
  split.
  - intros [= <-]. by left.
  - intros [[_ ->] | (v0 & n0 & ? & _)]; done.
Qed.

Lemma parseOption_error metadata env key envKey parse set cfg e :
  parseOption metadata env key envKey parse set cfg = inl e →
  ∃ msg cause v, e = config.wrapError msg cause
                 ∧ resolved metadata env key envKey = Some v
                 ∧ parse v = inl cause.
Proof.
  unfold parseOption, resolved.
  destruct (config.lookupMetadata metadata key) as [v|].
  - destruct (parse v) as [err|n] eqn:Hp; [|done]. intros [= <-].
    by eexists _, err, v.
  - destruct (bool_decide (config.Getenv env envKey ≠ EmptyString)); [|done].
    destruct (parse (config.Getenv env envKey)) as [err|n] eqn:Hp; [|done].
    intros [= <-]. by eexists _, err, _.
Qed.

Lemma bind_inr {A B} (r : config.error + A) (k : A → config.error + B) b :
  config.bind r k = inr b ↔ ∃ a, r = inr a ∧ k a = inr b.
Proof.
  destruct r as [e|a]; simpl; split.
  - done.
  - by intros (a & [= ] & _).
  - intros Hk. by exists a.
  - by intros (a' & [= <-] & Hk).
Qed.

Lemma bind_inl {A B} (r : config.error + A) (k : A → config.error + B) e :
  config.bind r k = inl e ↔ r = inl e ∨ ∃ a, r = inr a ∧ k a = inl e.
Proof.
  destruct r as [e'|a]; simpl; split.
  - intros [= <-]. by left.
  - by intros [[= <-] | (a & [= ] & _)].
  - intros Hk. right. by exists a.
  - by intros [[= ] | (a' & [= <-] & Hk)].
Qed.

Lemma ParseFromMetadata_steps metadata env :
  config.ParseFromMetadata metadata env
  = if bool_decide (config.Topic (baseConfig metadata env) = EmptyString)
    then inl (config.errorString "topic is required")
    else if bool_decide (config.ConsumerGroup (baseConfig metadata env) = EmptyString)
    then inl (config.errorString "consumerGroup is required")
    else numericSteps metadata env (baseConfig metadata env).
Proof. reflexivity. Qed.

Lemma numericSteps_error metadata env cfg e :
  numericSteps metadata env cfg = inl e → ∃ msg cause, e = config.wrapError msg cause.
Proof.
  unfold numericSteps.
  intros He.
  repeat (apply bind_inl in He as [He | (? & _ & He)];
          [apply parseOption_error in He as (msg & cause & v & -> & _); by eauto|]).
  done.
Qed.

Lemma numericSteps_ok metadata env cfg cfg' :
  numericSteps metadata env cfg = inr cfg' →
  parses strconv.ParseInt (resolved metadata env "lagThreshold" "LAG_THRESHOLD")
  ∧ parses strconv.ParseInt (resolved metadata env "sustainSeconds" "SUSTAIN_SECONDS")
  ∧ parses strconv.ParseInt (resolved metadata env "samplingInterval" "SAMPLING_INTERVAL")
  ∧ parses strconv.Atoi (resolved metadata env "windowSize" "WINDOW_SIZE")
  ∧ config.SustainDuration cfg'
    = secondsOf (resolved metadata env "sustainSeconds" "SUSTAIN_SECONDS")
        (config.SustainDuration cfg)
  ∧ config.SamplingInterval cfg'
    = secondsOf (resolved metadata env "samplingInterval" "SAMPLING_INTERVAL")
        (config.SamplingInterval cfg)
  ∧ config.Topic cfg' = config.Topic cfg
  ∧ config.ConsumerGroup cfg' = config.ConsumerGroup cfg.
Proof.
  unfold numericSteps. intros Hsteps.
  apply bind_inr in Hsteps as (c1 & H1 & Hsteps).
  apply bind_inr in Hsteps as (c2 & H2 & Hsteps).
  apply bind_inr in Hsteps as (c3 & H3 & Hsteps).
  apply bind_inr in Hsteps as (c4 & H4 & [= <-]).
  apply parseOption_ok in H1, H2, H3, H4. unfold parses, secondsOf.
  destruct H1 as [[-> ->] | (v1 & n1 & -> & Hp1 & ->)];
  destruct H2 as [[-> ->] | (v2 & n2 & -> & Hp2 & ->)];
  destruct H3 as [[-> ->] | (v3 & n3 & -> & Hp3 & ->)];
  destruct H4 as [[-> ->] | (v4 & n4 & -> & Hp4 & ->)];
    rewrite ?Hp2, ?Hp3; simpl; repeat split; try done;
    intros ? [= <-]; eauto.
Qed.


Lemma getMetadataOrEnv_lookup metadata env key envKey defaultVal :
  config.getMetadataOrEnv metadata env key envKey defaultVal
  = match config.lookupMetadata metadata key with
    | Some v =>
        if bool_decide (v ≠ EmptyString) then v
        else if bool_decide (config.Getenv env envKey ≠ EmptyString)
             then config.Getenv env envKey else defaultVal
    | None =>
        if bool_decide (config.Getenv env envKey ≠ EmptyString)
        then config.Getenv env envKey else defaultVal
    end.
Proof. by destruct metadata as [m|]. Qed.





(** C10, as amended: a metadata entry for [topic] or [consumerGroup] that is
    present but empty is treated as absent: resolution falls back to the
    environment variable and then to the default.  The error
    "topic is required" is returned exactly when [topic] is unresolved (no
    non-empty metadata value and no non-empty environment variable); the error
    "consumerGroup is required" is returned exactly when [consumerGroup] is
    unresolved and [topic] is resolved, the topic being checked first. *)
Theorem ParseFromMetadata_required_fields metadata env :
  (∀ m key envKey defaultVal,
     m !! key = Some EmptyString →
     config.getMetadataOrEnv (Some m) env key envKey defaultVal
     = config.getMetadataOrEnv (Some (delete key m)) env key envKey defaultVal
     ∧ config.getMetadataOrEnv (Some m) env key envKey defaultVal
       = if bool_decide (config.Getenv env envKey ≠ EmptyString)
         then config.Getenv env envKey else defaultVal)
  ∧ (config.ParseFromMetadata metadata env = inl (config.errorString "topic is required")
     ↔ unresolved metadata env "topic" "KAFKA_TOPIC")
  ∧ (config.ParseFromMetadata metadata env
     = inl (config.errorString "consumerGroup is required")
     ↔ ¬ unresolved metadata env "topic" "KAFKA_TOPIC"
       ∧ unresolved metadata env "consumerGroup" "KAFKA_GROUP_ID").
Proof.
  split.
  { intros m key envKey defaultVal Hm. unfold config.getMetadataOrEnv.
    by rewrite Hm, lookup_delete_eq. }
  rewrite ParseFromMetadata_steps. rewrite <- !getMetadataOrEnv_empty.
  change (config.getMetadataOrEnv metadata env "topic" "KAFKA_TOPIC" "")
    with (config.Topic (baseConfig metadata env)).
  change (config.getMetadataOrEnv metadata env "consumerGroup" "KAFKA_GROUP_ID" "")
    with (config.ConsumerGroup (baseConfig metadata env)).
  destruct (bool_decide_reflect (config.Topic (baseConfig metadata env) = EmptyString))
    as [Ht|Ht].
  { split; [done|]. split; [done|]. by intros [? _]. }
  destruct (bool_decide_reflect
              (config.ConsumerGroup (baseConfig metadata env) = EmptyString)) as [Hg|Hg].
  { split; [|done]. split; [done|]. intros ?. done. }
  split.
  - split; [|done]. intros He. by apply numericSteps_error in He as (? & ? & ?).
  - split; [|by intros [_ ?]].
    intros He. by apply numericSteps_error in He as (? & ? & ?).
Qed.

(** * The repository's tests, and the claims on concrete inputs *)

Example test_NoSamples :
  EvaluatePersistence [] 500 twoMinutes = mkEvaluationResult false 0.
Proof. reflexivity. Qed.

Example test_ShortStretch :
  Persistent (EvaluatePersistence (makeSamples 0 7 tenSeconds 6 1000) 500 twoMinutes)
  = false.
Proof. vm_compute. reflexivity. Qed.

Example test_ExactDuration :
  Persistent (EvaluatePersistence (makeSamples 0 7 tenSeconds 13 1000) 500 twoMinutes)
  = true.
Proof. vm_compute. reflexivity. Qed.

Example test_OneNanosecondShort :
  Persistent (EvaluatePersistence (makeSamples 0 7 tenSeconds 13 1000) 500 (twoMinutes + 1))
  = false.
Proof. vm_compute. reflexivity. Qed.

Example test_GapInMiddle :
  Persistent
    (EvaluatePersistence
       (makeSamples 0 0 tenSeconds 6 1000
        ++ [mkLagSample (60 * time.Second) "" 0 100 0 0]
        ++ makeSamples 0 (70 * time.Second) tenSeconds 6 1000)
       500 twoMinutes)
  = false.
Proof. vm_compute. reflexivity. Qed.

Example test_MultiPartition :
  EvaluatePersistence
    (makeSamples 0 7 tenSeconds 6 1000 ++ makeSamples 1 7 tenSeconds 15 800)
    500 twoMinutes
  = mkEvaluationResult true 1800.
Proof. vm_compute. reflexivity. Qed.

Example test_TotalLagFromLatest :
  TotalCurrentLag (EvaluatePersistence latestSamples 500 twoMinutes) = 600.
Proof. vm_compute. reflexivity. Qed.

Lemma EvaluatePersistence_persistent_iff_run_witness :
  Int64.in_range twoMinutes
  ∧ EvaluatePersistence_run atThreshold 500 twoMinutes
      (EvaluatePersistence atThreshold 500 twoMinutes)
  ∧ ((Persistent (EvaluatePersistence atThreshold 500 twoMinutes) = true
      ↔ ∃ p, persistentRun (sortSlice (samplesOf p atThreshold)) 500 twoMinutes)
     ∧ (atThreshold = [] →
        Persistent (EvaluatePersistence atThreshold 500 twoMinutes) = false)).
Proof.
  assert (Hd : Int64.in_range twoMinutes) by (by vm_compute).
  assert (Hrun : EvaluatePersistence_run atThreshold 500 twoMinutes
                   (EvaluatePersistence atThreshold 500 twoMinutes))
    by apply EvaluatePersistence_is_run.
  split; [exact Hd|]. split; [exact Hrun|].
  exact (EvaluatePersistence_persistent_iff_run atThreshold 500 twoMinutes _ Hd Hrun).
Defined.

Lemma EvaluatePersistence_total_overflows :
  sumOfLatestLags hugeLags = 2 ^ 63
  ∧ TotalCurrentLag (EvaluatePersistence hugeLags 500 twoMinutes) = - 2 ^ 63
  ∧ TotalCurrentLag (EvaluatePersistence hugeLags 500 twoMinutes)
    ≠ sumOfLatestLags hugeLags.
Proof. by vm_compute. Qed.

Lemma EvaluatePersistence_total_wraps_witness :
  EvaluatePersistence_run latestSamples 500 twoMinutes
    (EvaluatePersistence latestSamples 500 twoMinutes)
  ∧ (TotalCurrentLag (EvaluatePersistence latestSamples 500 twoMinutes)
     = Int64.wrap (sumOfLatestLags latestSamples)
     ∧ (Int64.in_range (sumOfLatestLags latestSamples) →
        TotalCurrentLag (EvaluatePersistence latestSamples 500 twoMinutes)
        = sumOfLatestLags latestSamples)
     ∧ (latestSamples = [] →
        TotalCurrentLag (EvaluatePersistence latestSamples 500 twoMinutes) = 0)
     ∧ (∀ p s, latestSample p latestSamples = Some s →
          s ∈ latestSamples ∧ Partition s = p
          ∧ ∀ x, x ∈ latestSamples → Partition x = p → Timestamp x ≤ Timestamp s)).
Proof.
  assert (Hrun : EvaluatePersistence_run latestSamples 500 twoMinutes
                   (EvaluatePersistence latestSamples 500 twoMinutes))
    by apply EvaluatePersistence_is_run.
  split; [exact Hrun|].
  exact (EvaluatePersistence_total_wraps latestSamples 500 twoMinutes _ Hrun).
Defined.

Example test_TiedLatest :
  (groupSamples tiedSamples).2 !! 0 = Some (mkLagSample tenSeconds "" 0 700 0 0)
  ∧ TotalCurrentLag (EvaluatePersistence tiedSamples 500 twoMinutes) = 700.
Proof. by vm_compute. Qed.

Example test_EvictsOldSamples :
  contentsAfter
    (Add noSlack clock
       [sampleAt (clock - 10 * time.Second) 100; sampleAt (clock - 8 * time.Second) 200]
       fiveSecondWindow [])
  = []
  ∧ contentsAfter
      (Add noSlack clock
         [sampleAt (clock - 10 * time.Second) 100;
          sampleAt (clock - 3 * time.Second) 200;
          sampleAt clock 300]
         fiveSecondWindow [])
    = [sampleAt (clock - 3 * time.Second) 200; sampleAt clock 300].
Proof. by vm_compute. Qed.

Lemma Add_keeps_old_samples :
  contentsAfter (Add noSlack clock outOfOrderBatch fiveSecondWindow []) = outOfOrderBatch
  ∧ ¬ Forall (λ s, clock - Timestamp s < windowDuration fiveSecondWindow)
        (contentsAfter (Add noSlack clock outOfOrderBatch fiveSecondWindow []))
  ∧ contentsAfter (Add noSlack clock boundaryBatch fiveSecondWindow []) = boundaryBatch
  ∧ ¬ Forall (λ s, clock - Timestamp s < windowDuration fiveSecondWindow)
        (contentsAfter (Add noSlack clock boundaryBatch fiveSecondWindow [])).
Proof.
  split; [by vm_compute|]. split.
  { refine (bool_decide_eq_false_1 _ _). by vm_compute. }
  split; [by vm_compute|].
  refine (bool_decide_eq_false_1 _ _). by vm_compute.
Qed.

Lemma Add_retains_window_prefix_eviction_witness :
  slice_wf [] (samples fiveSecondWindow)
  ∧ Int64.min < windowDuration fiveSecondWindow ≤ Int64.max
  ∧ Adds noSlack earlierCalls fiveSecondWindow [] = (windowBefore, heapBefore)
  ∧ Add noSlack clock orderedBatch windowBefore heapBefore
    = (windowAfterOrdered, heapAfterOrdered)
  ∧ ((∃ evicted,
        slice_elems heapBefore (samples windowBefore) ++ orderedBatch
        = evicted ++ slice_elems heapAfterOrdered (samples windowAfterOrdered)
        ∧ Forall (λ s, windowDuration fiveSecondWindow < clock - Timestamp s) evicted)
     ∧ (∀ s rest,
          slice_elems heapAfterOrdered (samples windowAfterOrdered) = s :: rest →
          clock - Timestamp s ≤ windowDuration fiveSecondWindow)
     ∧ (StronglySorted TimestampLe
          (slice_elems heapBefore (samples windowBefore) ++ orderedBatch) →
        Forall (λ s, clock - Timestamp s ≤ windowDuration fiveSecondWindow)
          (slice_elems heapAfterOrdered (samples windowAfterOrdered)))
     ∧ windowDuration windowAfterOrdered = windowDuration fiveSecondWindow).
Proof.
  assert (Hwf : slice_wf [] (samples fiveSecondWindow)) by (by vm_compute).
  assert (HW : Int64.min < windowDuration fiveSecondWindow ≤ Int64.max)
    by (by vm_compute).
  assert (Hcalls : Adds noSlack earlierCalls fiveSecondWindow []
                   = (windowBefore, heapBefore)) by (by vm_compute).
  assert (Hadd : Add noSlack clock orderedBatch windowBefore heapBefore
                 = (windowAfterOrdered, heapAfterOrdered)) by (by vm_compute).
  split; [exact Hwf|]. split; [exact HW|]. split; [exact Hcalls|].
  split; [exact Hadd|].
  exact (Add_retains_window_prefix_eviction noSlack earlierCalls fiveSecondWindow []
           clock orderedBatch windowBefore heapBefore
           windowAfterOrdered heapAfterOrdered Hwf HW Hcalls Hadd).
Defined.

Example test_SnapshotIsACopy :
  ∃ snap h1 h2 snap2 h3,
    Snapshot oneSampleWindow oneSampleHeap = (snap, h1)
    ∧ slice_set snap 0 (sampleAt clock 999) h1 = Some h2
    ∧ slice_elems h2 snap = [sampleAt clock 999]
    ∧ Snapshot oneSampleWindow h2 = (snap2, h3)
    ∧ slice_elems h3 snap2 = [sampleAt clock 100].
Proof. by eexists _, _, _, _, _; vm_compute. Qed.

Lemma Snapshot_is_independent_copy_witness :
  slice_wf oneSampleHeap (samples oneSampleWindow)
  ∧ Snapshot oneSampleWindow oneSampleHeap
    = (mkSlice 1 0 1 1, [[sampleAt clock 100]; [sampleAt clock 100]])
  ∧ slice_sets (mkSlice 1 0 1 1) [(0%nat, sampleAt clock 999)]
      [[sampleAt clock 100]; [sampleAt clock 100]]
    = Some [[sampleAt clock 100]; [sampleAt clock 999]]
  ∧ (slice_elems [[sampleAt clock 100]; [sampleAt clock 100]] (mkSlice 1 0 1 1)
     = slice_elems oneSampleHeap (samples oneSampleWindow)
     ∧ slice_elems [[sampleAt clock 100]; [sampleAt clock 100]] (samples oneSampleWindow)
       = slice_elems oneSampleHeap (samples oneSampleWindow)
     ∧ slice_elems [[sampleAt clock 100]; [sampleAt clock 999]] (samples oneSampleWindow)
       = slice_elems oneSampleHeap (samples oneSampleWindow)
     ∧ (∀ snap' h3,
          Snapshot oneSampleWindow [[sampleAt clock 100]; [sampleAt clock 999]]
          = (snap', h3) →
          slice_elems h3 snap' = slice_elems oneSampleHeap (samples oneSampleWindow))
     ∧ Len oneSampleWindow
       = length (slice_elems [[sampleAt clock 100]; [sampleAt clock 999]]
                   (samples oneSampleWindow))).
Proof.
  assert (Hwf : slice_wf oneSampleHeap (samples oneSampleWindow)) by (by vm_compute).
  assert (Hsnap : Snapshot oneSampleWindow oneSampleHeap
                  = (mkSlice 1 0 1 1, [[sampleAt clock 100]; [sampleAt clock 100]]))
    by (by vm_compute).
  assert (Hsets : slice_sets (mkSlice 1 0 1 1) [(0%nat, sampleAt clock 999)]
                    [[sampleAt clock 100]; [sampleAt clock 100]]
                  = Some [[sampleAt clock 100]; [sampleAt clock 999]])
    by (by vm_compute).
  split; [exact Hwf|]. split; [exact Hsnap|]. split; [exact Hsets|].
  exact (Snapshot_is_independent_copy oneSampleWindow oneSampleHeap _ _ _ _
           Hwf Hsnap Hsets).
Defined.

Example test_FetchLag : kafka.FetchLag ordersFetcher clock = inr ordersSamples.
Proof. by vm_compute. Qed.

(** A broker error on one partition fails the whole call. *)
Example test_FetchLag_partition_error :
  kafka.FetchLag
    (kafka.NewLagFetcher
       (kafka.mkClient (kafka.Addr ordersBroker) (kafka.Metadata ordersBroker)
          (kafka.ListOffsets ordersBroker)
          (λ _, inr (kafka.mkOffsetFetchResponse
                       {[ "orders"%string :=
                            [kafka.mkOffsetFetchPartition 0 40 None;
                             kafka.mkOffsetFetchPartition 1 0 (Some "not coordinator"%string)] ]})))
       "orders" "workers")
    clock
  = inl (kafka.CommittedOffsetErrorForPartition 1 "not coordinator").
Proof. by vm_compute. Qed.


Example test_Defaults :
  config.ParseFromMetadata (Some requiredOnly) ∅ = inr defaultConfig.
Proof. by vm_compute. Qed.

Example test_MissingTopic :
  config.ParseFromMetadata (Some (<["consumerGroup" := "my-group"]> ∅)) ∅
  = inl (config.errorString "topic is required").
Proof. by vm_compute. Qed.

Example test_MissingConsumerGroup :
  config.ParseFromMetadata (Some (<["topic" := "my-topic"]> ∅)) ∅
  = inl (config.errorString "consumerGroup is required").
Proof. by vm_compute. Qed.

Example test_InvalidSustainSeconds :
  config.ParseFromMetadata (Some (<["sustainSeconds" := "abc"]> requiredOnly)) ∅
  = inl (config.wrapError "invalid sustainSeconds: "
           (strconv.mkNumError "ParseInt" "abc" strconv.ErrSyntax)).
Proof. by vm_compute. Qed.

Example test_EnvVarFallback :
  config.ParseFromMetadata None
    (<["KAFKA_BROKERS" := "env-broker:9092"]>
       (<["KAFKA_TOPIC" := "env-topic"]>
          (<["KAFKA_GROUP_ID" := "env-group"]>
             (<["LAG_THRESHOLD" := "750"]>
                (<["SUSTAIN_SECONDS" := "90"]>
                   (<["SAMPLING_INTERVAL" := "15"]>
                      (<["WINDOW_SIZE" := "20"]> ∅)))))))
  = inr (config.mkScalerConfig "env-broker:9092" "env-topic" "env-group"
           750 (90 * time.Second) (15 * time.Second) 20).
Proof. by vm_compute. Qed.

Example test_EmptyTopicFallsBackToEnv :
  config.ParseFromMetadata (Some (<["topic" := ""]> requiredOnly))
    (<["KAFKA_TOPIC" := "env-topic"]> ∅)
  = inr (config.mkScalerConfig "localhost:9092" "env-topic" "my-group"
           500 (120 * time.Second) (10 * time.Second) 30).
Proof. by vm_compute. Qed.




(** With neither field resolved the consumer group is missing, and yet the
    error names the topic. *)
Lemma ParseFromMetadata_topic_checked_first :
  unresolved None ∅ "consumerGroup" "KAFKA_GROUP_ID"
  ∧ config.ParseFromMetadata None ∅ = inl (config.errorString "topic is required")
  ∧ config.ParseFromMetadata None ∅
    ≠ inl (config.errorString "consumerGroup is required").
Proof.
  split; [|split; by vm_compute].
  split; [by left|by vm_compute].
Qed.

Example test_EmptyWindow :
  let '(srv, h) := testServer [] in
  server.Result (server.IsActive srv h).1.1 = false
  ∧ metricOf (server.GetMetrics srv h) = [0]
  ∧ server.GetMetricSpec srv
    = (server.mkGetMetricSpecResponse [server.mkMetricSpec "persistent_kafka_lag" 500],
       None).
Proof. by vm_compute. Qed.

Example test_AtThresholdSustained :
  let '(srv, h) := testServer (threePartitions 0 13 500 500 500) in
  server.Result (server.IsActive srv h).1.1 = true
  ∧ metricOf (server.GetMetrics srv h) = [1500].
Proof. by vm_compute. Qed.

Example test_AboveThresholdTooShort :
  let '(srv, h) := testServer (threePartitions 0 6 1000 1000 1000) in
  server.Result (server.IsActive srv h).1.1 = false
  ∧ metricOf (server.GetMetrics srv h) = [0].
Proof. by vm_compute. Qed.

Example test_MixedPartitions :
  let '(srv, h) := testServer (threePartitions 0 18 100 800 1000) in
  server.Result (server.IsActive srv h).1.1 = true
  ∧ metricOf (server.GetMetrics srv h) = [1900].
Proof. by vm_compute. Qed.

(** * Further properties of the code *)

(** ** The evaluator *)

Lemma list_filter_iff_id {A} (P : A → Prop) `{∀ x, Decision (P x)} (l : list A) :
  (∀ x, x ∈ l → P x) → filter P l = l.
Proof.
  induction l as [|a l IH]; intros Hall; [done|].
  rewrite filter_cons_True by (apply Hall; left).
  f_equal. apply IH. intros x Hx. apply Hall. by right.
Qed.

Lemma samplesOf_samplesOf p q samples :
  samplesOf q (samplesOf p samples)
  = if decide (q = p) then samplesOf p samples else [].
Proof.
  unfold samplesOf. destruct (decide (q = p)) as [->|Hq].
  - apply list_filter_iff_id. intros x Hx. by apply list_elem_of_filter in Hx as [? _].
  - apply filter_none. intros x Hx Hxq.
    apply list_elem_of_filter in Hx as [Hxp _]. congruence.
Qed.

Lemma persistentRun_mono l t d t' d' :
  t' ≤ t → d' ≤ d → persistentRun l t d → persistentRun l t' d'.
Proof.
  intros Ht Hd (before & first & more & after & Heq & Hall & Hspan).
  exists before, first, more, after. split; [done|]. split; [|lia].
  eapply Forall_impl; [exact Hall|]. intros; simpl in *; lia.
Qed.

Lemma last_elem (first : LagSample) more :
  List.last more first ∈ first :: more.
Proof.
  revert first. induction more as [|m more IH]; intros first; [left|].
  rewrite last_cons_cons. right. apply IH.
Qed.

(** In a sorted list the head is the earliest and the last the latest. *)
Lemma sorted_bounds first more z :
  StronglySorted TimestampLe (first :: more) →
  z ∈ first :: more →
  Timestamp first ≤ Timestamp z ≤ Timestamp (List.last more first).
Proof.
  revert first z. induction more as [|m more IH]; intros first z Hsorted Hz.
  - apply list_elem_of_singleton in Hz as ->. simpl. lia.
  - apply StronglySorted_inv in Hsorted as [Hrest Hfirst].
    rewrite last_cons_cons.
    pose proof (Forall_inv Hfirst) as Hm. unfold TimestampLe in Hm.
    apply elem_of_cons in Hz as [->|Hz].
    + pose proof (IH m m Hrest ltac:(left)). lia.
    + pose proof (IH m z Hrest Hz). lia.
Qed.

Lemma hasPersistentLag_loop_below l t d start inStretch :
  Forall (λ s, Lag s < t) l →
  hasPersistentLag_loop l t d start inStretch = false.
Proof.
  intros Hbelow. revert start inStretch.
  induction Hbelow as [|s l Hs Hl IH]; intros start inStretch; simpl; [done|].
  destruct (Z.leb_spec t (Lag s)); [lia|]. apply IH.
Qed.

Section EvaluatorMore.
Context `{SliceSorter}.

Lemma checkPartitions_false order t d :
  (∀ g, g ∈ order → hasPersistentLag (sortSlice g) t d = false) →
  checkPartitions order t d = false.
Proof.
  intros Hall. destruct (checkPartitions order t d) eqn:Hc; [|done].
  apply checkPartitions_true in Hc as (g & Hg & Hp). rewrite Hall in Hp; done.
Qed.

(** X1: persistence is an OR across partitions: [EvaluatePersistence]
    reports [Persistent = true] on an input exactly when it does so on the
    samples of some single partition of it, taken alone. *)
Theorem EvaluatePersistence_or_across_partitions samples t d :
  Int64.in_range d →
  Persistent (EvaluatePersistence samples t d) = true
  ↔ ∃ p, Persistent (EvaluatePersistence (samplesOf p samples) t d) = true.
Proof.
  intros [_ Hd]. rewrite EvaluatePersistence_persistent by done. split.
  - intros [p Hrun]. exists p. apply EvaluatePersistence_persistent; [done|].
    exists p. by rewrite samplesOf_samplesOf, decide_True.
  - intros [p Hp]. apply EvaluatePersistence_persistent in Hp as [q Hrun]; [|done].
    rewrite samplesOf_samplesOf in Hrun. destruct (decide (q = p)) as [->|Hq].
    + by exists p.
    + rewrite sortSlice_nil in Hrun. by apply persistentRun_nil in Hrun.
Qed.

(** X2: lowering the threshold or the sustain duration never turns a
    persistent input into a non-persistent one. *)
Theorem EvaluatePersistence_monotone samples t d t' d' :
  Int64.in_range d → t' ≤ t → d' ≤ d →
  Persistent (EvaluatePersistence samples t d) = true →
  Persistent (EvaluatePersistence samples t' d') = true.
Proof.
  intros [_ Hd] Ht Hd' Hp.
  apply EvaluatePersistence_persistent in Hp as [p Hrun]; [|done].
  apply EvaluatePersistence_persistent; [lia|].
  exists p. by apply (persistentRun_mono _ t d).
Qed.

(** X3: an input in which every sample is below the threshold is never
    persistent, whatever the sustain duration (zero and negative durations
    included). *)
Theorem EvaluatePersistence_below_threshold samples t d :
  Forall (λ s, Lag s < t) samples →
  Persistent (EvaluatePersistence samples t d) = false.
Proof.
  intros Hbelow. destruct samples as [|s samples]; [done|].
  unfold EvaluatePersistence, Persistent. apply checkPartitions_false.
  intros g Hg. apply byPartition_groups in Hg as (p & -> & _).
  assert (Hg : Forall (λ x, Lag x < t) (sortSlice (samplesOf p (s :: samples)))).
  { rewrite sortSlice_perm. unfold samplesOf. apply Forall_forall.
    intros x Hx. apply list_elem_of_filter in Hx as [_ Hx].
    rewrite Forall_forall in Hbelow. by apply Hbelow. }
  unfold hasPersistentLag.
  destruct (sortSlice (samplesOf p (s :: samples))); [done|].
  by apply hasPersistentLag_loop_below.
Qed.

Lemma short_span_not_persistent samples t d :
  d ≤ Int64.max →
  (∀ x y, x ∈ samples → y ∈ samples → Partition x = Partition y →
          Timestamp y - Timestamp x < d) →
  Persistent (EvaluatePersistence samples t d) = false.
Proof.
  intros Hd Hshort.
  destruct (Persistent (EvaluatePersistence samples t d)) eqn:Hp; [|done].
  apply EvaluatePersistence_persistent in Hp as [p Hrun]; [|done].
  destruct Hrun as (before & first & more & after & Heq & _ & Hspan).
  assert (Hin : ∀ z, z ∈ first :: more → z ∈ samples ∧ Partition z = p).
  { intros z Hz.
    assert (Hz' : z ∈ sortSlice (samplesOf p samples)).
    { rewrite Heq. apply elem_of_app. right. apply elem_of_app. by left. }
    rewrite sortSlice_perm in Hz'. unfold samplesOf in Hz'.
    apply list_elem_of_filter in Hz'. tauto. }
  destruct (Hin first ltac:(left)) as [Hf Hfp].
  destruct (Hin _ (last_elem first more)) as [Hl Hlp].
  specialize (Hshort first (List.last more first) Hf Hl ltac:(congruence)). lia.
Qed.

(** X4: an input that spans less than the sustain duration inside every
    partition (any two samples of one partition are less than [d] apart) is
    never persistent, however high the lag. *)
Theorem EvaluatePersistence_short_span samples t d :
  Int64.in_range d →
  (∀ x y, x ∈ samples → y ∈ samples → Partition x = Partition y →
          Timestamp y - Timestamp x < d) →
  Persistent (EvaluatePersistence samples t d) = false.
Proof. intros [_ Hd]. by apply short_span_not_persistent. Qed.

(** X5: when every sample of some partition is at or above the threshold and
    two of them are at least the sustain duration apart, the input is
    persistent, in whatever order the samples arrive. *)
Theorem EvaluatePersistence_sustained_partition samples t d p x y :
  Int64.in_range d →
  Forall (λ s, t ≤ Lag s) (samplesOf p samples) →
  x ∈ samplesOf p samples → y ∈ samplesOf p samples →
  d ≤ Timestamp y - Timestamp x →
  Persistent (EvaluatePersistence samples t d) = true.
Proof.
  intros [_ Hd] Hall Hx Hy Hspan.
  apply EvaluatePersistence_persistent; [done|]. exists p.
  pose proof (sortSlice_sorted (samplesOf p samples)) as Hsorted.
  pose proof (sortSlice_perm (samplesOf p samples)) as Hperm.
  rewrite <- Hperm in Hall, Hx, Hy.
  destruct (sortSlice (samplesOf p samples)) as [|first more];
    [by apply not_elem_of_nil in Hx|].
  exists [], first, more, []. split; [by rewrite app_nil_r|]. split; [done|].
  pose proof (sorted_bounds first more x Hsorted Hx).
  pose proof (sorted_bounds first more y Hsorted Hy). lia.
Qed.

End EvaluatorMore.

(** *** Order of arrival *)

Lemma timestamp_inj (l : list LagSample) x y :
  NoDup (Timestamp <$> l) → x ∈ l → y ∈ l → Timestamp x = Timestamp y → x = y.
Proof.
  induction l as [|a l IH]; intros Hnd Hx Hy Heq; [by apply not_elem_of_nil in Hx|].
  rewrite fmap_cons in Hnd. apply NoDup_cons in Hnd as [Ha Hnd].
  apply elem_of_cons in Hx as [->|Hx]; apply elem_of_cons in Hy as [->|Hy].
  - done.
  - exfalso. apply Ha. rewrite Heq. apply list_elem_of_fmap. by exists y.
  - exfalso. apply Ha. rewrite <- Heq. apply list_elem_of_fmap. by exists x.
  - by apply IH.
Qed.

(** Samples with distinct timestamps have one sorted arrangement. *)
Lemma sorted_perm_unique (l1 l2 : list LagSample) :
  StronglySorted TimestampLe l1 → StronglySorted TimestampLe l2 →
  l1 ≡ₚ l2 → NoDup (Timestamp <$> l1) → l1 = l2.
Proof.
  revert l2. induction l1 as [|a l1 IH]; intros l2 H1 H2 Hperm Hnd.
  - by apply Permutation_nil_l in Hperm.
  - destruct l2 as [|b l2]; [by apply Permutation_nil_r in Hperm|].
    apply StronglySorted_inv in H1 as [H1 Ha].
    apply StronglySorted_inv in H2 as [H2 Hb].
    assert (Hab : a = b).
    { assert (Hb_in : b ∈ a :: l1) by (rewrite Hperm; left).
      assert (Ha_in : a ∈ b :: l2) by (rewrite <- Hperm; left).
      apply (timestamp_inj (a :: l1)); [done|left|done|].
      rewrite Forall_forall in Ha, Hb. unfold TimestampLe in *.
      apply elem_of_cons in Hb_in as [->|Hb_in]; [done|].
      apply elem_of_cons in Ha_in as [->|Ha_in]; [done|].
      specialize (Ha b Hb_in). specialize (Hb a Ha_in). lia. }
    subst b. f_equal. apply IH; [done|done| |].
    + by apply Permutation_cons_inv in Hperm.
    + rewrite fmap_cons in Hnd. by apply NoDup_cons in Hnd as [_ ?].
Qed.

Lemma firstMax_perm (g g' : list LagSample) :
  g ≡ₚ g' → NoDup (Timestamp <$> g) → firstMax g = firstMax g'.
Proof.
  intros Hperm Hnd.
  destruct (firstMax g) as [s|] eqn:Hs, (firstMax g') as [s'|] eqn:Hs'.
  - apply firstMax_Some in Hs as [Hin Hmax]. apply firstMax_Some in Hs' as [Hin' Hmax'].
    f_equal. apply (timestamp_inj g); [done|done|by rewrite Hperm|].
    rewrite Forall_forall in Hmax, Hmax'.
    assert (Timestamp s' ≤ Timestamp s) by (apply Hmax; by rewrite Hperm).
    assert (Timestamp s ≤ Timestamp s') by (apply Hmax'; by rewrite <- Hperm).
    lia.
  - apply firstMax_None in Hs'. subst g'. apply Permutation_nil_r in Hperm.
    subst g. done.
  - apply firstMax_None in Hs. subst g. apply Permutation_nil_l in Hperm.
    subst g'. done.
  - done.
Qed.

Lemma partitionsOf_perm samples samples' :
  samples ≡ₚ samples' → partitionsOf samples ≡ₚ partitionsOf samples'.
Proof.
  intros Hperm. unfold partitionsOf.
  apply NoDup_Permutation; [apply NoDup_remove_dups..|].
  intros p. rewrite !elem_of_remove_dups. by rewrite Hperm.
Qed.

Lemma samplesOf_perm p samples samples' :
  samples ≡ₚ samples' → samplesOf p samples ≡ₚ samplesOf p samples'.
Proof. intros Hperm. unfold samplesOf. by rewrite Hperm. Qed.

Section OrderOfArrival.
Context `{SliceSorter}.

Lemma checkPartitions_groups samples t d :
  checkPartitions (map_to_list (groupSamples samples).1).*2 t d = true
  ↔ ∃ p, hasPersistentLag (sortSlice (samplesOf p samples)) t d = true.
Proof.
  rewrite checkPartitions_true. split.
  - intros (g & Hg & Hp). apply byPartition_groups in Hg as (p & -> & _). by exists p.
  - intros [p Hp]. exists (samplesOf p samples). split; [|done].
    apply byPartition_groups. exists p. split; [done|].
    intros Hnil. by rewrite Hnil, sortSlice_nil in Hp.
Qed.

(** X6: when the samples of each partition have distinct timestamps, the
    result of [EvaluatePersistence] does not depend on the order in which
    the samples arrive: any rearrangement of the input gives the same
    [Persistent] and the same [TotalCurrentLag]. *)
Theorem EvaluatePersistence_order_insensitive samples samples' t d :
  samples ≡ₚ samples' →
  (∀ p, NoDup (Timestamp <$> samplesOf p samples)) →
  EvaluatePersistence samples' t d = EvaluatePersistence samples t d.
Proof.
  intros Hperm Hnd.
  assert (Hsorted : ∀ p, sortSlice (samplesOf p samples')
                         = sortSlice (samplesOf p samples)).
  { intros p. symmetry. apply sorted_perm_unique; [apply sortSlice_sorted..| |].
    - rewrite !sortSlice_perm. by apply samplesOf_perm.
    - rewrite sortSlice_perm. apply Hnd. }
  assert (Htotal : TotalCurrentLag (EvaluatePersistence samples' t d)
                   = TotalCurrentLag (EvaluatePersistence samples t d)).
  { rewrite !EvaluatePersistence_total. f_equal. unfold sumOfLatestLags.
    apply Zsum_perm. rewrite <- (partitionsOf_perm _ _ Hperm).
    erewrite list_fmap_ext; [reflexivity|]. intros _ p _. simpl.
    rewrite !latestSample_firstMax. f_equal. symmetry.
    apply firstMax_perm; [by apply samplesOf_perm|apply Hnd]. }
  assert (Hpers : Persistent (EvaluatePersistence samples' t d)
                  = Persistent (EvaluatePersistence samples t d)).
  { destruct samples as [|s l].
    { apply Permutation_nil_l in Hperm. by subst samples'. }
    destruct samples' as [|s' l']; [by apply Permutation_nil_r in Hperm|].
    unfold EvaluatePersistence, Persistent.
    destruct (checkPartitions (map_to_list (groupSamples (s :: l)).1).*2 t d) eqn:H1.
    - apply checkPartitions_groups in H1 as [p Hp].
      apply checkPartitions_groups. exists p. by rewrite Hsorted.
    - destruct (checkPartitions (map_to_list (groupSamples (s' :: l')).1).*2 t d)
        eqn:H2; [|done].
      apply checkPartitions_groups in H2 as [p Hp]. rewrite Hsorted in Hp.
      assert (checkPartitions (map_to_list (groupSamples (s :: l)).1).*2 t d = true)
        by (apply checkPartitions_groups; eauto).
      congruence. }
  destruct (EvaluatePersistence samples' t d), (EvaluatePersistence samples t d).
  simpl in *. congruence.
Qed.

End OrderOfArrival.

(** ** The sliding window *)

Lemma nilSlice_wf (h : heap) : slice_wf h nilSlice.
Proof. unfold slice_wf, nilSlice. simpl. lia. Qed.



Lemma array_write_nil (arr : list LagSample) pos : array_write arr pos [] = arr.
Proof. unfold array_write. simpl. rewrite Nat.add_0_r. apply take_drop. Qed.

Section WindowMore.
Variable growslack : nat → nat → nat.

(** X7: for a window made by [NewSlidingWindow] and any sequence of [Add]
    calls, [Len] is the number of samples [Snapshot] returns, and the snapshot
    shows exactly the samples the window retains, in their order. *)
Theorem Len_matches_Snapshot calls windowSize samplingInterval h0 w h snap h' :
  Adds growslack calls (NewSlidingWindow windowSize samplingInterval) h0 = (w, h) →
  Snapshot w h = (snap, h') →
  Len w = length (slice_elems h' snap)
  ∧ slice_elems h' snap = slice_elems h (samples w).
Proof.
  intros Hcalls Hsnap.
  destruct (Adds_spec growslack calls (NewSlidingWindow windowSize samplingInterval)
              h0 w h (nilSlice_wf h0) Hcalls) as [Hwf _].
  destruct (Snapshot_spec _ _ _ _ Hwf Hsnap) as (Hcopy & _).
  rewrite Hcopy. split; [|done]. symmetry. by apply slice_elems_length.
Qed.



Lemma append_others s vals h s' h' k :
  slice_wf h s →
  append growslack s vals h = (s', h') →
  (k < length h)%nat →
  (s_array s ≠ k ∨ s_cap s = 0%nat) →
  h' !! k = h !! k
  ∧ (length h ≤ length h')%nat
  ∧ (s_array s' ≠ k ∨ s_cap s' = 0%nat).
Proof.
  intros Hwf Happ Hk Hother. unfold append in Happ.
  destruct (decide (s_len s + length vals ≤ s_cap s)%nat) as [Hfit|Hgrow];
    injection Happ as <- <-; simpl.
  - split; [|split; [by rewrite length_alter|done]].
    destruct Hother as [Hne|Hcap]; [by apply list_lookup_alter_ne|].
    assert (Hv : vals = []) by (apply nil_length_inv; lia). subst vals.
    destruct (decide (s_array s = k)) as [<-|Hne]; [|by apply list_lookup_alter_ne].
    rewrite list_lookup_alter_eq. destruct (h !! s_array s) as [arr|]; [|done].
    simpl. by rewrite array_write_nil.
  - split; [by apply lookup_app_l|]. split; [rewrite length_app; lia|].
    left. lia.
Qed.

Lemma Add_others now batch w h w' h' k :
  slice_wf h (samples w) →
  Add growslack now batch w h = (w', h') →
  (k < length h)%nat →
  (s_array (samples w) ≠ k ∨ s_cap (samples w) = 0%nat) →
  h' !! k = h !! k
  ∧ (length h ≤ length h')%nat
  ∧ (s_array (samples w') ≠ k ∨ s_cap (samples w') = 0%nat).
Proof.
  intros Hwf Hadd Hk Hother. unfold Add in Hadd.
  destruct (append growslack (samples w) batch h) as [appended h1] eqn:Happ.
  injection Hadd as <- <-.
  destruct (append_others _ _ _ _ _ k Hwf Happ Hk Hother) as (Hsame & Hlen & Hother').
  split; [done|]. split; [done|].
  unfold evict. simpl.
  destruct (decide (0 < evict_scan _ (slice_elems h1 appended) 0)%nat); simpl; [|done].
  destruct Hother' as [Hne|Hcap]; [by left|right; lia].
Qed.

Lemma Adds_others calls w h w' h' k :
  slice_wf h (samples w) →
  Adds growslack calls w h = (w', h') →
  (k < length h)%nat →
  (s_array (samples w) ≠ k ∨ s_cap (samples w) = 0%nat) →
  h' !! k = h !! k.
Proof.
  revert w h. induction calls as [|[now batch] calls IH]; intros w h Hwf; simpl.
  - by intros [= <- <-].
  - destruct (Add growslack now batch w h) as [w1 h1] eqn:Hadd.
    intros Hrest Hk Hother.
    destruct (Add_spec _ _ _ _ _ _ _ Hwf Hadd) as (_ & Hwf1 & _).
    destruct (Add_others _ _ _ _ _ _ k Hwf Hadd Hk Hother) as (Hsame & Hlen & Hother1).
    rewrite (IH _ _ Hwf1 Hrest) by (done || lia). done.
Qed.

(** X10: a snapshot is not touched by what is added later: after any
    sequence of [Add] calls on the window, a snapshot taken before them still
    shows the samples the window held when it was taken. *)
Theorem Snapshot_survives_later_Adds w h snap h1 calls w' h2 :
  slice_wf h (samples w) →
  Snapshot w h = (snap, h1) →
  Adds growslack calls w h1 = (w', h2) →
  slice_elems h2 snap = slice_elems h (samples w).
Proof.
  intros Hwf Hsnap Hcalls.
  destruct (Snapshot_spec _ _ _ _ Hwf Hsnap) as (Hcopy & Hout & Hframe & Hlen).
  destruct (slice_frame _ _ _ Hwf Hframe) as [_ Hwf1].
  assert (Hother : s_array (samples w) ≠ length h ∨ s_cap (samples w) = 0%nat).
  { destruct (decide (s_array (samples w) = length h)) as [Heq|]; [right|by left].
    destruct Hwf as [_ Hcap]. unfold backing in Hcap.
    rewrite Heq, (lookup_ge_None_2 h) in Hcap by lia. simpl in Hcap. lia. }
  assert (Hsame : h2 !! length h = h1 !! length h).
  { apply (Adds_others calls w h1 w' h2); [done|done|lia|done]. }
  rewrite <- Hcopy. unfold slice_elems, backing. subst snap. simpl.
  by rewrite Hsame.
Qed.

End WindowMore.

(** ** The RPC handlers *)

Section ServerMore.
Context `{SliceSorter}.

Lemma evaluate_spec (s : server.ExternalScalerServer) h result h' :
  slice_wf h (samples (server.window s)) →
  server.evaluate s h = (result, h') →
  result = EvaluatePersistence (slice_elems h (samples (server.window s)))
             (config.LagThreshold (server.config s))
             (config.SustainDuration (server.config s))
  ∧ heap_frame h h'
  ∧ slice_elems h' (samples (server.window s)) = slice_elems h (samples (server.window s))
  ∧ slice_wf h' (samples (server.window s)).
Proof.
  intros Hwf. unfold server.evaluate.
  destruct (Snapshot (server.window s) h) as [snap h1] eqn:Hsnap.
  intros [= <- <-].
  destruct (Snapshot_spec _ _ _ _ Hwf Hsnap) as (Hcopy & _ & Hframe & _).
  destruct (slice_frame _ _ _ Hwf Hframe) as [Hsame Hwf'].
  by rewrite Hcopy.
Qed.

(** X11: the RPCs only read the window: after [IsActive] or [GetMetrics]
    every array that was allocated is unchanged and the window shows the same
    samples, and the answers depend on nothing but those samples and the
    config, so [IsActive] asked again after either call answers the same. *)
Theorem RPCs_only_read_window (s : server.ExternalScalerServer) (h : heap) :
  slice_wf h (samples (server.window s)) →
  (∀ r h1, server.IsActive s h = (r, h1) →
     heap_frame h h1
     ∧ slice_elems h1 (samples (server.window s)) = slice_elems h (samples (server.window s))
     ∧ ∀ r' h2, server.IsActive s h1 = (r', h2) → r' = r)
  ∧ (∀ r h1, server.GetMetrics s h = (r, h1) →
       heap_frame h h1
       ∧ slice_elems h1 (samples (server.window s)) = slice_elems h (samples (server.window s))
       ∧ ∀ r' h2, server.IsActive s h1 = (r', h2) → r' = (server.IsActive s h).1).
Proof.
  intros Hwf. unfold server.IsActive, server.GetMetrics. split.
  - intros r h1.
    destruct (server.evaluate s h) as [res ha] eqn:He. intros [= <- <-].
    destruct (evaluate_spec _ _ _ _ Hwf He) as (-> & Hframe & Hsame & Hwf').
    split; [done|]. split; [done|]. intros r' h2.
    destruct (server.evaluate s ha) as [res2 hb] eqn:He2. intros [= <- <-].
    destruct (evaluate_spec _ _ _ _ Hwf' He2) as (-> & _). by rewrite Hsame.
  - intros r h1.
    destruct (server.evaluate s h) as [res ha] eqn:He. intros [= <- <-].
    destruct (evaluate_spec _ _ _ _ Hwf He) as (-> & Hframe & Hsame & Hwf').
    split; [done|]. split; [done|]. intros r' h2.
    destruct (server.evaluate s ha) as [res2 hb] eqn:He2. intros [= <- <-].
    destruct (evaluate_spec _ _ _ _ Hwf' He2) as (-> & _). by rewrite Hsame.
Qed.

(** X12: a window whose samples span less than the sustain duration inside
    every partition (an empty window, a window that has only begun to fill, a
    window whose duration is below the sustain duration) gives no signal:
    [IsActive] answers false and [GetMetrics] answers 0, both without
    error. *)
Theorem no_signal_from_short_window (s : server.ExternalScalerServer) (h : heap) :
  slice_wf h (samples (server.window s)) →
  Int64.in_range (config.SustainDuration (server.config s)) →
  (∀ x y, x ∈ slice_elems h (samples (server.window s)) →
          y ∈ slice_elems h (samples (server.window s)) →
          Partition x = Partition y →
          Timestamp y - Timestamp x < config.SustainDuration (server.config s)) →
  (server.IsActive s h).1 = (server.mkIsActiveResponse false, None)
  ∧ (server.GetMetrics s h).1
    = (server.mkGetMetricsResponse [server.mkMetricValue "persistent_kafka_lag" 0], None).
Proof.
  intros Hwf Hd Hshort. unfold server.IsActive, server.GetMetrics.
  destruct (server.evaluate s h) as [res h'] eqn:He.
  destruct (evaluate_spec _ _ _ _ Hwf He) as (-> & _).
  destruct Hd as [_ Hd].
  rewrite (short_span_not_persistent _ _ _ Hd Hshort). done.
Qed.

Lemma StreamIsActive_loop_spec (s : server.ExternalScalerServer) events sent outcome :
  server.StreamIsActive_loop s events = (sent, outcome) →
  ∃ ticks rest,
    events = ticks ++ rest
    ∧ Forall2 (λ ev resp, ∃ w h,
                 ev = server.StreamTick w h None
                 ∧ resp = (server.IsActive (server.mkServer w (server.config s)) h).1.1)
        ticks sent
    ∧ match rest with
      | [] => outcome = server.Running
      | server.StreamDone :: _ => outcome = server.Returned None
      | server.StreamTick _ _ (Some err) :: _ =>
          outcome = server.Returned (Some ("error sending stream: " ++ err)%string)
      | server.StreamTick _ _ None :: _ => False
      end.
Proof.
  revert sent outcome. induction events as [|ev events IH]; intros sent outcome; simpl.
  - intros [= <- <-]. by exists [], [].
  - destruct ev as [|w h [err|]].
    + intros [= <- <-]. by exists [], (server.StreamDone :: events).
    + intros [= <- <-]. by exists [], (server.StreamTick w h (Some err) :: events).
    + destruct (server.StreamIsActive_loop s events) as [sent' outcome'] eqn:Hrest.
      intros [= <- <-].
      destruct (IH _ _ eq_refl) as (ticks & rest & -> & Hsent & Hout).
      exists (server.StreamTick w h None :: ticks), rest.
      split; [done|]. split; [|done].
      constructor; [|done]. exists w, h. split; [done|].
      unfold server.IsActive.
      by destruct (server.evaluate (server.mkServer w (server.config s)) h).
Qed.

(** X13: with a positive sampling interval, [StreamIsActive] sends at every
    tick what [IsActive] answers on the window of that moment, repeating
    equal answers, until the stream's context is done (it returns nil) or a
    send fails (it returns the wrapped error); nothing is sent after that.
    With a non-positive sampling interval it panics in [time.NewTicker] before
    it sends anything. *)
Theorem StreamIsActive_sends_IsActive_per_tick (s : server.ExternalScalerServer)
    events sent outcome :
  server.StreamIsActive s events = (sent, outcome) →
  (config.SamplingInterval (server.config s) ≤ 0 →
   sent = [] ∧ outcome = server.Panicked)
  ∧ (0 < config.SamplingInterval (server.config s) →
     ∃ ticks rest,
       events = ticks ++ rest
       ∧ Forall2 (λ ev resp, ∃ w h,
                    ev = server.StreamTick w h None
                    ∧ resp = (server.IsActive (server.mkServer w (server.config s)) h).1.1)
           ticks sent
       ∧ match rest with
         | [] => outcome = server.Running
         | server.StreamDone :: _ => outcome = server.Returned None
         | server.StreamTick _ _ (Some err) :: _ =>
             outcome = server.Returned (Some ("error sending stream: " ++ err)%string)
         | server.StreamTick _ _ None :: _ => False
         end).
Proof.
  unfold server.StreamIsActive.
  destruct (Z.leb_spec (config.SamplingInterval (server.config s)) 0) as [Hle|Hgt].
  - intros [= <- <-]. split; [done|lia].
  - intros Hloop. split; [lia|]. intros _. by apply StreamIsActive_loop_spec.
Qed.

End ServerMore.

(** ** The scraper *)





Lemma FetchLag_stamps f now samples :
  kafka.FetchLag f now = inr samples →
  Forall (λ s, Timestamp s = now ∧ Topic s = kafka.topic f) samples.
Proof.
  intros Hok.
  destruct (FetchLag_success _ _ _ Hok)
    as (topicMeta & _ & _ & _ & _ & endOffsets & committedOffsets & _ & _ & _ & _ & _ & ->).
  apply Forall_forall. intros s Hs.
  by apply list_elem_of_fmap in Hs as (p & -> & _).
Qed.

Section ScraperProofs.
Variable growslack : nat → nat → nat.

(** X14: a fetch adds all the samples of the call or none: when [FetchLag]
    fails the window and the heap are left as they are; when it succeeds its
    samples, all stamped with the reading of the clock [FetchLag] took, are
    appended in one batch after the samples the window holds, and the
    eviction that follows reads the clock anew. *)
Theorem fetch_adds_all_or_nothing (s : scraper.MetricsScraper) call w h w' h' :
  slice_wf h (samples w) →
  scraper.fetch growslack s call w h = (w', h') →
  match kafka.FetchLag (fetcherAt s call) (scraper.fetchNow call) with
  | inl _ => w' = w ∧ h' = h
  | inr batch =>
      Forall (λ x, Timestamp x = scraper.fetchNow call) batch
      ∧ slice_elems h' (samples w')
        = retained (time.Add (scraper.addNow call) (Int64.wrap (- windowDuration w)))
            (slice_elems h (samples w) ++ batch)
      ∧ slice_wf h' (samples w')
      ∧ windowDuration w' = windowDuration w
  end.
Proof.
  intros Hwf. unfold scraper.fetch. fold (fetcherAt s call).
  destruct (kafka.FetchLag (fetcherAt s call) (scraper.fetchNow call))
    as [err|batch] eqn:Hfetch.
  - by intros [= <- <-].
  - intros Hadd. split.
    + eapply Forall_impl; [by apply FetchLag_stamps in Hfetch|]. by intros x [? _].
    + by apply (Add_spec growslack) in Hadd.
Qed.





End ScraperProofs.

(** ** FetchLag *)

Lemma offsetRequests_fold (topic : string) (partitions : list kafka.PartitionMeta) :
  fold_left (λ (m : gmap string (list kafka.OffsetRequest)) p,
               <[topic := default [] (m !! topic)
                          ++ [kafka.mkOffsetRequest (kafka.ID p) (-1)]]> m)
    partitions ∅
  = offsetRequestsFor topic partitions.
Proof.
  induction partitions as [|p l IH] using rev_ind; [done|].
  rewrite fold_left_app. simpl. rewrite IH. unfold offsetRequestsFor.
  destruct l as [|q l].
  - simpl. rewrite lookup_empty. simpl. by rewrite insert_empty.
  - rewrite lookup_singleton_eq. simpl. rewrite insert_singleton_eq.
    destruct (l ++ [p]) eqn:Hl; [by destruct l|]. rewrite <- Hl.
    by rewrite fmap_app.
Qed.

Lemma topicPartitions_fold (topic : string) (partitions : list kafka.PartitionMeta) :
  fold_left (λ (m : gmap string (list Z)) p,
               <[topic := default [] (m !! topic) ++ [kafka.ID p]]> m)
    partitions ∅
  = topicPartitionsFor topic partitions.
Proof.
  induction partitions as [|p l IH] using rev_ind; [done|].
  rewrite fold_left_app. simpl. rewrite IH. unfold topicPartitionsFor.
  destruct l as [|q l].
  - simpl. rewrite lookup_empty. simpl. by rewrite insert_empty.
  - rewrite lookup_singleton_eq. simpl. rewrite insert_singleton_eq.
    destruct (l ++ [p]) eqn:Hl; [by destruct l|]. rewrite <- Hl.
    by rewrite fmap_app.
Qed.

(** Everything a successful [FetchLag] went through. *)
Lemma FetchLag_exchange f now samples :
  kafka.FetchLag f now = inr samples →
  ∃ topicMeta listResp fetchResp endOffsets committedOffsets,
    exchange f topicMeta listResp fetchResp
    ∧ kafka.collectEndOffsets
        (default [] (kafka.lo_Topics listResp !! kafka.topic f)) ∅ = inr endOffsets
    ∧ kafka.collectCommittedOffsets
        (default [] (kafka.of_Topics fetchResp !! kafka.topic f)) ∅ = inr committedOffsets
    ∧ samples = map (kafka.sampleOf now (kafka.topic f) endOffsets committedOffsets)
                  (kafka.Partitions topicMeta).
Proof.
  unfold kafka.FetchLag.
  destruct (kafka.Metadata _ _) as [?|metaResp] eqn:Hmeta; [done|].
  destruct (kafka.Topics metaResp) as [|topicMeta others] eqn:Htopics; [done|].
  destruct (kafka.TopicError topicMeta) eqn:Herr; [done|].
  cbv zeta. rewrite offsetRequests_fold, topicPartitions_fold.
  destruct (kafka.ListOffsets _ _) as [?|listResp] eqn:Hlist; [done|].
  destruct (kafka.collectEndOffsets _ _) as [?|endOffsets] eqn:Hend; [done|].
  destruct (kafka.Metadata _ (kafka.mkMetadataRequest _ [])) as [?|coordinator] eqn:Hcoord;
    [done|].
  fold (coordinatorOf (kafka.client f) coordinator).
  destruct (kafka.OffsetFetch _ _) as [?|fetchResp] eqn:Hfetch; [done|].
  destruct (kafka.collectCommittedOffsets _ _) as [?|committedOffsets] eqn:Hcom; [done|].
  intros [= <-].
  exists topicMeta, listResp, fetchResp, endOffsets, committedOffsets.
  repeat split; try done. by exists metaResp, others, coordinator.
Qed.

Lemma collectEndOffsets_lookup pos m0 m p :
  kafka.collectEndOffsets pos m0 = inr m →
  m !! p = match lastEndOffset p pos with
           | Some po => Some (kafka.po_LastOffset po)
           | None => m0 !! p
           end.
Proof.
  revert m0. induction pos as [|po pos IH]; intros m0; simpl.
  - by intros [= <-].
  - destruct (kafka.po_Error po); [done|]. intros Hrest.
    rewrite (IH _ Hrest). unfold lastEndOffset. rewrite filter_cons.
    destruct (decide (kafka.po_Partition po = p)) as [<-|Hne].
    + rewrite last_cons. destruct (last _); [done|]. by rewrite lookup_insert_eq.
    + rewrite lookup_insert_ne by done. done.
Qed.

Lemma collectCommittedOffsets_lookup pos m0 m p :
  kafka.collectCommittedOffsets pos m0 = inr m →
  m !! p = match lastCommitted p pos with
           | Some po => Some (committedOf po)
           | None => m0 !! p
           end.
Proof.
  revert m0. induction pos as [|po pos IH]; intros m0; simpl.
  - by intros [= <-].
  - destruct (kafka.fp_Error po); [done|]. intros Hrest.
    rewrite (IH _ Hrest). unfold lastCommitted. rewrite filter_cons.
    destruct (decide (kafka.fp_Partition po = p)) as [<-|Hne].
    + rewrite last_cons. destruct (last _); [done|]. by rewrite lookup_insert_eq.
    + rewrite lookup_insert_ne by done. done.
Qed.

Lemma collectEndOffsets_no_error pos m0 m :
  kafka.collectEndOffsets pos m0 = inr m →
  Forall (λ po, kafka.po_Error po = None) pos.
Proof.
  revert m0. induction pos as [|po pos IH]; intros m0; simpl; [by constructor|].
  destruct (kafka.po_Error po) eqn:He; [done|]. intros Hrest.
  constructor; [done|]. by eapply IH.
Qed.

Lemma collectCommittedOffsets_no_error pos m0 m :
  kafka.collectCommittedOffsets pos m0 = inr m →
  Forall (λ po, kafka.fp_Error po = None) pos.
Proof.
  revert m0. induction pos as [|po pos IH]; intros m0; simpl; [by constructor|].
  destruct (kafka.fp_Error po) eqn:He; [done|]. intros Hrest.
  constructor; [done|]. by eapply IH.
Qed.

Lemma collectEndOffsets_first_error good bad rest e m0 :
  Forall (λ po, kafka.po_Error po = None) good →
  kafka.po_Error bad = Some e →
  kafka.collectEndOffsets (good ++ bad :: rest) m0
  = inl (kafka.OffsetErrorForPartition (kafka.po_Partition bad) e).
Proof.
  intros Hgood Hbad. revert m0.
  induction Hgood as [|po good Hpo _ IH]; intros m0; simpl.
  - by rewrite Hbad.
  - rewrite Hpo. apply IH.
Qed.

(** X16: a successful [FetchLag] returns one sample for each partition the
    metadata of the topic lists (the first topic entry of the response), in
    that order, and every sample carries the fetcher's topic and the one
    reading of the clock taken before the first call. *)
Theorem FetchLag_one_sample_per_partition f now samples :
  kafka.FetchLag f now = inr samples →
  ∃ topicMeta listResp fetchResp,
    exchange f topicMeta listResp fetchResp
    ∧ Partition <$> samples = kafka.ID <$> kafka.Partitions topicMeta
    ∧ Forall (λ s, Timestamp s = now ∧ Topic s = kafka.topic f) samples.
Proof.
  intros Hok.
  destruct (FetchLag_exchange _ _ _ Hok)
    as (topicMeta & listResp & fetchResp & endOffsets & committedOffsets
        & Hex & _ & _ & ->).
  exists topicMeta, listResp, fetchResp. split; [done|]. split.
  - rewrite <- list_fmap_compose. by apply list_fmap_ext.
  - apply Forall_forall. intros s Hs.
    by apply list_elem_of_fmap in Hs as (p & -> & _).
Qed.

(** X17: the end offset and the committed offset of a sample are those of
    the last entry for its partition in the broker's two answers, a negative
    committed offset counting as 0; a partition with no entry in an answer
    gets 0 for that offset. *)
Theorem FetchLag_offsets_from_last_entries f now samples :
  kafka.FetchLag f now = inr samples →
  ∃ topicMeta listResp fetchResp,
    exchange f topicMeta listResp fetchResp
    ∧ ∀ s, s ∈ samples →
        EndOffset s
        = from_option kafka.po_LastOffset 0
            (lastEndOffset (Partition s)
               (default [] (kafka.lo_Topics listResp !! kafka.topic f)))
        ∧ Offset s
          = from_option committedOf 0
              (lastCommitted (Partition s)
                 (default [] (kafka.of_Topics fetchResp !! kafka.topic f))).
Proof.
  intros Hok.
  destruct (FetchLag_exchange _ _ _ Hok)
    as (topicMeta & listResp & fetchResp & endOffsets & committedOffsets
        & Hex & Hend & Hcom & ->).
  exists topicMeta, listResp, fetchResp. split; [done|].
  intros s Hs. apply list_elem_of_fmap in Hs as (p & -> & _). simpl.
  rewrite (collectEndOffsets_lookup _ _ _ (kafka.ID p) Hend).
  rewrite (collectCommittedOffsets_lookup _ _ _ (kafka.ID p) Hcom).
  rewrite !lookup_empty.
  split; [by destruct (lastEndOffset _ _)|by destruct (lastCommitted _ _)].
Qed.

(** X18: [FetchLag] succeeds only if no entry of the topic in either answer
    carries an error, whatever partition the entry is for. *)
Theorem FetchLag_success_without_partition_errors f now samples :
  kafka.FetchLag f now = inr samples →
  ∃ topicMeta listResp fetchResp,
    exchange f topicMeta listResp fetchResp
    ∧ Forall (λ po, kafka.po_Error po = None)
        (default [] (kafka.lo_Topics listResp !! kafka.topic f))
    ∧ Forall (λ po, kafka.fp_Error po = None)
        (default [] (kafka.of_Topics fetchResp !! kafka.topic f)).
Proof.
  intros Hok.
  destruct (FetchLag_exchange _ _ _ Hok)
    as (topicMeta & listResp & fetchResp & endOffsets & committedOffsets
        & Hex & Hend & Hcom & _).
  exists topicMeta, listResp, fetchResp. split; [done|]. split.
  - by eapply collectEndOffsets_no_error.
  - by eapply collectCommittedOffsets_no_error.
Qed.

(** X19: when the answer on the latest offsets has an entry with an error,
    the whole call fails with the error of the first such entry and names
    its partition, be it a partition of the topic or not; no sample is
    returned for the partitions that were fine. *)
Theorem FetchLag_first_partition_error f now metaResp topicMeta others listResp
    good bad rest e :
  kafka.Metadata (kafka.client f)
    (kafka.mkMetadataRequest (kafka.Addr (kafka.client f)) [kafka.topic f])
  = inr metaResp →
  kafka.Topics metaResp = topicMeta :: others →
  kafka.TopicError topicMeta = None →
  kafka.ListOffsets (kafka.client f)
    (kafka.mkListOffsetsRequest (kafka.Addr (kafka.client f))
       (offsetRequestsFor (kafka.topic f) (kafka.Partitions topicMeta)))
  = inr listResp →
  default [] (kafka.lo_Topics listResp !! kafka.topic f) = good ++ bad :: rest →
  Forall (λ po, kafka.po_Error po = None) good →
  kafka.po_Error bad = Some e →
  kafka.FetchLag f now
  = inl (kafka.OffsetErrorForPartition (kafka.po_Partition bad) e).
Proof.
  intros Hmeta Htopics Herr Hlist Hentries Hgood Hbad.
  unfold kafka.FetchLag. rewrite Hmeta, Htopics, Herr. cbv zeta.
  rewrite offsetRequests_fold, Hlist, Hentries.
  by rewrite (collectEndOffsets_first_error _ _ _ e _ Hgood Hbad).
Qed.

(** ** ParseFromMetadata *)

Lemma getMetadataOrEnv_agree md1 env1 md2 env2 key envKey defaultVal :
  stringEntry md1 key = stringEntry md2 key →
  (stringEntry md1 key = None → config.Getenv env1 envKey = config.Getenv env2 envKey) →
  config.getMetadataOrEnv md1 env1 key envKey defaultVal
  = config.getMetadataOrEnv md2 env2 key envKey defaultVal.
Proof.
  rewrite !getMetadataOrEnv_lookup. unfold stringEntry.
  destruct (config.lookupMetadata md1 key) as [v1|],
           (config.lookupMetadata md2 key) as [v2|];
    repeat match goal with
           | |- context [bool_decide (?v ≠ EmptyString)] =>
               is_var v; destruct (bool_decide (v ≠ EmptyString))
           end;
    intros Heq Henv; try done; try (by injection Heq as ->);
    by rewrite (Henv eq_refl).
Qed.

Lemma parseOption_agree md1 env1 md2 env2 key envKey parse set cfg :
  config.lookupMetadata md1 key = config.lookupMetadata md2 key →
  (config.lookupMetadata md1 key = None →
   config.Getenv env1 envKey = config.Getenv env2 envKey) →
  parseOption md1 env1 key envKey parse set cfg
  = parseOption md2 env2 key envKey parse set cfg.
Proof.
  intros Hl He. unfold parseOption. rewrite <- Hl.
  destruct (config.lookupMetadata md1 key); [done|]. by rewrite (He eq_refl).
Qed.

(** X20: [ParseFromMetadata] reads seven options and nothing else, and the
    metadata shadows the environment: two calls give the same result, error
    included, when for each string option the non-empty metadata entries
    agree and, where there is none, the environment variables agree, and for
    each numeric option the metadata entries agree (an empty one counts) and,
    where there is none, the environment variables agree.  So unknown keys,
    a nil map for an empty one, an unset variable for an empty one, and any
    variable behind a metadata entry make no difference. *)
Theorem ParseFromMetadata_reads_only_its_options md1 env1 md2 env2 :
  Forall (λ '(key, envKey),
            stringEntry md1 key = stringEntry md2 key
            ∧ (stringEntry md1 key = None →
               config.Getenv env1 envKey = config.Getenv env2 envKey))
    stringOptions →
  Forall (λ '(key, envKey),
            config.lookupMetadata md1 key = config.lookupMetadata md2 key
            ∧ (config.lookupMetadata md1 key = None →
               config.Getenv env1 envKey = config.Getenv env2 envKey))
    numericOptions →
  config.ParseFromMetadata md1 env1 = config.ParseFromMetadata md2 env2.
Proof.
  unfold stringOptions, numericOptions. intros Hs Hn.
  apply Forall_cons in Hs as [[Hb Hb'] Hs].
  apply Forall_cons in Hs as [[Ht Ht'] Hs].
  apply Forall_cons in Hs as [[Hg Hg'] _].
  apply Forall_cons in Hn as [[H1 H1'] Hn].
  apply Forall_cons in Hn as [[H2 H2'] Hn].
  apply Forall_cons in Hn as [[H3 H3'] Hn].
  apply Forall_cons in Hn as [[H4 H4'] _].
  rewrite !ParseFromMetadata_steps.
  assert (Hbase : baseConfig md1 env1 = baseConfig md2 env2).
  { unfold baseConfig.
    rewrite (getMetadataOrEnv_agree md1 env1 md2 env2 _ _ _ Hb Hb').
    rewrite (getMetadataOrEnv_agree md1 env1 md2 env2 _ _ _ Ht Ht').
    by rewrite (getMetadataOrEnv_agree md1 env1 md2 env2 _ _ _ Hg Hg'). }
  rewrite Hbase.
  destruct (bool_decide (config.Topic _ = EmptyString)); [done|].
  destruct (bool_decide (config.ConsumerGroup _ = EmptyString)); [done|].
  generalize (baseConfig md2 env2). intros c. unfold numericSteps.
  rewrite (parseOption_agree md1 env1 md2 env2 _ _ _ _ c H1 H1').
  destruct (parseOption md2 env2 "lagThreshold" _ _ _ c) as [e|c1]; [done|]. simpl.
  rewrite (parseOption_agree md1 env1 md2 env2 _ _ _ _ c1 H2 H2').
  destruct (parseOption md2 env2 "sustainSeconds" _ _ _ c1) as [e|c2]; [done|]. simpl.
  rewrite (parseOption_agree md1 env1 md2 env2 _ _ _ _ c2 H3 H3').
  destruct (parseOption md2 env2 "samplingInterval" _ _ _ c2) as [e|c3]; [done|]. simpl.
  by rewrite (parseOption_agree md1 env1 md2 env2 _ _ _ _ c3 H4 H4').
Qed.

Lemma numericSteps_fields metadata env cfg cfg' :
  numericSteps metadata env cfg = inr cfg' →
  config.BootstrapServers cfg' = config.BootstrapServers cfg
  ∧ config.LagThreshold cfg'
    = numberOf strconv.ParseInt (resolved metadata env "lagThreshold" "LAG_THRESHOLD")
        (config.LagThreshold cfg)
  ∧ config.WindowSize cfg'
    = numberOf strconv.Atoi (resolved metadata env "windowSize" "WINDOW_SIZE")
        (config.WindowSize cfg).
Proof.
  unfold numericSteps. intros Hsteps.
  apply bind_inr in Hsteps as (c1 & H1 & Hsteps).
  apply bind_inr in Hsteps as (c2 & H2 & Hsteps).
  apply bind_inr in Hsteps as (c3 & H3 & Hsteps).
  apply bind_inr in Hsteps as (c4 & H4 & [= <-]).
  apply parseOption_ok in H1, H2, H3, H4. unfold numberOf.
  destruct H1 as [[-> ->] | (v1 & n1 & -> & Hp1 & ->)];
  destruct H2 as [[_ ->] | (v2 & n2 & _ & _ & ->)];
  destruct H3 as [[_ ->] | (v3 & n3 & _ & _ & ->)];
  destruct H4 as [[-> ->] | (v4 & n4 & -> & Hp4 & ->)];
    rewrite ?Hp1, ?Hp4; simpl; done.
Qed.

(** X21: in a config [ParseFromMetadata] returns, every field is decided by
    its own option alone.  The three strings are what [getMetadataOrEnv]
    resolves, none of them empty, the brokers being [localhost:9092] when
    nothing is given; each number is the resolved string parsed, seconds
    turned into nanoseconds in int64 arithmetic, and the default (500, 120 s,
    10 s, 30) when the option is resolved nowhere. *)
Theorem ParseFromMetadata_fields metadata env cfg :
  config.ParseFromMetadata metadata env = inr cfg →
  config.BootstrapServers cfg
  = config.getMetadataOrEnv metadata env "bootstrapServers" "KAFKA_BROKERS" "localhost:9092"
  ∧ config.Topic cfg = config.getMetadataOrEnv metadata env "topic" "KAFKA_TOPIC" ""
  ∧ config.ConsumerGroup cfg
    = config.getMetadataOrEnv metadata env "consumerGroup" "KAFKA_GROUP_ID" ""
  ∧ config.BootstrapServers cfg ≠ EmptyString
  ∧ config.Topic cfg ≠ EmptyString
  ∧ config.ConsumerGroup cfg ≠ EmptyString
  ∧ config.LagThreshold cfg
    = numberOf strconv.ParseInt (resolved metadata env "lagThreshold" "LAG_THRESHOLD") 500
  ∧ config.SustainDuration cfg
    = secondsOf (resolved metadata env "sustainSeconds" "SUSTAIN_SECONDS")
        (120 * time.Second)
  ∧ config.SamplingInterval cfg
    = secondsOf (resolved metadata env "samplingInterval" "SAMPLING_INTERVAL")
        (10 * time.Second)
  ∧ config.WindowSize cfg
    = numberOf strconv.Atoi (resolved metadata env "windowSize" "WINDOW_SIZE") 30.
Proof.
  rewrite ParseFromMetadata_steps.
  destruct (bool_decide_reflect (config.Topic (baseConfig metadata env) = EmptyString))
    as [?|Htopic]; [done|].
  destruct (bool_decide_reflect
              (config.ConsumerGroup (baseConfig metadata env) = EmptyString))
    as [?|Hgroup]; [done|].
  intros Hsteps.
  destruct (numericSteps_fields _ _ _ _ Hsteps) as (Hb & Hlag & Hwin).
  destruct (numericSteps_ok _ _ _ _ Hsteps)
    as (_ & _ & _ & _ & Hsus & Hsam & Ht & Hg).
  rewrite Hb, Ht, Hg, Hlag, Hsus, Hsam, Hwin. simpl in *.
  repeat split; try done.
  rewrite getMetadataOrEnv_lookup.
  destruct (config.lookupMetadata metadata "bootstrapServers") as [v|].
  - destruct (bool_decide_reflect (v ≠ EmptyString)); [done|].
    by destruct (bool_decide_reflect
                   (config.Getenv env "KAFKA_BROKERS" ≠ EmptyString)).
  - by destruct (bool_decide_reflect
                   (config.Getenv env "KAFKA_BROKERS" ≠ EmptyString)).
Qed.

(** ** main *)

Section MainMore.
Context `{SliceSorter}.

(** X22: nothing between the environment and the tickers looks at the sign
    of the sampling interval.  When [SAMPLING_INTERVAL] parses to a number of
    seconds that is zero or negative, [main] still wires the process, and
    then the scraper's [Run] panics in [time.NewTicker] before its first
    fetch, the window untouched, and so does every [StreamIsActive]. *)
Theorem nonpositive_sampling_interval_panics env metadata listOffsets offsetFetch
    proc n :
  main.wire env metadata listOffsets offsetFetch = inr proc →
  strconv.ParseInt (config.Getenv env "SAMPLING_INTERVAL") = inr n →
  Int64.mul n time.Second ≤ 0 →
  (∀ growslack first events h,
     scraper.Run growslack (main.scr proc) first events (main.window proc) h
     = (scraper.Panicked, (main.window proc, h)))
  ∧ (∀ events,
       server.StreamIsActive (main.srv proc) events = ([], server.Panicked)).
Proof.
  intros Hwire Hparse Hle. unfold main.wire in Hwire.
  destruct (config.ParseFromEnv env) as [?|cfg] eqn:Hcfg; [done|].
  injection Hwire as <-.
  assert (Hinterval : (config.SamplingInterval cfg <=? 0) = true).
  { apply Z.leb_le. unfold config.ParseFromEnv in Hcfg.
    rewrite ParseFromMetadata_steps in Hcfg.
    destruct (bool_decide _); [done|]. destruct (bool_decide _); [done|].
    destruct (numericSteps_ok _ _ _ _ Hcfg) as (_ & _ & _ & _ & _ & -> & _).
    unfold resolved. simpl config.lookupMetadata. cbv iota.
    destruct (bool_decide_reflect
                (config.Getenv env "SAMPLING_INTERVAL" ≠ EmptyString)) as [_|Hempty].
    - unfold secondsOf. by rewrite Hparse.
    - apply dec_stable in Hempty. rewrite Hempty in Hparse. done. }
  split.
  - intros growslack first events h. unfold scraper.Run. simpl.
    by rewrite Hinterval.
  - intros events. unfold server.StreamIsActive. simpl. by rewrite Hinterval.
Qed.

End MainMore.

(** * The further properties on concrete inputs *)

Lemma Forall_pairs {A} (P : A → A → Prop) (l : list A) :
  Forall (λ x, Forall (P x) l) l → ∀ x y, x ∈ l → y ∈ l → P x y.
Proof.
  intros Hall x y Hx Hy. rewrite Forall_forall in Hall.
  specialize (Hall x Hx). rewrite Forall_forall in Hall. by apply Hall.
Qed.

Ltac by_decide := refine (bool_decide_unpack _ _); by vm_compute.

Lemma EvaluatePersistence_or_across_partitions_witness :
  Int64.in_range twoMinutes
  ∧ (Persistent (EvaluatePersistence atThreshold 500 twoMinutes) = true
     ↔ ∃ p, Persistent (EvaluatePersistence (samplesOf p atThreshold) 500 twoMinutes)
            = true).
Proof.
  assert (Hd : Int64.in_range twoMinutes) by (by vm_compute).
  split; [exact Hd|].
  exact (EvaluatePersistence_or_across_partitions atThreshold 500 twoMinutes Hd).
Defined.

Lemma EvaluatePersistence_monotone_witness :
  Int64.in_range twoMinutes
  ∧ 400 ≤ 500
  ∧ tenSeconds ≤ twoMinutes
  ∧ Persistent (EvaluatePersistence atThreshold 500 twoMinutes) = true
  ∧ Persistent (EvaluatePersistence atThreshold 400 tenSeconds) = true.
Proof.
  assert (Hd : Int64.in_range twoMinutes) by (by vm_compute).
  assert (Ht : 400 ≤ 500) by lia.
  assert (Hd' : tenSeconds ≤ twoMinutes) by (by vm_compute).
  assert (Hp : Persistent (EvaluatePersistence atThreshold 500 twoMinutes) = true)
    by (by vm_compute).
  split; [exact Hd|]. split; [exact Ht|]. split; [exact Hd'|]. split; [exact Hp|].
  exact (EvaluatePersistence_monotone atThreshold 500 twoMinutes 400 tenSeconds
           Hd Ht Hd' Hp).
Defined.

Lemma EvaluatePersistence_below_threshold_witness :
  Forall (λ s, Lag s < 501) latestSamples
  ∧ Persistent (EvaluatePersistence latestSamples 501 0) = false.
Proof.
  assert (Hbelow : Forall (λ s, Lag s < 501) latestSamples) by by_decide.
  split; [exact Hbelow|].
  exact (EvaluatePersistence_below_threshold latestSamples 501 0 Hbelow).
Defined.

Lemma EvaluatePersistence_short_span_witness :
  Int64.in_range twoMinutes
  ∧ (∀ x y, x ∈ shortBurst → y ∈ shortBurst → Partition x = Partition y →
            Timestamp y - Timestamp x < twoMinutes)
  ∧ Persistent (EvaluatePersistence shortBurst 500 twoMinutes) = false.
Proof.
  assert (Hd : Int64.in_range twoMinutes) by (by vm_compute).
  assert (Hspan : ∀ x y, x ∈ shortBurst → y ∈ shortBurst → Partition x = Partition y →
                         Timestamp y - Timestamp x < twoMinutes).
  { apply (Forall_pairs (λ x y, Partition x = Partition y →
                                Timestamp y - Timestamp x < twoMinutes)).
    by_decide. }
  split; [exact Hd|]. split; [exact Hspan|].
  exact (EvaluatePersistence_short_span shortBurst 500 twoMinutes Hd Hspan).
Defined.

Lemma EvaluatePersistence_sustained_partition_witness :
  Int64.in_range twoMinutes
  ∧ Forall (λ s, 500 ≤ Lag s) (samplesOf 0 atThreshold)
  ∧ mkLagSample 0 "" 0 500 0 0 ∈ samplesOf 0 atThreshold
  ∧ mkLagSample twoMinutes "" 0 500 0 0 ∈ samplesOf 0 atThreshold
  ∧ twoMinutes ≤ Timestamp (mkLagSample twoMinutes "" 0 500 0 0)
                 - Timestamp (mkLagSample 0 "" 0 500 0 0)
  ∧ Persistent (EvaluatePersistence atThreshold 500 twoMinutes) = true.
Proof.
  assert (Hd : Int64.in_range twoMinutes) by (by vm_compute).
  assert (Hall : Forall (λ s, 500 ≤ Lag s) (samplesOf 0 atThreshold)) by by_decide.
  assert (Hx : mkLagSample 0 "" 0 500 0 0 ∈ samplesOf 0 atThreshold)
    by (vm_compute; repeat constructor).
  assert (Hy : mkLagSample twoMinutes "" 0 500 0 0 ∈ samplesOf 0 atThreshold)
    by (vm_compute; repeat constructor).
  assert (Hspan : twoMinutes ≤ Timestamp (mkLagSample twoMinutes "" 0 500 0 0)
                               - Timestamp (mkLagSample 0 "" 0 500 0 0))
    by (by vm_compute).
  split; [exact Hd|]. split; [exact Hall|]. split; [exact Hx|]. split; [exact Hy|].
  split; [exact Hspan|].
  exact (EvaluatePersistence_sustained_partition atThreshold 500 twoMinutes 0 _ _
           Hd Hall Hx Hy Hspan).
Defined.

Lemma EvaluatePersistence_order_insensitive_witness :
  latestSamples ≡ₚ reverse latestSamples
  ∧ (∀ p, NoDup (Timestamp <$> samplesOf p latestSamples))
  ∧ EvaluatePersistence (reverse latestSamples) 500 twoMinutes
    = EvaluatePersistence latestSamples 500 twoMinutes.
Proof.
  assert (Hperm : latestSamples ≡ₚ reverse latestSamples)
    by (by rewrite reverse_Permutation).
  assert (Hnodup : ∀ p, NoDup (Timestamp <$> samplesOf p latestSamples)).
  { intros p. unfold samplesOf, latestSamples.
    destruct (decide (p = 0)) as [->|H0]; [by_decide|].
    destruct (decide (p = 1)) as [->|H1]; [by_decide|].
    rewrite filter_none; [constructor|].
    intros x Hx. repeat (apply elem_of_cons in Hx as [->|Hx]); simpl; try congruence.
    by apply elem_of_nil in Hx. }
  split; [exact Hperm|]. split; [exact Hnodup|].
  exact (EvaluatePersistence_order_insensitive latestSamples (reverse latestSamples)
           500 twoMinutes Hperm Hnodup).
Defined.

Lemma Len_matches_Snapshot_witness :
  Adds noSlack earlierCalls (NewSlidingWindow 5 time.Second) [] = (windowBefore, heapBefore)
  ∧ Snapshot windowBefore heapBefore
    = (mkSlice 1 0 1 1, heapBefore ++ [[sampleAt (clock - 20 * time.Second) 50]])
  ∧ Len windowBefore
    = length (slice_elems (heapBefore ++ [[sampleAt (clock - 20 * time.Second) 50]])
                (mkSlice 1 0 1 1))
  ∧ slice_elems (heapBefore ++ [[sampleAt (clock - 20 * time.Second) 50]])
      (mkSlice 1 0 1 1)
    = slice_elems heapBefore (samples windowBefore).
Proof.
  assert (Hcalls : Adds noSlack earlierCalls (NewSlidingWindow 5 time.Second) []
                   = (windowBefore, heapBefore)) by (by vm_compute).
  assert (Hsnap : Snapshot windowBefore heapBefore
                  = (mkSlice 1 0 1 1,
                     heapBefore ++ [[sampleAt (clock - 20 * time.Second) 50]]))
    by (by vm_compute).
  split; [exact Hcalls|]. split; [exact Hsnap|].
  exact (Len_matches_Snapshot noSlack earlierCalls 5 time.Second [] _ _ _ _
           Hcalls Hsnap).
Defined.



Lemma Snapshot_survives_later_Adds_witness :
  slice_wf oneSampleHeap (samples oneSampleWindow)
  ∧ Snapshot oneSampleWindow oneSampleHeap
    = (mkSlice 1 0 1 1, [[sampleAt clock 100]; [sampleAt clock 100]])
  ∧ Adds noSlack laterCalls oneSampleWindow [[sampleAt clock 100]; [sampleAt clock 100]]
    = ((Adds noSlack laterCalls oneSampleWindow
          [[sampleAt clock 100]; [sampleAt clock 100]]).1,
       (Adds noSlack laterCalls oneSampleWindow
          [[sampleAt clock 100]; [sampleAt clock 100]]).2)
  ∧ slice_elems
      (Adds noSlack laterCalls oneSampleWindow
         [[sampleAt clock 100]; [sampleAt clock 100]]).2
      (mkSlice 1 0 1 1)
    = slice_elems oneSampleHeap (samples oneSampleWindow).
Proof.
  assert (Hwf : slice_wf oneSampleHeap (samples oneSampleWindow)) by (by vm_compute).
  assert (Hsnap : Snapshot oneSampleWindow oneSampleHeap
                  = (mkSlice 1 0 1 1, [[sampleAt clock 100]; [sampleAt clock 100]]))
    by (by vm_compute).
  assert (Hadds : Adds noSlack laterCalls oneSampleWindow
                    [[sampleAt clock 100]; [sampleAt clock 100]]
                  = ((Adds noSlack laterCalls oneSampleWindow
                        [[sampleAt clock 100]; [sampleAt clock 100]]).1,
                     (Adds noSlack laterCalls oneSampleWindow
                        [[sampleAt clock 100]; [sampleAt clock 100]]).2))
    by (by vm_compute).
  split; [exact Hwf|]. split; [exact Hsnap|]. split; [exact Hadds|].
  exact (Snapshot_survives_later_Adds noSlack oneSampleWindow oneSampleHeap _ _
           laterCalls _ _ Hwf Hsnap Hadds).
Defined.

Lemma RPCs_only_read_window_witness :
  slice_wf busyHeap (samples (server.window busyServer))
  ∧ (∀ r h1, server.IsActive busyServer busyHeap = (r, h1) →
       heap_frame busyHeap h1
       ∧ slice_elems h1 (samples (server.window busyServer))
         = slice_elems busyHeap (samples (server.window busyServer))
       ∧ ∀ r' h2, server.IsActive busyServer h1 = (r', h2) → r' = r)
  ∧ (∀ r h1, server.GetMetrics busyServer busyHeap = (r, h1) →
       heap_frame busyHeap h1
       ∧ slice_elems h1 (samples (server.window busyServer))
         = slice_elems busyHeap (samples (server.window busyServer))
       ∧ ∀ r' h2, server.IsActive busyServer h1 = (r', h2) →
           r' = (server.IsActive busyServer busyHeap).1).
Proof.
  assert (Hwf : slice_wf busyHeap (samples (server.window busyServer)))
    by (by vm_compute).
  split; [exact Hwf|].
  exact (RPCs_only_read_window busyServer busyHeap Hwf).
Defined.

Lemma no_signal_from_short_window_witness :
  slice_wf burstHeap (samples (server.window burstServer))
  ∧ Int64.in_range (config.SustainDuration (server.config burstServer))
  ∧ (∀ x y, x ∈ slice_elems burstHeap (samples (server.window burstServer)) →
            y ∈ slice_elems burstHeap (samples (server.window burstServer)) →
            Partition x = Partition y →
            Timestamp y - Timestamp x
            < config.SustainDuration (server.config burstServer))
  ∧ (server.IsActive burstServer burstHeap).1 = (server.mkIsActiveResponse false, None)
  ∧ (server.GetMetrics burstServer burstHeap).1
    = (server.mkGetMetricsResponse [server.mkMetricValue "persistent_kafka_lag" 0],
       None).
Proof.
  assert (Hwf : slice_wf burstHeap (samples (server.window burstServer)))
    by (by vm_compute).
  assert (Hd : Int64.in_range (config.SustainDuration (server.config burstServer)))
    by (by vm_compute).
  assert (Hspan : ∀ x y,
            x ∈ slice_elems burstHeap (samples (server.window burstServer)) →
            y ∈ slice_elems burstHeap (samples (server.window burstServer)) →
            Partition x = Partition y →
            Timestamp y - Timestamp x
            < config.SustainDuration (server.config burstServer)).
  { apply (Forall_pairs
             (λ x y, Partition x = Partition y →
                     Timestamp y - Timestamp x
                     < config.SustainDuration (server.config burstServer))).
    by_decide. }
  split; [exact Hwf|]. split; [exact Hd|]. split; [exact Hspan|].
  exact (no_signal_from_short_window burstServer burstHeap Hwf Hd Hspan).
Defined.

Lemma StreamIsActive_sends_IsActive_per_tick_witness :
  server.StreamIsActive busyServer
    [server.StreamTick (server.window burstServer) burstHeap None;
     server.StreamTick (server.window busyServer) busyHeap None;
     server.StreamDone;
     server.StreamTick (server.window busyServer) busyHeap None]
  = ([server.mkIsActiveResponse false; server.mkIsActiveResponse true],
     server.Returned None)
  ∧ (config.SamplingInterval (server.config busyServer) ≤ 0 →
     [server.mkIsActiveResponse false; server.mkIsActiveResponse true] = []
     ∧ server.Returned None = server.Panicked)
  ∧ (0 < config.SamplingInterval (server.config busyServer) →
     ∃ ticks rest,
       [server.StreamTick (server.window burstServer) burstHeap None;
        server.StreamTick (server.window busyServer) busyHeap None;
        server.StreamDone;
        server.StreamTick (server.window busyServer) busyHeap None]
       = ticks ++ rest
       ∧ Forall2 (λ ev resp, ∃ w h,
                    ev = server.StreamTick w h None
                    ∧ resp = (server.IsActive
                                (server.mkServer w (server.config busyServer)) h).1.1)
           ticks [server.mkIsActiveResponse false; server.mkIsActiveResponse true]
       ∧ match rest with
         | [] => server.Returned None = server.Running
         | server.StreamDone :: _ => server.Returned None = server.Returned None
         | server.StreamTick _ _ (Some err) :: _ =>
             server.Returned None
             = server.Returned (Some ("error sending stream: " ++ err)%string)
         | server.StreamTick _ _ None :: _ => False
         end).
Proof.
  assert (Hstream : server.StreamIsActive busyServer
            [server.StreamTick (server.window burstServer) burstHeap None;
             server.StreamTick (server.window busyServer) busyHeap None;
             server.StreamDone;
             server.StreamTick (server.window busyServer) busyHeap None]
          = ([server.mkIsActiveResponse false; server.mkIsActiveResponse true],
             server.Returned None)) by (by vm_compute).
  split; [exact Hstream|].
  exact (StreamIsActive_sends_IsActive_per_tick busyServer _ _ _ Hstream).
Defined.

Lemma fetch_adds_all_or_nothing_witness :
  slice_wf [] (samples fiveSecondWindow)
  ∧ scraper.fetch noSlack ordersScraper firstCall fiveSecondWindow []
    = (mkSlidingWindow (mkSlice 0 0 2 2) (5 * time.Second), [ordersSamples])
  ∧ match kafka.FetchLag (fetcherAt ordersScraper firstCall)
            (scraper.fetchNow firstCall) with
    | inl _ =>
        mkSlidingWindow (mkSlice 0 0 2 2) (5 * time.Second) = fiveSecondWindow
        ∧ [ordersSamples] = []
    | inr batch =>
        Forall (λ x, Timestamp x = scraper.fetchNow firstCall) batch
        ∧ slice_elems [ordersSamples] (mkSlice 0 0 2 2)
          = retained
              (time.Add (scraper.addNow firstCall)
                 (Int64.wrap (- windowDuration fiveSecondWindow)))
              (slice_elems [] (samples fiveSecondWindow) ++ batch)
        ∧ slice_wf [ordersSamples] (mkSlice 0 0 2 2)
        ∧ 5 * time.Second = windowDuration fiveSecondWindow
    end.
Proof.
  assert (Hwf : slice_wf [] (samples fiveSecondWindow)) by (by vm_compute).
  assert (Hfetch : scraper.fetch noSlack ordersScraper firstCall fiveSecondWindow []
                   = (mkSlidingWindow (mkSlice 0 0 2 2) (5 * time.Second),
                      [ordersSamples])) by (by vm_compute).
  split; [exact Hwf|]. split; [exact Hfetch|].
  exact (fetch_adds_all_or_nothing noSlack ordersScraper firstCall fiveSecondWindow []
           _ _ Hwf Hfetch).
Defined.


Lemma FetchLag_one_sample_per_partition_witness :
  kafka.FetchLag ordersFetcher clock = inr ordersSamples
  ∧ ∃ topicMeta listResp fetchResp,
      exchange ordersFetcher topicMeta listResp fetchResp
      ∧ Partition <$> ordersSamples = kafka.ID <$> kafka.Partitions topicMeta
      ∧ Forall (λ s, Timestamp s = clock ∧ Topic s = kafka.topic ordersFetcher)
          ordersSamples.
Proof.
  assert (Hok : kafka.FetchLag ordersFetcher clock = inr ordersSamples)
    by (by vm_compute).
  split; [exact Hok|].
  exact (FetchLag_one_sample_per_partition ordersFetcher clock ordersSamples Hok).
Defined.

Lemma FetchLag_offsets_from_last_entries_witness :
  kafka.FetchLag ordersFetcher clock = inr ordersSamples
  ∧ ∃ topicMeta listResp fetchResp,
      exchange ordersFetcher topicMeta listResp fetchResp
      ∧ ∀ s, s ∈ ordersSamples →
          EndOffset s
          = from_option kafka.po_LastOffset 0
              (lastEndOffset (Partition s)
                 (default [] (kafka.lo_Topics listResp !! kafka.topic ordersFetcher)))
          ∧ Offset s
            = from_option committedOf 0
                (lastCommitted (Partition s)
                   (default [] (kafka.of_Topics fetchResp !! kafka.topic ordersFetcher))).
Proof.
  assert (Hok : kafka.FetchLag ordersFetcher clock = inr ordersSamples)
    by (by vm_compute).
  split; [exact Hok|].
  exact (FetchLag_offsets_from_last_entries ordersFetcher clock ordersSamples Hok).
Defined.

Lemma FetchLag_success_without_partition_errors_witness :
  kafka.FetchLag ordersFetcher clock = inr ordersSamples
  ∧ ∃ topicMeta listResp fetchResp,
      exchange ordersFetcher topicMeta listResp fetchResp
      ∧ Forall (λ po, kafka.po_Error po = None)
          (default [] (kafka.lo_Topics listResp !! kafka.topic ordersFetcher))
      ∧ Forall (λ po, kafka.fp_Error po = None)
          (default [] (kafka.of_Topics fetchResp !! kafka.topic ordersFetcher)).
Proof.
  assert (Hok : kafka.FetchLag ordersFetcher clock = inr ordersSamples)
    by (by vm_compute).
  split; [exact Hok|].
  exact (FetchLag_success_without_partition_errors ordersFetcher clock ordersSamples
           Hok).
Defined.

Lemma FetchLag_first_partition_error_witness :
  kafka.Metadata (kafka.client staleFetcher)
    (kafka.mkMetadataRequest (kafka.Addr (kafka.client staleFetcher))
       [kafka.topic staleFetcher])
  = inr (kafka.mkMetadataResponse
           [kafka.mkTopicMeta "orders" None
              [kafka.mkPartitionMeta 0; kafka.mkPartitionMeta 1]]
           [kafka.mkBroker "localhost" 9092])
  ∧ kafka.TopicError
      (kafka.mkTopicMeta "orders" None
         [kafka.mkPartitionMeta 0; kafka.mkPartitionMeta 1]) = None
  ∧ kafka.ListOffsets (kafka.client staleFetcher)
      (kafka.mkListOffsetsRequest (kafka.Addr (kafka.client staleFetcher))
         (offsetRequestsFor (kafka.topic staleFetcher)
            [kafka.mkPartitionMeta 0; kafka.mkPartitionMeta 1]))
    = inr (kafka.mkListOffsetsResponse
             {[ "orders"%string :=
                  [kafka.mkPartitionOffsets 0 100 None;
                   kafka.mkPartitionOffsets 7 0 (Some "not leader"%string);
                   kafka.mkPartitionOffsets 1 50 None] ]})
  ∧ kafka.po_Error (kafka.mkPartitionOffsets 7 0 (Some "not leader"%string))
    = Some "not leader"%string
  ∧ kafka.FetchLag staleFetcher clock
    = inl (kafka.OffsetErrorForPartition 7 "not leader").
Proof.
  pose (topicMeta := kafka.mkTopicMeta "orders" None
                       [kafka.mkPartitionMeta 0; kafka.mkPartitionMeta 1]).
  pose (metaResp := kafka.mkMetadataResponse [topicMeta]
                      [kafka.mkBroker "localhost" 9092]).
  pose (good := [kafka.mkPartitionOffsets 0 100 None]).
  pose (bad := kafka.mkPartitionOffsets 7 0 (Some "not leader"%string)).
  pose (rest := [kafka.mkPartitionOffsets 1 50 None]).
  pose (listResp := kafka.mkListOffsetsResponse
                      {[ "orders"%string := good ++ bad :: rest ]}).
  assert (Hmeta : kafka.Metadata (kafka.client staleFetcher)
                    (kafka.mkMetadataRequest (kafka.Addr (kafka.client staleFetcher))
                       [kafka.topic staleFetcher])
                  = inr metaResp) by reflexivity.
  assert (Htopics : kafka.Topics metaResp = topicMeta :: []) by reflexivity.
  assert (Herr : kafka.TopicError topicMeta = None) by reflexivity.
  assert (Hlist : kafka.ListOffsets (kafka.client staleFetcher)
                    (kafka.mkListOffsetsRequest (kafka.Addr (kafka.client staleFetcher))
                       (offsetRequestsFor (kafka.topic staleFetcher)
                          (kafka.Partitions topicMeta)))
                  = inr listResp) by reflexivity.
  assert (Hentries : default [] (kafka.lo_Topics listResp !! kafka.topic staleFetcher)
                     = good ++ bad :: rest) by (by vm_compute).
  assert (Hgood : Forall (λ po, kafka.po_Error po = None) good)
    by (by repeat constructor).
  assert (Hbad : kafka.po_Error bad = Some "not leader"%string) by reflexivity.
  split; [exact Hmeta|]. split; [exact Herr|]. split; [exact Hlist|].
  split; [exact Hbad|].
  exact (FetchLag_first_partition_error staleFetcher clock metaResp topicMeta []
           listResp good bad rest "not leader" Hmeta Htopics Herr Hlist Hentries
           Hgood Hbad).
Defined.

Lemma ParseFromMetadata_reads_only_its_options_witness :
  Forall (λ '(key, envKey),
            stringEntry noisyMetadata key = stringEntry plainMetadata key
            ∧ (stringEntry noisyMetadata key = None →
               config.Getenv noisyEnv envKey = config.Getenv plainEnv envKey))
    stringOptions
  ∧ Forall (λ '(key, envKey),
              config.lookupMetadata noisyMetadata key
              = config.lookupMetadata plainMetadata key
              ∧ (config.lookupMetadata noisyMetadata key = None →
                 config.Getenv noisyEnv envKey = config.Getenv plainEnv envKey))
      numericOptions
  ∧ config.ParseFromMetadata noisyMetadata noisyEnv
    = config.ParseFromMetadata plainMetadata plainEnv.
Proof.
  assert (Hs : Forall (λ '(key, envKey),
                  stringEntry noisyMetadata key = stringEntry plainMetadata key
                  ∧ (stringEntry noisyMetadata key = None →
                     config.Getenv noisyEnv envKey = config.Getenv plainEnv envKey))
                 stringOptions)
    by (repeat (constructor; [by vm_compute|]); constructor).
  assert (Hn : Forall (λ '(key, envKey),
                  config.lookupMetadata noisyMetadata key
                  = config.lookupMetadata plainMetadata key
                  ∧ (config.lookupMetadata noisyMetadata key = None →
                     config.Getenv noisyEnv envKey = config.Getenv plainEnv envKey))
                 numericOptions)
    by (repeat (constructor; [by vm_compute|]); constructor).
  split; [exact Hs|]. split; [exact Hn|].
  exact (ParseFromMetadata_reads_only_its_options noisyMetadata noisyEnv
           plainMetadata plainEnv Hs Hn).
Defined.

Lemma ParseFromMetadata_fields_witness :
  config.ParseFromMetadata noisyMetadata noisyEnv = inr noisyConfig
  ∧ config.BootstrapServers noisyConfig
    = config.getMetadataOrEnv noisyMetadata noisyEnv
        "bootstrapServers" "KAFKA_BROKERS" "localhost:9092"
  ∧ config.Topic noisyConfig
    = config.getMetadataOrEnv noisyMetadata noisyEnv "topic" "KAFKA_TOPIC" ""
  ∧ config.ConsumerGroup noisyConfig
    = config.getMetadataOrEnv noisyMetadata noisyEnv "consumerGroup" "KAFKA_GROUP_ID" ""
  ∧ config.BootstrapServers noisyConfig ≠ EmptyString
  ∧ config.Topic noisyConfig ≠ EmptyString
  ∧ config.ConsumerGroup noisyConfig ≠ EmptyString
  ∧ config.LagThreshold noisyConfig
    = numberOf strconv.ParseInt
        (resolved noisyMetadata noisyEnv "lagThreshold" "LAG_THRESHOLD") 500
  ∧ config.SustainDuration noisyConfig
    = secondsOf (resolved noisyMetadata noisyEnv "sustainSeconds" "SUSTAIN_SECONDS")
        (120 * time.Second)
  ∧ config.SamplingInterval noisyConfig
    = secondsOf (resolved noisyMetadata noisyEnv "samplingInterval" "SAMPLING_INTERVAL")
        (10 * time.Second)
  ∧ config.WindowSize noisyConfig
    = numberOf strconv.Atoi (resolved noisyMetadata noisyEnv "windowSize" "WINDOW_SIZE")
        30.
Proof.
  assert (Hok : config.ParseFromMetadata noisyMetadata noisyEnv = inr noisyConfig)
    by (by vm_compute).
  split; [exact Hok|].
  exact (ParseFromMetadata_fields noisyMetadata noisyEnv noisyConfig Hok).
Defined.

Lemma nonpositive_sampling_interval_panics_witness :
  main.wire zeroIntervalEnv (kafka.Metadata ordersBroker)
    (kafka.ListOffsets ordersBroker) (kafka.OffsetFetch ordersBroker)
  = inr zeroIntervalProcess
  ∧ strconv.ParseInt (config.Getenv zeroIntervalEnv "SAMPLING_INTERVAL") = inr 0
  ∧ Int64.mul 0 time.Second ≤ 0
  ∧ (∀ growslack first events h,
       scraper.Run growslack (main.scr zeroIntervalProcess) first events
         (main.window zeroIntervalProcess) h
       = (scraper.Panicked, (main.window zeroIntervalProcess, h)))
  ∧ (∀ events,
       server.StreamIsActive (main.srv zeroIntervalProcess) events
       = ([], server.Panicked)).
Proof.
  assert (Hwire : main.wire zeroIntervalEnv (kafka.Metadata ordersBroker)
                    (kafka.ListOffsets ordersBroker) (kafka.OffsetFetch ordersBroker)
                  = inr zeroIntervalProcess) by (by vm_compute).
  assert (Hparse : strconv.ParseInt (config.Getenv zeroIntervalEnv "SAMPLING_INTERVAL")
                   = inr 0) by (by vm_compute).
  assert (Hle : Int64.mul 0 time.Second ≤ 0) by (by vm_compute).
  split; [exact Hwire|]. split; [exact Hparse|]. split; [exact Hle|].
  exact (nonpositive_sampling_interval_panics zeroIntervalEnv _ _ _
           zeroIntervalProcess 0 Hwire Hparse Hle).
Defined.
